(** * The tabular profiling and simulated-cleaning engine

    A shallow embedding of the profiling page ([isNumeric], [parseFile],
    [runProfiling]) and of the cleaning page ([fetchSuggestionsForFile],
    [handleActionSelect], [handleApplyChanges]) of the Power BI assistant,
    followed by the properties proved about them.  Part I goes on with the rest
    of the two pages ([getFileIcon], the state updates of [runProfiling] and
    of [fetchSuggestionsForFile], [renderSuggestionOptions],
    [renderActiveFileContent]) and with the list handlers of the upload and
    modeling pages ([removeFile], [handleAcceptSuggestion],
    [handleRemoveRelationship]); Part III holds their properties.

    Modelling conventions.
    - A JavaScript string is the sequence of its code units; the model keeps
      the code units below 256 ([string] of the Standard Library).
    - Counts ([rowCount], [missingValues], ...) are integers ([Z]): sums,
      differences and comparisons of integers below 2^53 are exact on
      doubles.  The one computation of the sources that leaves the integers
      is the removal ratio of [handleApplyChanges]; it is carried out in
      IEEE-754 binary64 with the reference operations of [SpecFloat].  When
      its outcome is not a number (a row count of 0 with rows to remove may
      give NaN) the result of the apply step is not a profile with integer
      counts, and the model returns [None].
    - A [Record<string, T>] read by key is a [gmap string T].  The staged
      selections, whose insertion order is the order in which actions are
      applied, and the record [actionsByFile] are association lists in
      insertion order, which is the enumeration order of a record whose keys
      are not array indices.  File names are not names of properties of
      [Object.prototype]: a profiled file has a name that ends in one of
      the extensions the parser accepts.
    - [handleApplyChanges] is first a function on values; the store with the
      objects it copies and writes is modelled after it.
    - Column names are any texts.  Where a record is read under a column
      name ([fileSuggestions] of the cleaning page), the properties every
      object inherits are part of the model ([objectPrototypeNames]).
    - An awaited call is a parameter that gives its outcome: the value it
      resolves to or the value thrown.  This covers the spreadsheet reader
      and the JSON parser behind two branches of [parseFile], and the two
      services that answer with insights and with cleaning suggestions.  An
      asynchronous function is modelled by the state reached once its updates
      are made, the updates of one call being taken together. *)

From Stdlib Require Import ZArith Ascii String List Lia Bool.
From Stdlib Require Import Floats.SpecFloat.
From stdpp Require Import base option list gmap strings fin_maps.

Local Open Scope string_scope.
Local Open Scope list_scope.

(* ===================================================================== *)
(** * Part I: definitions *)
(* ===================================================================== *)

(** ** JavaScript strings *)

(** [WhiteSpace] and [LineTerminator] code units below 256:
    TAB, LF, VT, FF, CR, SP and NBSP. *)
Definition isWhitespace (c : ascii) : bool :=
  let n := nat_of_ascii c in
  ((9 <=? n)%nat && (n <=? 13)%nat) || (n =? 32)%nat || (n =? 160)%nat.

Definition isEmptyString (s : string) : bool :=
  match s with EmptyString => true | String _ _ => false end.

(** [String.prototype.trimStart] *)
Fixpoint trimStart (s : string) : string :=
  match s with
  | EmptyString => EmptyString
  | String c s' => if isWhitespace c then trimStart s' else s
  end.

(** [String.prototype.trimEnd] *)
Fixpoint trimEnd (s : string) : string :=
  match s with
  | EmptyString => EmptyString
  | String c s' =>
      let t := trimEnd s' in
      if isWhitespace c && isEmptyString t then EmptyString else String c t
  end.

(** [String.prototype.trim] *)
Definition trim (s : string) : string := trimEnd (trimStart s).

(** [s.split(sep)] for a one-character separator: always at least one
    piece, the empty string splits into one empty piece. *)
Fixpoint split (sep : ascii) (s : string) : list string :=
  match s with
  | EmptyString => [EmptyString]
  | String c s' =>
      if Ascii.eqb c sep then EmptyString :: split sep s'
      else match split sep s' with
           | piece :: rest => String c piece :: rest
           | [] => [String c EmptyString]
           end
  end.

(** [s.replace(/c/g, '')]: every occurrence of the character is removed. *)
Fixpoint removeAll (c : ascii) (s : string) : string :=
  match s with
  | EmptyString => EmptyString
  | String d s' => if Ascii.eqb d c then removeAll c s' else String d (removeAll c s')
  end.

Fixpoint stringAll (p : ascii -> bool) (s : string) : bool :=
  match s with
  | EmptyString => true
  | String c s' => p c && stringAll p s'
  end.

Fixpoint stringMem (c : ascii) (s : string) : bool :=
  match s with
  | EmptyString => false
  | String d s' => Ascii.eqb d c || stringMem c s'
  end.

(** [pieces.join(sep)] *)
Fixpoint joinWith (sep : ascii) (pieces : list string) : string :=
  match pieces with
  | [] => EmptyString
  | [piece] => piece
  | piece :: rest => piece +:+ String sep (joinWith sep rest)
  end.

Definition stringHead (s : string) : option ascii :=
  match s with EmptyString => None | String c _ => Some c end.

Fixpoint stringLast (s : string) : option ascii :=
  match s with
  | EmptyString => None
  | String c EmptyString => Some c
  | String _ s' => stringLast s'
  end.

Definition notWhitespace (c : option ascii) : Prop :=
  forall d, c = Some d -> isWhitespace d = false.

(** ** Regular expressions

    The fragment of the regular-expression syntax used by [isNumeric],
    matched against a whole string (the pattern is anchored by [^] and [$],
    and is not multi-line). *)

Inductive regex : Type :=
| ReEmpty                          (* matches nothing *)
| ReEps                            (* matches the empty string *)
| ReChar (c : ascii)               (* a literal character *)
| ReDigit                          (* \d *)
| ReSeq (r1 r2 : regex)
| ReAlt (r1 r2 : regex)
| ReStar (r : regex).

(** [r?] and [r+] *)
Definition ReOpt (r : regex) : regex := ReAlt r ReEps.
Definition RePlus (r : regex) : regex := ReSeq r (ReStar r).

(** [\d] without the unicode flag: the ten decimal digits *)
Definition isDigit (c : ascii) : bool :=
  let n := nat_of_ascii c in (48 <=? n)%nat && (n <=? 57)%nat.

Fixpoint nullable (r : regex) : bool :=
  match r with
  | ReEmpty => false
  | ReEps => true
  | ReChar _ => false
  | ReDigit => false
  | ReSeq r1 r2 => nullable r1 && nullable r2
  | ReAlt r1 r2 => nullable r1 || nullable r2
  | ReStar _ => true
  end.

Fixpoint deriv (c : ascii) (r : regex) : regex :=
  match r with
  | ReEmpty => ReEmpty
  | ReEps => ReEmpty
  | ReChar d => if Ascii.eqb c d then ReEps else ReEmpty
  | ReDigit => if isDigit c then ReEps else ReEmpty
  | ReSeq r1 r2 =>
      if nullable r1 then ReAlt (ReSeq (deriv c r1) r2) (deriv c r2)
      else ReSeq (deriv c r1) r2
  | ReAlt r1 r2 => ReAlt (deriv c r1) (deriv c r2)
  | ReStar r1 => ReSeq (deriv c r1) (ReStar r1)
  end.

(** [/^r$/.test(s)] *)
Fixpoint regexTest (r : regex) (s : string) : bool :=
  match s with
  | EmptyString => nullable r
  | String c s' => regexTest (deriv c r) s'
  end.

(** The language of a regular expression, as a relation. *)
Inductive Matches : regex -> string -> Prop :=
| MEps : Matches ReEps EmptyString
| MChar c : Matches (ReChar c) (String c EmptyString)
| MDigit c : isDigit c = true -> Matches ReDigit (String c EmptyString)
| MSeq r1 r2 s1 s2 :
    Matches r1 s1 -> Matches r2 s2 -> Matches (ReSeq r1 r2) (s1 +:+ s2)
| MAltL r1 r2 s : Matches r1 s -> Matches (ReAlt r1 r2) s
| MAltR r1 r2 s : Matches r2 s -> Matches (ReAlt r1 r2) s
| MStarNil r : Matches (ReStar r) EmptyString
| MStarApp r s1 s2 :
    Matches r s1 -> Matches (ReStar r) s2 -> Matches (ReStar r) (s1 +:+ s2).

(** [-?\d*\.?\d+] *)
Definition numericPattern : regex :=
  ReSeq (ReOpt (ReChar "-"))
    (ReSeq (ReStar ReDigit)
       (ReSeq (ReOpt (ReChar ".")) (RePlus ReDigit))).

(** [isNumeric]: the [typeof] test is void on a string.
<<
    if (typeof str !== 'string' || str.trim() === '') return false;
    return /^-?\d*\.?\d+$/.test(str.trim());
>> *)
Definition isNumeric (str : string) : bool :=
  if isEmptyString (trim str) then false
  else regexTest numericPattern (trim str).

(** The pattern of [isNumeric] in words: an optional minus sign, a possibly
    empty run of digits, an optional decimal point, and a non-empty run of
    digits. *)
Definition optChar (present : bool) (c : ascii) : string :=
  if present then String c EmptyString else EmptyString.

Definition NumericSyntax (s : string) : Prop :=
  exists (neg : bool) (whole : string) (point : bool) (frac : string),
    s = optChar neg "-" +:+ (whole +:+ (optChar point "." +:+ frac))
    /\ stringAll isDigit whole = true
    /\ stringAll isDigit frac = true
    /\ frac <> EmptyString.

(** The characters a numeric value is made of. *)
Definition isNumericChar (c : ascii) : bool :=
  isDigit c || Ascii.eqb c "-" || Ascii.eqb c ".".

(** ** The profile data model (types.ts) *)

Inductive DataType : Type :=
| DT_string | DT_number | DT_boolean | DT_mixed | DT_unknown.

Record ColumnProfile : Type := {
  name : string;
  dataType : DataType;
  missingValues : Z;
  uniqueValues : Z;
  nonNumericCount : option Z   (* [nonNumericCount?: number] *)
}.

Record FileProfile : Type := {
  fp_rowCount : Z;
  fp_columnCount : Z;
  fp_columns : list ColumnProfile
}.

Record AIInsights : Type := {
  suggested_kpis : list string;
  data_quality_summary : string
}.

(** [FullProfileResult extends FileProfile] *)
Record FullProfileResult : Type := {
  rowCount : Z;
  columnCount : Z;
  columns : list ColumnProfile;
  aiInsights : option AIInsights   (* [AIInsights | null] *)
}.

(** [{ ...basicProfile, aiInsights: insights }] *)
Definition withInsights (basicProfile : FileProfile) (insights : option AIInsights)
  : FullProfileResult :=
  {| rowCount := fp_rowCount basicProfile;
     columnCount := fp_columnCount basicProfile;
     columns := fp_columns basicProfile;
     aiInsights := insights |}.

Inductive CleaningActionType : Type :=
| REMOVE_ROWS | FILL_MEAN | FILL_MEDIAN | FILL_MODE | FILL_CUSTOM
| CHANGE_TYPE | TRIM_WHITESPACE.

Inductive TargetType : Type := TT_string | TT_number.

Record Parameters : Type := {
  value : option string;
  targetType : option TargetType
}.

Record CleaningSuggestion : Type := {
  action : CleaningActionType;
  description : string;
  parameters : option Parameters
}.

Inductive IssueType : Type := missing_values | mixed_type.

Record IssueDetails : Type := {
  missingCount : option Z;
  issue_nonNumericCount : option Z;
  totalRows : Z
}.

Record ColumnIssue : Type := {
  fileName : string;
  columnName : string;
  issueType : IssueType;
  details : IssueDetails
}.

Record AppliedAction : Type := {
  file : string;
  column : string;
  suggestion : CleaningSuggestion
}.

#[global] Instance DataType_eq_dec : EqDecision DataType.
Proof. solve_decision. Defined.
#[global] Instance CleaningActionType_eq_dec : EqDecision CleaningActionType.
Proof. solve_decision. Defined.
#[global] Instance TargetType_eq_dec : EqDecision TargetType.
Proof. solve_decision. Defined.
#[global] Instance IssueType_eq_dec : EqDecision IssueType.
Proof. solve_decision. Defined.

(** ** The file parser: CSV branch of [parseFile] *)

(** The double-quote character. *)
Definition dquote : ascii := "034"%char.

(** [h.trim().replace(Q, '')] where [Q] is the global (flag [g]) regular
    expression of the single character [dquote]. *)
Definition cleanCell (cell : string) : string := removeAll dquote (trim cell).

Definition isBlankLine (line : string) : bool := isEmptyString (trim line).

(** The [csv] case:
<<
    const lines = content.split('\n').filter(line => line.trim() !== '');
    if (lines.length === 0) return { header: [], rows: [] };
    const header = lines[0].split(',').map(h => h.trim().replace(Q, ''));
    const rows = lines.slice(1).map(line =>
        line.split(',').map(cell => cell.trim().replace(Q, '')));
>> *)
Definition csvLines (content : string) : list string :=
  List.filter (fun line => negb (isBlankLine line)) (split "010" content).

Definition parseCsv (content : string) : list string * list (list string) :=
  match csvLines content with
  | [] => ([], [])
  | line0 :: rest =>
      (map cleanCell (split "," line0),
       map (fun line => map cleanCell (split "," line)) rest)
  end.

(** The cell transformation in the words of the specification: the cell
    is trimmed and a double quote at its start and one at its end are
    stripped, the interior being kept. *)
Fixpoint dropLastQuote (s : string) : string :=
  match s with
  | EmptyString => EmptyString
  | String c EmptyString => if Ascii.eqb c dquote then EmptyString else s
  | String c s' => String c (dropLastQuote s')
  end.

Definition stripSurroundingQuotes (s : string) : string :=
  match s with
  | String c s' => if Ascii.eqb c dquote then dropLastQuote s' else dropLastQuote s
  | EmptyString => EmptyString
  end.

Definition cleanCellSpec (cell : string) : string := stripSurroundingQuotes (trim cell).

(** ** The column profiler: the synchronous core of [runProfiling] *)

(** The textual form [String(n)] of a numeric cell is a parameter of the
    model: the profiler only depends on it through the resulting string. *)
Class NumberCells : Type := {
  jsnumber : Type;
  numberToString : jsnumber -> string
}.

Section Profiler.
Context `{NumberCells}.

(** A cell of a parsed grid: [string | number | boolean | null]. *)
Inductive RawCell : Type :=
| CellString (s : string)
| CellNumber (n : jsnumber)
| CellBoolean (b : bool)
| CellNull.

(** [row[colIndex]] converted to text; [None] is [undefined]. *)
Definition cellToString (cell : option RawCell) : string :=
  match cell with
  | None => ""
  | Some CellNull => ""
  | Some (CellString s) => s
  | Some (CellNumber n) => numberToString n
  | Some (CellBoolean b) => if b then "true" else "false"
  end.

(** [rawRows.map(row => header.map((_, colIndex) => ...))] *)
Definition normalizeRows (header : list string) (rawRows : list (list RawCell))
  : list (list string) :=
  map (fun row => imap (fun colIndex _ => cellToString (row !! colIndex)) header) rawRows.

End Profiler.

(** [rows.map(row => row[colIndex])]; [None] is [undefined]. *)
Definition columnValues (rows : list (list string)) (colIndex : nat)
  : list (option string) :=
  map (fun row => row !! colIndex) rows.

(** [val === null || val === undefined || val.trim() === ''] *)
Definition isMissing (val : option string) : bool :=
  match val with
  | None => true
  | Some s => isEmptyString (trim s)
  end.

(** [isNumeric] applied to an array element: [typeof str !== 'string'] holds
    of [undefined]. *)
Definition isNumericValue (val : option string) : bool :=
  match val with
  | None => false
  | Some s => isNumeric s
  end.

Definition nonNullValues (vals : list (option string)) : list (option string) :=
  List.filter (fun val => negb (isMissing val)) vals.

(** The type inference of the profiler; the second component is the local
    [nonNumericCount]. *)
Definition inferType (vals : list (option string)) : DataType * Z :=
  let nonNull := nonNullValues vals in
  if (0 <? length nonNull)%nat then
    let numericValues := List.filter isNumericValue nonNull in
    let stringValues := List.filter (fun val => negb (isNumericValue val)) nonNull in
    if (0 <? length numericValues)%nat && (0 <? length stringValues)%nat then
      (DT_mixed, Z.of_nat (length stringValues))
    else if (0 <? length numericValues)%nat then (DT_number, 0%Z)
    else (DT_string, 0%Z)
  else (DT_unknown, 0%Z).

(** The callback of [header.map((colName, colIndex) => ...)].
    [new Set(xs).size] is the number of distinct elements of [xs]. *)
Definition profileColumn (rows : list (list string)) (colIndex : nat) (colName : string)
  : ColumnProfile :=
  let vals := columnValues rows colIndex in
  let missing := Z.of_nat (length (List.filter isMissing vals)) in
  let unique := Z.of_nat (length (remove_dups (nonNullValues vals))) in
  let '(dataType, nonNumeric) := inferType vals in
  {| name := colName;
     dataType := dataType;
     missingValues := missing;
     uniqueValues := unique;
     nonNumericCount :=
       match dataType with DT_mixed => Some nonNumeric | _ => None end |}.

Definition basicProfile (header : list string) (rows : list (list string)) : FileProfile :=
  {| fp_rowCount := Z.of_nat (length rows);
     fp_columnCount := Z.of_nat (length header);
     fp_columns := imap (profileColumn rows) header |}.

(** Steps 2 and 3 of [runProfiling] on a parsed grid: the error branch is
    the [throw] on an empty grid. *)
Definition profileGrid `{NumberCells} (header : list string) (rawRows : list (list RawCell))
  : string + FileProfile :=
  if (length header =? 0)%nat && (length rawRows =? 0)%nat then
    inl "File is empty or could not be parsed."
  else inr (basicProfile header (normalizeRows header rawRows)).

(** A CSV file yields text cells only. *)
#[global] Instance csvCells : NumberCells :=
  {| jsnumber := Empty_set; numberToString := fun n => match n with end |}.

Definition profileCsv (content : string) : string + FileProfile :=
  let '(header, rows) := parseCsv content in
  profileGrid (H := csvCells) header (map (map CellString) rows).

(** ** The issue detector: [issuesToFetch] of [fetchSuggestionsForFile] *)

(** Truthiness of an optional number: present and not zero. *)
Definition truthyCount (n : option Z) : bool :=
  match n with
  | Some k => negb (k =? 0)%Z
  | None => false
  end.

(** [col.nonNumericCount > 0], with [undefined > 0] being false. *)
Definition positiveCount (n : option Z) : bool :=
  match n with
  | Some k => (0 <? k)%Z
  | None => false
  end.

Definition missingIssue (fileName : string) (totalRows : Z) (col : ColumnProfile)
  : ColumnIssue :=
  {| fileName := fileName;
     columnName := name col;
     issueType := missing_values;
     details := {| missingCount := Some (missingValues col);
                   issue_nonNumericCount := None;
                   totalRows := totalRows |} |}.

Definition mixedIssue (fileName : string) (totalRows : Z) (col : ColumnProfile)
  : ColumnIssue :=
  {| fileName := fileName;
     columnName := name col;
     issueType := mixed_type;
     details := {| missingCount := None;
                   issue_nonNumericCount := nonNumericCount col;
                   totalRows := totalRows |} |}.

(** The callback of [profile.columns.forEach]: the descriptors pushed for
    one column, in push order. *)
Definition columnIssues (fileName : string) (totalRows : Z) (col : ColumnProfile)
  : list ColumnIssue :=
  (if (0 <? missingValues col)%Z then [missingIssue fileName totalRows col] else [])
  ++
  (if bool_decide (dataType col = DT_mixed)
      && truthyCount (nonNumericCount col) && positiveCount (nonNumericCount col)
   then [mixedIssue fileName totalRows col] else []).

Definition issuesToFetch (fileName : string) (profile : FullProfileResult)
  : list ColumnIssue :=
  flat_map (columnIssues fileName (rowCount profile)) (columns profile).

Definition isKind (kind : IssueType) (d : ColumnIssue) : bool :=
  bool_decide (issueType d = kind).

(** The two conditions of the detector, as the specification words them. *)
Definition hasMissing (col : ColumnProfile) : bool := (0 <? missingValues col)%Z.

Definition hasMixedType (col : ColumnProfile) : bool :=
  bool_decide (dataType col = DT_mixed) && positiveCount (nonNumericCount col).

(** ** Double-precision arithmetic of the removal estimate *)

Definition prec : Z := 53.
Definition emax : Z := 1024.

(** The binary64 value of an integer-valued number. *)
Definition toDouble (z : Z) : spec_float := binary_normalize prec emax z 0 false.

(** The result of [Math.round]: an integer, an infinity or NaN. *)
Inductive Rounded : Type :=
| RoundInt (k : Z)
| RoundPosInf
| RoundNegInf
| RoundNaN.

(** [Math.round]: the integer closest to the argument, ties going towards
    positive infinity, that is the floor of [x + 1/2] over the rationals.
    A finite [x] is [n * 2^e]. *)
Definition Math_round (x : spec_float) : Rounded :=
  match x with
  | S754_zero _ => RoundInt 0
  | S754_infinity s => if s then RoundNegInf else RoundPosInf
  | S754_nan => RoundNaN
  | S754_finite s m e =>
      let n := if s then Zneg m else Zpos m in
      if (0 <=? e)%Z then RoundInt (n * 2 ^ e)
      else RoundInt ((2 * n + 2 ^ (- e)) / 2 ^ (1 - e))
  end.

(** [Math.round(missing * (maxRowsToRemove / originalRowCount))] *)
Definition estimatedRemovals (missing maxRowsToRemove originalRowCount : Z) : Rounded :=
  let removalRatio := SFdiv prec emax (toDouble maxRowsToRemove) (toDouble originalRowCount) in
  Math_round (SFmul prec emax (toDouble missing) removalRatio).

(** [col.missingValues -= estimatedRemovals;
     if (col.missingValues < 0) col.missingValues = 0;]
    [None] when the outcome is not an integer count: NaN (the comparison
    with 0 is then false) or positive infinity. *)
Definition subtractFloored (missing : Z) (estimate : Rounded) : option Z :=
  match estimate with
  | RoundInt k => Some (if (missing - k <? 0)%Z then 0%Z else (missing - k)%Z)
  | RoundPosInf => Some 0%Z
  | RoundNegInf => None
  | RoundNaN => None
  end.

(** ** The cleaning simulator *)

Definition set_missingValues (v : Z) (c : ColumnProfile) : ColumnProfile :=
  {| name := name c; dataType := dataType c; missingValues := v;
     uniqueValues := uniqueValues c; nonNumericCount := nonNumericCount c |}.

Definition set_uniqueValues (v : Z) (c : ColumnProfile) : ColumnProfile :=
  {| name := name c; dataType := dataType c; missingValues := missingValues c;
     uniqueValues := v; nonNumericCount := nonNumericCount c |}.

Definition set_dataType (t : DataType) (c : ColumnProfile) : ColumnProfile :=
  {| name := name c; dataType := t; missingValues := missingValues c;
     uniqueValues := uniqueValues c; nonNumericCount := nonNumericCount c |}.

Definition set_nonNumericCount (v : option Z) (c : ColumnProfile) : ColumnProfile :=
  {| name := name c; dataType := dataType c; missingValues := missingValues c;
     uniqueValues := uniqueValues c; nonNumericCount := v |}.

Definition dataTypeOfTarget (t : TargetType) : DataType :=
  match t with TT_string => DT_string | TT_number => DT_number end.

(** [action.suggestion.parameters?.targetType] *)
Definition requestedTargetType (sug : CleaningSuggestion) : option TargetType :=
  match parameters sug with
  | Some p => targetType p
  | None => None
  end.

(** The [CHANGE_TYPE] case, entered with a target type. *)
Definition changeType (t : TargetType) (col : ColumnProfile) : ColumnProfile :=
  let col := set_dataType (dataTypeOfTarget t) col in
  if bool_decide (t = TT_number) && truthyCount (nonNumericCount col) then
    let col := set_missingValues
                 (missingValues col + default 0%Z (nonNumericCount col)) col in
    set_nonNumericCount (Some 0%Z) col
  else col.

(** The [switch] of the action loop: the effect of one suggestion on the
    column it names, and on [maxRowsToRemove]. *)
Definition applySuggestion (sug : CleaningSuggestion) (col : ColumnProfile)
    (maxRowsToRemove : Z) : ColumnProfile * Z :=
  let originalMissingCount := missingValues col in
  match action sug with
  | REMOVE_ROWS =>
      (set_missingValues 0 col,
       if (maxRowsToRemove <? originalMissingCount)%Z then originalMissingCount
       else maxRowsToRemove)
  | FILL_MEAN | FILL_MEDIAN | FILL_MODE | FILL_CUSTOM =>
      (set_uniqueValues (uniqueValues col + 1) (set_missingValues 0 col), maxRowsToRemove)
  | CHANGE_TYPE =>
      match requestedTargetType sug with
      | Some t => (changeType t col, maxRowsToRemove)
      | None => (col, maxRowsToRemove)
      end
  | TRIM_WHITESPACE => (col, maxRowsToRemove)
  end.

(** The callback of [actions.forEach]: [find] returns the first column with
    the name of the action; a name that is not found leaves the state as it
    is. *)
Definition applyAction (st : list ColumnProfile * Z) (a : AppliedAction)
  : list ColumnProfile * Z :=
  match list_find (fun c => name c = column a) st.1 with
  | None => st
  | Some (i, col) =>
      let '(col', maxRowsToRemove) := applySuggestion (suggestion a) col st.2 in
      (<[i := col']> st.1, maxRowsToRemove)
  end.

Definition isRemoveRows (a : AppliedAction) : bool :=
  bool_decide (action (suggestion a) = REMOVE_ROWS).

(** [actions.some(a => a.column === col.name && a.suggestion.action === REMOVE_ROWS)] *)
Definition removalSelected (actions : list AppliedAction) (col : ColumnProfile) : bool :=
  existsb (fun a => bool_decide (column a = name col) && isRemoveRows a) actions.

(** The callback of the second [fileProfile.columns.forEach]. *)
Definition adjustColumn (actions : list AppliedAction)
    (maxRowsToRemove originalRowCount : Z) (col : ColumnProfile) : option ColumnProfile :=
  if negb (removalSelected actions col) then
    v ← subtractFloored (missingValues col)
          (estimatedRemovals (missingValues col) maxRowsToRemove originalRowCount);
    Some (set_missingValues v col)
  else Some col.

(** One iteration of [for (const fileName in actionsByFile)] on a file that
    has a profile. *)
Definition applyToFile (fileProfile : FullProfileResult) (actions : list AppliedAction)
  : option FullProfileResult :=
  let '(cols, maxRowsToRemove) := foldl applyAction (columns fileProfile, 0%Z) actions in
  if (0 <? maxRowsToRemove)%Z then
    let originalRowCount := rowCount fileProfile in
    let newRowCount := (originalRowCount - maxRowsToRemove)%Z in
    let newRowCount := if (newRowCount <? 0)%Z then 0%Z else newRowCount in
    cols' ← mapM (adjustColumn actions maxRowsToRemove originalRowCount) cols;
    Some {| rowCount := newRowCount; columnCount := columnCount fileProfile;
            columns := cols'; aiInsights := aiInsights fileProfile |}
  else
    Some {| rowCount := rowCount fileProfile; columnCount := columnCount fileProfile;
            columns := cols; aiInsights := aiInsights fileProfile |}.

(** *** The same, column by column

    What one iteration computes when the actions of the file name pairwise
    distinct columns, stated for each column separately. *)

(** [find]: the first column of a given name. *)
Definition firstNamed (n : string) (cols : list ColumnProfile)
  : option (nat * ColumnProfile) :=
  list_find (fun c => name c = n) cols.

Definition firstIndex (n : string) (cols : list ColumnProfile) : option nat :=
  fst <$> firstNamed n cols.

(** The effect of a suggestion on the statistics of a column. *)
Definition columnEffect (sug : CleaningSuggestion) (col : ColumnProfile) : ColumnProfile :=
  (applySuggestion sug col 0).1.

(** The action that reaches the column at index [i]: the one that names it,
    if the column is the first of its name. *)
Definition stagedFor (actions : list AppliedAction) (cols : list ColumnProfile)
    (i : nat) (c : ColumnProfile) : option AppliedAction :=
  match firstIndex (name c) cols with
  | Some j =>
      if bool_decide (j = i)
      then List.find (fun a => bool_decide (column a = name c)) actions
      else None
  | None => None
  end.

(** The columns after the per-column effects. *)
Definition afterActions (actions : list AppliedAction) (cols : list ColumnProfile)
  : list ColumnProfile :=
  imap (fun i c => match stagedFor actions cols i c with
                   | Some a => columnEffect (suggestion a) c
                   | None => c
                   end) cols.

(** The candidate counts of removed rows: the missing values, before any
    action, of the columns reached by a [REMOVE_ROWS] action. *)
Definition removalCandidates (actions : list AppliedAction) (cols : list ColumnProfile)
  : list Z :=
  omap (fun a => if isRemoveRows a
                 then (fun ic => missingValues ic.2) <$> firstNamed (column a) cols
                 else None) actions.

(** Their maximum, 0 when there is none. *)
Definition maxRowsRemoved (actions : list AppliedAction) (cols : list ColumnProfile) : Z :=
  foldl Z.max 0%Z (removalCandidates actions cols).

(** The propagation in the words of the specification: the exact quotient
    rounded to the nearest integer, ties upwards (for a positive
    denominator), subtracted and floored at 0. *)
Definition roundHalfUp (num den : Z) : Z := ((2 * num + den) / (2 * den))%Z.

Definition claimedMissing (missing removed originalRowCount : Z) : Z :=
  Z.max 0 (missing - roundHalfUp (missing * removed) originalRowCount).

(** The counts of a profile are consistent with its row count: every
    column has at most [rowCount] missing values, its non-numeric values
    being among the others, and the row count is in the range where doubles
    are exact. *)
Definition CountsWithinRows (fileProfile : FullProfileResult) : Prop :=
  (0 <= rowCount fileProfile < 2 ^ 53)%Z
  /\ Forall (fun c => (0 <= missingValues c)%Z
                      /\ (0 <= default 0 (nonNumericCount c))%Z
                      /\ (missingValues c + default 0 (nonNumericCount c)
                          <= rowCount fileProfile)%Z)
       (columns fileProfile).

(** The staged selections [Record<string, AppliedAction>], in insertion
    order. *)
Definition Selections : Type := list (string * AppliedAction).

(** [{ ...prev, [key]: v }]: an existing key keeps its place and takes the
    new value, a new key goes last. *)
Fixpoint setKey (key : string) (v : AppliedAction) (prev : Selections) : Selections :=
  match prev with
  | [] => [(key, v)]
  | (k, w) :: rest =>
      if bool_decide (k = key) then (key, v) :: rest
      else (k, w) :: setKey key v rest
  end.

Definition getKey (key : string) (sel : Selections) : option AppliedAction :=
  snd <$> List.find (fun kv => bool_decide (kv.1 = key)) sel.

(** The template literal of [handleActionSelect] and of
    [renderSuggestionOptions]: file, a dash, column. *)
Definition selectionKey (file column : string) : string :=
  file +:+ "-" +:+ column.

Definition handleActionSelect (file column : string) (suggestion : CleaningSuggestion)
    (prev : Selections) : Selections :=
  setKey (selectionKey file column)
    {| file := file; column := column; suggestion := suggestion |} prev.

(** [selectedActions[key]] for the key of a pair, as read by
    [renderSuggestionOptions]. *)
Definition selectionFor (file column : string) (sel : Selections) : option AppliedAction :=
  getKey (selectionKey file column) sel.

(** The states of [selectedActions]: the empty record, updated by
    [handleActionSelect] only. *)
Inductive ReachableSelections : Selections -> Prop :=
| ReachEmpty : ReachableSelections []
| ReachSelect file column suggestion prev :
    ReachableSelections prev ->
    ReachableSelections (handleActionSelect file column suggestion prev).

(** Every entry sits under the key of its own pair. *)
Definition WellKeyed (sel : Selections) : Prop :=
  Forall (fun kv => kv.1 = selectionKey (file kv.2) (column kv.2)) sel.

(** [Object.values(selectedActions)] *)
Definition selectionValues (sel : Selections) : list AppliedAction := map snd sel.

(** The grouping loop: [actionsByFile[action.file].push(action)], a file
    entering the record at its first action. *)
Fixpoint pushAction (a : AppliedAction) (groups : list (string * list AppliedAction))
  : list (string * list AppliedAction) :=
  match groups with
  | [] => [(file a, [a])]
  | (f, acts) :: rest =>
      if bool_decide (f = file a) then (f, acts ++ [a]) :: rest
      else (f, acts) :: pushAction a rest
  end.

Definition actionsByFile (actions : list AppliedAction)
  : list (string * list AppliedAction) :=
  foldl (fun groups a => pushAction a groups) [] actions.

(** [actionsByFile[f]] *)
Definition getGroup (f : string) (groups : list (string * list AppliedAction))
  : option (list AppliedAction) :=
  snd <$> List.find (fun g => bool_decide (g.1 = f)) groups.

(** The actions staged for one file, in the order of [Object.values]. *)
Definition actionsOf (f : string) (actions : list AppliedAction) : list AppliedAction :=
  List.filter (fun a => bool_decide (file a = f)) actions.

(** The body of [for (const fileName in actionsByFile)]; [continue] on a
    file without profile. *)
Definition applyGroup (newProfiles : option (gmap string FullProfileResult))
    (group : string * list AppliedAction) : option (gmap string FullProfileResult) :=
  np ← newProfiles;
  match np !! group.1 with
  | None => Some np
  | Some fileProfile =>
      fileProfile' ← applyToFile fileProfile group.2;
      Some (<[group.1 := fileProfile']> np)
  end.

(** [handleApplyChanges], as the function from the current profiles and
    selections to the value handed to [setProfiles].  The JSON round trip
    that makes [newProfiles] returns a value equal to [profiles]: every field
    of the model is an integer, a string, an array or an absent property.
    [None]: some count of the result is not an integer (see
    [subtractFloored]). *)
Definition handleApplyChanges (profiles : gmap string FullProfileResult)
    (selectedActions : Selections) : option (gmap string FullProfileResult) :=
  let newProfiles := profiles in
  foldl applyGroup (Some newProfiles) (actionsByFile (selectionValues selectedActions)).

(** ** The apply step on the store

    [handleApplyChanges] once more, with the objects it reads and writes.
    The store holds the records of profiles (the values of the [profiles]
    state) and the file-profile objects they refer to; a file-profile object
    is taken as one cell together with its columns, which no other object
    refers to.  The JSON round trip allocates a new record and a new object
    per file; the loops then write to these new objects, and the new record
    is handed to [setProfiles] at the end. *)

Definition loc : Type := positive.

Inductive Obj : Type :=
| ObjRecord (entries : list (string * loc))   (* keys in insertion order *)
| ObjProfile (p : FullProfileResult).

(** The store: the objects by location. *)
Abbreviation Store := (gmap loc Obj).

Inductive Effect : Type :=
| SetProfiles (newProfiles : loc)
| OnProceed.

Definition profileAt (h : Store) (l : loc) : option FullProfileResult :=
  match h !! l with
  | Some (ObjProfile p) => Some p
  | _ => None
  end.

(** [record[f]] *)
Definition entryOf (f : string) (entries : list (string * loc)) : option loc :=
  snd <$> List.find (fun e => bool_decide (e.1 = f)) entries.

(** The copy of the entries of a record, each file-profile object being
    copied to a new location. *)
Fixpoint copyEntries (entries : list (string * loc)) (h : Store)
  : option (list (string * loc) * Store) :=
  match entries with
  | [] => Some ([], h)
  | (f, l) :: rest =>
      match profileAt h l with
      | Some p =>
          let l' := fresh (dom h) in
          match copyEntries rest (<[l' := ObjProfile p]> h) with
          | Some (rest', h') => Some ((f, l') :: rest', h')
          | None => None
          end
      | None => None
      end
  end.

(** [JSON.parse(JSON.stringify(profiles))]: the location of the new record
    and the store after the copy. *)
Definition deepCopy (h : Store) (profiles : loc) : option (loc * Store) :=
  match h !! profiles with
  | Some (ObjRecord entries) =>
      match copyEntries entries h with
      | Some (entries', h') =>
          let newProfiles := fresh (dom h') in
          Some (newProfiles, <[newProfiles := ObjRecord entries']> h')
      | None => None
      end
  | _ => None
  end.

(** The body of the file loop: the writes go to the object
    [newProfiles[fileName]]. *)
Definition applyGroupStore (entries : list (string * loc)) (acc : option (Store))
    (group : string * list AppliedAction) : option (Store) :=
  h ← acc;
  match entryOf group.1 entries with
  | None => Some h
  | Some l =>
      fileProfile ← profileAt h l;
      fileProfile' ← applyToFile fileProfile group.2;
      Some (<[l := ObjProfile fileProfile']> h)
  end.

(** The copy followed by the file loop over the given groups. *)
Definition runFileLoop (h : Store) (profiles : loc)
    (groups : list (string * list AppliedAction)) : option (loc * Store) :=
  match deepCopy h profiles with
  | Some (newProfiles, h1) =>
      match h1 !! newProfiles with
      | Some (ObjRecord entries) =>
          h2 ← foldl (applyGroupStore entries) (Some h1) groups;
          Some (newProfiles, h2)
      | _ => None
      end
  | None => None
  end.

(** [handleApplyChanges] on the store: the final store and the calls made
    to the component's callbacks. *)
Definition handleApplyChangesStore (h : Store) (profiles : loc)
    (selectedActions : Selections) : option (Store * list Effect) :=
  match runFileLoop h profiles (actionsByFile (selectionValues selectedActions)) with
  | Some (newProfiles, h') => Some (h', [SetProfiles newProfiles; OnProceed])
  | None => None
  end.

(** The store as seen through the entries of a record: the profile map
    they stand for. *)
Definition Sim (entries : list (string * loc)) (h : Store)
    (np : gmap string FullProfileResult) : Prop :=
  (forall f, np !! f = entryOf f entries ≫= profileAt h)
  /\ Forall (fun e => is_Some (profileAt h e.2)) entries.

(** The record at [root] is the profile map [profiles]. *)
Definition Represents (h : Store) (root : loc)
    (profiles : gmap string FullProfileResult) : Prop :=
  exists entries, h !! root = Some (ObjRecord entries) /\ Sim entries h profiles.

(** ** File names: [getFileIcon] and the [switch] of [parseFile] *)

(** [String.prototype.toLowerCase] on a code unit below 256: the letters
    [A] to [Z], and the capital letters of Latin-1 (192 to 222, the
    multiplication sign 215 apart), move up by 32. *)
Definition toLowerChar (c : ascii) : ascii :=
  let n := nat_of_ascii c in
  if ((65 <=? n)%nat && (n <=? 90)%nat)
     || ((192 <=? n)%nat && (n <=? 222)%nat && negb (n =? 215)%nat)
  then ascii_of_nat (n + 32) else c.

Fixpoint toLowerCase (s : string) : string :=
  match s with
  | EmptyString => EmptyString
  | String c s' => String (toLowerChar c) (toLowerCase s')
  end.

(** [fileName.split('.').pop()?.toLowerCase()]; [None] is [undefined], the
    value of [pop] on an empty array. *)
Definition fileExtension (fileName : string) : option string :=
  toLowerCase <$> last (split "." fileName).

Inductive FileIcon : Type := TableCellsIcon | CodeBracketIcon | DocumentTextIcon.

Definition getFileIcon (fileName : string) : FileIcon :=
  let extension := fileExtension fileName in
  if bool_decide (extension = Some "csv") || bool_decide (extension = Some "xlsx")
     || bool_decide (extension = Some "xls")
  then TableCellsIcon
  else if bool_decide (extension = Some "json") then CodeBracketIcon
  else DocumentTextIcon.

(** The branches of [switch (extension)] in [parseFile]. *)
Inductive FileFormat : Type := FormatCsv | FormatExcel | FormatJson.

(** The text of [`${extension}`]. *)
Definition extensionText (extension : option string) : string :=
  match extension with Some e => e | None => "undefined" end.

(** The branch [parseFile] takes for a file name, or the message of the
    error thrown by the [default] branch. *)
Definition parseFileBranch (fileName : string) : string + FileFormat :=
  let extension := fileExtension fileName in
  if bool_decide (extension = Some "csv") then inr FormatCsv
  else if bool_decide (extension = Some "xlsx") || bool_decide (extension = Some "xls")
       then inr FormatExcel
  else if bool_decide (extension = Some "json") then inr FormatJson
  else inl ("Unsupported file type: ." +:+ extensionText extension).

(** The number of occurrences of a character: the commas of a line. *)
Fixpoint countChar (c : ascii) (s : string) : nat :=
  match s with
  | EmptyString => 0
  | String d s' => (if Ascii.eqb d c then 1 else 0) + countChar c s'
  end.

(** ** The profiling run: [runProfiling] and its state updates *)

Inductive ProfilingStatus : Type :=
| StatusPending | StatusProfiling | StatusInsights | StatusComplete | StatusError.

#[global] Instance ProfilingStatus_eq_dec : EqDecision ProfilingStatus.
Proof. solve_decision. Defined.

(** A value caught by a [catch]: an [Error] with its message, or a value
    that is not an [Error]. *)
Inductive Thrown : Type :=
| ThrownError (message : string)
| ThrownOther.

(** The state the run updates: [status] and [errors] of the profiling page
    and [profiles] of the application. *)
Record ProfilingState : Type := {
  ps_status : gmap string ProfilingStatus;
  ps_errors : gmap string string;
  ps_profiles : gmap string FullProfileResult
}.

(** [setStatus(prev => ({ ...prev, [file.name]: s }))] *)
Definition setStatus (fileName : string) (s : ProfilingStatus) (st : ProfilingState)
  : ProfilingState :=
  {| ps_status := <[fileName := s]> (ps_status st);
     ps_errors := ps_errors st; ps_profiles := ps_profiles st |}.

(** [setErrors(prev => ({ ...prev, [file.name]: errorMessage }))] *)
Definition setErrors (fileName errorMessage : string) (st : ProfilingState)
  : ProfilingState :=
  {| ps_status := ps_status st;
     ps_errors := <[fileName := errorMessage]> (ps_errors st);
     ps_profiles := ps_profiles st |}.

(** [setProfiles(prev => ({ ...prev, [file.name]: profile }))] *)
Definition setProfile (fileName : string) (profile : FullProfileResult)
    (st : ProfilingState) : ProfilingState :=
  {| ps_status := ps_status st; ps_errors := ps_errors st;
     ps_profiles := <[fileName := profile]> (ps_profiles st) |}.

(** [e instanceof Error ? e.message : "An unknown error occurred during analysis."] *)
Definition errorMessageOf (e : Thrown) : string :=
  match e with
  | ThrownError message => message
  | ThrownOther => "An unknown error occurred during analysis."
  end.

(** The [catch] block of [runProfiling]. *)
Definition profilingFailed (fileName : string) (e : Thrown) (st : ProfilingState)
  : ProfilingState :=
  setErrors fileName (errorMessageOf e) (setStatus fileName StatusError st).

(** [status[file.name] && status[file.name] !== 'pending'] *)
Definition alreadyStarted (s : option ProfilingStatus) : bool :=
  match s with
  | None => false
  | Some StatusPending => false
  | Some _ => true
  end.

(** A file of the upload queue: its name and its text.  The spreadsheet
    reader and the JSON parser behind the [xlsx] and [json] branches of
    [parseFile] are outside the model: the outcome of these two branches is
    a parameter. *)
Record UploadedFile : Type := {
  file_name : string;
  file_text : string
}.

Section RunProfiling.
Context `{NumberCells}.

Definition ParsedGrid : Type := list string * list (list RawCell).

Variable readWorkbook : UploadedFile -> Thrown + ParsedGrid.
Variable readJson : UploadedFile -> Thrown + ParsedGrid.

(** The outcome of [await generateInsightsFromProfile(basicProfile, file.name)]. *)
Variable generateInsightsFromProfile : FileProfile -> string -> Thrown + AIInsights.

(** [parseFile]: the parsed grid, or the value thrown. *)
Definition parseFile (file : UploadedFile) : Thrown + ParsedGrid :=
  match parseFileBranch (file_name file) with
  | inr FormatCsv =>
      let '(header, rows) := parseCsv (file_text file) in
      inr (header, map (map CellString) rows)
  | inr FormatExcel => readWorkbook file
  | inr FormatJson => readJson file
  | inl message => inl (ThrownError message)
  end.

(** [runProfiling]: the state once the updates of the run are made. *)
Definition runProfiling (file : UploadedFile) (st : ProfilingState) : ProfilingState :=
  let fileName := file_name file in
  if alreadyStarted (ps_status st !! fileName) then st
  else
    let st := setStatus fileName StatusProfiling st in
    match parseFile file with
    | inl e => profilingFailed fileName e st
    | inr (header, rawRows) =>
        match profileGrid header rawRows with
        | inl message => profilingFailed fileName (ThrownError message) st
        | inr basicProfile =>
            let st := setStatus fileName StatusInsights st in
            match generateInsightsFromProfile basicProfile fileName with
            | inl e => profilingFailed fileName e st
            | inr insights =>
                setStatus fileName StatusComplete
                  (setProfile fileName (withInsights basicProfile (Some insights)) st)
            end
        end
    end.

End RunProfiling.

(** The [Missing Values] tile:
    [profile.columns.reduce((acc, col) => acc + col.missingValues, 0)] *)
Definition totalMissing (profile : FullProfileResult) : Z :=
  foldl (fun acc col => (acc + missingValues col)%Z) 0%Z (columns profile).

(** ** The cleaning page: suggestions of the active file *)

Inductive LoadingStatus : Type :=
| LoadPending | LoadLoading | LoadDone | LoadError.

#[global] Instance LoadingStatus_eq_dec : EqDecision LoadingStatus.
Proof. solve_decision. Defined.

(** [suggestions] and [loadingStates] of the cleaning page.  The record of
    the suggestions of a file is read by column name only. *)
Record CleaningState : Type := {
  cs_suggestions : gmap string (gmap string (list CleaningSuggestion));
  cs_loadingStates : gmap string LoadingStatus
}.

Definition setLoadingState (fileName : string) (s : LoadingStatus) (st : CleaningState)
  : CleaningState :=
  {| cs_suggestions := cs_suggestions st;
     cs_loadingStates := <[fileName := s]> (cs_loadingStates st) |}.

Definition setSuggestions (fileName : string)
    (fileSuggestions : gmap string (list CleaningSuggestion)) (st : CleaningState)
  : CleaningState :=
  {| cs_suggestions := <[fileName := fileSuggestions]> (cs_suggestions st);
     cs_loadingStates := cs_loadingStates st |}.

(** The properties every object inherits from [Object.prototype]: read on
    an object that has no property of its own under that name, each of them
    gives a function or an object, which is truthy and has no [push]. *)
Definition objectPrototypeNames : list string :=
  [ "constructor"; "__defineGetter__"; "__defineSetter__"; "hasOwnProperty";
    "__lookupGetter__"; "__lookupSetter__"; "isPrototypeOf";
    "propertyIsEnumerable"; "toString"; "valueOf"; "__proto__"; "toLocaleString" ].

Definition isInherited (key : string) : bool :=
  bool_decide (key ∈ objectPrototypeNames).

(** The callback of [results.forEach]:
<<
    if (!fileSuggestions[result.columnName]) fileSuggestions[result.columnName] = [];
    fileSuggestions[result.columnName].push(...result.suggestions);
>>
    [None]: the [TypeError] of a [push] that is not a function. *)
Definition pushSuggestions (acc : option (gmap string (list CleaningSuggestion)))
    (result : string * list CleaningSuggestion)
  : option (gmap string (list CleaningSuggestion)) :=
  fileSuggestions ← acc;
  match fileSuggestions !! result.1 with
  | Some l => Some (<[result.1 := l ++ result.2]> fileSuggestions)
  | None =>
      if isInherited result.1 then None
      else Some (<[result.1 := [] ++ result.2]> fileSuggestions)
  end.

Definition groupSuggestions (results : list (string * list CleaningSuggestion))
  : option (gmap string (list CleaningSuggestion)) :=
  foldl pushSuggestions (Some ∅) results.

(** What the grouping comes to: a column has an entry when a result names
    it, and the entry holds the suggestions of these results, in order. *)
Definition suggestionsFor (c : string) (results : list (string * list CleaningSuggestion))
  : list CleaningSuggestion :=
  concat (map snd (List.filter (fun r => bool_decide (r.1 = c)) results)).

Definition namedIn (c : string) (results : list (string * list CleaningSuggestion)) : bool :=
  existsb (fun r => bool_decide (r.1 = c)) results.

(** [loadingStates[fileName] === 'loading' || loadingStates[fileName] === 'done'] *)
Definition fetchStarted (s : option LoadingStatus) : bool :=
  match s with
  | Some LoadLoading => true
  | Some LoadDone => true
  | _ => false
  end.

Section FetchSuggestions.

(** The outcome of [generateCleaningSuggestions(issue)]: the suggestions the
    promise resolves to, or the value it rejects with. *)
Variable generateCleaningSuggestions : ColumnIssue -> Thrown + list CleaningSuggestion.

(** [generateCleaningSuggestions(issue).then(sugs =>
       ({ columnName: issue.columnName, suggestions: sugs }))];
    [None] is a rejected promise. *)
Definition suggestionPromise (issue : ColumnIssue)
  : option (string * list CleaningSuggestion) :=
  match generateCleaningSuggestions issue with
  | inr sugs => Some (columnName issue, sugs)
  | inl _ => None
  end.

(** The results when every promise resolves. *)
Definition resolvedResults (issues : list ColumnIssue)
  : list (string * list CleaningSuggestion) :=
  map (fun issue =>
         (columnName issue,
          match generateCleaningSuggestions issue with
          | inr sugs => sugs
          | inl _ => []
          end)) issues.

Definition isResolved (issue : ColumnIssue) : bool :=
  match generateCleaningSuggestions issue with
  | inr _ => true
  | inl _ => false
  end.

(** The two ways a fetch fails once the profile is found: a rejected
    promise, or an issue on a column whose name is an inherited property. *)
Definition fetchFails (issues : list ColumnIssue) : bool :=
  negb (forallb isResolved issues)
  || existsb (fun issue => isInherited (columnName issue)) issues.

(** [fetchSuggestionsForFile]: the state once the updates of the call are
    made.  [Promise.all] rejects when one of the promises does, and the
    [catch] block covers it as well as the grouping loop. *)
Definition fetchSuggestionsForFile (fileName : string)
    (profiles : gmap string FullProfileResult) (st : CleaningState) : CleaningState :=
  if fetchStarted (cs_loadingStates st !! fileName) then st
  else
    let st := setLoadingState fileName LoadLoading st in
    match profiles !! fileName with
    | None => setLoadingState fileName LoadError st
    | Some profile =>
        let issuesToFetch := issuesToFetch fileName profile in
        match mapM suggestionPromise issuesToFetch ≫= groupSuggestions with
        | Some fileSuggestions =>
            setLoadingState fileName LoadDone (setSuggestions fileName fileSuggestions st)
        | None => setLoadingState fileName LoadError st
        end
    end.

End FetchSuggestions.

(** ** The cleaning page: what is rendered for the active file *)

(** [s.action === sug.action && s.description === sug.description] *)
Definition sameOption (sug s : CleaningSuggestion) : bool :=
  bool_decide (action s = action sug) && bool_decide (description s = description sug).

(** [self.findIndex(p)]; [None] is the result -1. *)
Fixpoint findIndex {A} (p : A -> bool) (self : list A) : option nat :=
  match self with
  | [] => None
  | x :: rest => if p x then Some 0%nat else S <$> findIndex p rest
  end.

(** [self.filter((x, index) => p x index)] *)
Definition filterWithIndex {A} (p : A -> nat -> bool) (self : list A) : list A :=
  omap id (imap (fun index x => if p x index then Some x else None) self).

(** [uniqueSuggestions] of [renderSuggestionOptions]. *)
Definition uniqueSuggestions (suggestionsList : list CleaningSuggestion)
  : list CleaningSuggestion :=
  filterWithIndex
    (fun sug index => bool_decide (Some index = findIndex (sameOption sug) suggestionsList))
    suggestionsList.

(** The same list by recursion: an option is kept when none of the options
    before it has its action and its description. *)
Fixpoint firstOccurrences (seen l : list CleaningSuggestion) : list CleaningSuggestion :=
  match l with
  | [] => []
  | x :: rest =>
      (if existsb (sameOption x) seen then [] else [x])
      ++ firstOccurrences (seen ++ [x]) rest
  end.

(** What two options are compared by. *)
Definition optionKey (s : CleaningSuggestion) : CleaningActionType * string :=
  (action s, description s).

(** [selectedActions[key]?.suggestion] *)
Definition currentSelection (fileName columnName : string) (selectedActions : Selections)
  : option CleaningSuggestion :=
  suggestion <$> selectionFor fileName columnName selectedActions.

(** The [checked] attribute of the radio button of [sug]:
    [currentSelection?.action === sug.action
     && currentSelection?.description === sug.description] *)
Definition isChecked (current : option CleaningSuggestion) (sug : CleaningSuggestion)
  : bool :=
  match current with
  | Some cur =>
      bool_decide (action cur = action sug)
      && bool_decide (description cur = description sug)
  | None => false
  end.

(** The radio buttons of [renderSuggestionOptions], with their [checked]
    attribute. *)
Definition renderSuggestionOptions (fileName columnName : string)
    (suggestionsList : list CleaningSuggestion) (selectedActions : Selections)
  : list (CleaningSuggestion * bool) :=
  let current := currentSelection fileName columnName selectedActions in
  map (fun sug => (sug, isChecked current sug)) (uniqueSuggestions suggestionsList).

(** [c.missingValues > 0 || c.dataType === 'mixed'] *)
Definition needsCleaning (c : ColumnProfile) : bool :=
  (0 <? missingValues c)%Z || bool_decide (dataType c = DT_mixed).

(** [columnsWithIssues] of [renderActiveFileContent]. *)
Definition columnsWithIssues (profile : option FullProfileResult) : list ColumnProfile :=
  match profile with
  | Some p => List.filter needsCleaning (columns p)
  | None => []
  end.

(** The lower part of the card of a column: the options, or the spinner. *)
Inductive CardBody : Type :=
| CardOptions (options : list (CleaningSuggestion * bool))
| CardSpinner.

(** What [renderActiveFileContent] returns. *)
Inductive ActiveFileView : Type :=
| ViewNothing
| ViewLoading
| ViewError
| ViewNoIssues
| ViewCards (cards : list (ColumnProfile * CardBody)).

(** [fileSuggestions && fileSuggestions[column.name]
       ? renderSuggestionOptions(activeFile, column.name, fileSuggestions[column.name])
       : <LoadingSpinner />].
    [None]: the [TypeError] of [suggestionsList.filter] when the value read
    under the column name is an inherited one. *)
Definition cardBody (activeFile : string)
    (fileSuggestions : option (gmap string (list CleaningSuggestion)))
    (selectedActions : Selections) (column : ColumnProfile) : option CardBody :=
  match fileSuggestions with
  | None => Some CardSpinner
  | Some fs =>
      match fs !! name column with
      | Some suggestionsList =>
          Some (CardOptions (renderSuggestionOptions activeFile (name column)
                               suggestionsList selectedActions))
      | None => if isInherited (name column) then None else Some CardSpinner
      end
  end.

(** [renderActiveFileContent]; [None] when the rendering throws.  The test
    [!activeFile] holds of [null] and of the empty name. *)
Definition renderActiveFileContent (activeFile : option string) (st : CleaningState)
    (profiles : gmap string FullProfileResult) (selectedActions : Selections)
  : option ActiveFileView :=
  match activeFile with
  | None => Some ViewNothing
  | Some EmptyString => Some ViewNothing
  | Some activeFile =>
      let state := cs_loadingStates st !! activeFile in
      let fileSuggestions := cs_suggestions st !! activeFile in
      let profile := profiles !! activeFile in
      if bool_decide (state = Some LoadLoading) then Some ViewLoading
      else if bool_decide (state = Some LoadError) then Some ViewError
      else
        let shown := columnsWithIssues profile in
        if (length shown =? 0)%nat then Some ViewNoIssues
        else
          ViewCards <$>
            mapM (fun column =>
                    pair column <$> cardBody activeFile fileSuggestions selectedActions column)
                 shown
  end.

(** The [Staged Changes] list: one line per staged selection, with its
    React key [`${action.file}-${action.column}`] and the three texts it
    shows. *)
Definition stagedChanges (selectedActions : Selections)
  : list (string * (string * string * string)) :=
  map (fun action =>
         (selectionKey (file action) (column action),
          (file action, column action, description (suggestion action))))
      (selectionValues selectedActions).

(** A [mixed] column carries a positive count of non-numeric values. *)
Definition MixedCounted (profile : FullProfileResult) : Prop :=
  Forall (fun c => dataType c = DT_mixed -> positiveCount (nonNumericCount c) = true)
    (columns profile).

(** What every step of the simulation keeps of a column: its name, its
    unique values or more, its type unless the type becomes [string] or
    [number], and the positive count that comes with the type [mixed]. *)
Definition ColumnKept (c c' : ColumnProfile) : Prop :=
  name c' = name c
  /\ (uniqueValues c <= uniqueValues c')%Z
  /\ (dataType c' = dataType c \/ dataType c' = DT_string \/ dataType c' = DT_number)
  /\ ((dataType c = DT_mixed -> positiveCount (nonNumericCount c) = true) ->
      dataType c' = DT_mixed -> positiveCount (nonNumericCount c') = true).

(** A suggestion the simulation has no case for: [TRIM_WHITESPACE], and
    [CHANGE_TYPE] without a target type. *)
Definition hasNoEffect (sug : CleaningSuggestion) : bool :=
  match action sug with
  | TRIM_WHITESPACE => true
  | CHANGE_TYPE => bool_decide (requestedTargetType sug = None)
  | _ => false
  end.

(** ** The upload queue and the data model *)

(** [prev.filter((_, i) => i !== index)]: [removeFile] of the upload page
    and [handleRemoveRelationship] of the modeling page. *)
Definition removeFile {A} (index : nat) (prevFiles : list A) : list A :=
  filterWithIndex (fun _ i => negb (i =? index)%nat) prevFiles.

Definition handleRemoveRelationship {A} (index : nat) (prev : list A) : list A :=
  filterWithIndex (fun _ i => negb (i =? index)%nat) prev.

Inductive RelationshipType : Type := OneToMany | ManyToOne | OneToOne | ManyToMany.

Inductive Confidence : Type := High | Medium | Low.

Record Relationship : Type := {
  fromTable : string;
  fromColumn : string;
  toTable : string;
  toColumn : string;
  rel_type : RelationshipType
}.

(** [RelationshipSuggestion extends Relationship] *)
Record RelationshipSuggestion : Type := {
  sug_fromTable : string;
  sug_fromColumn : string;
  sug_toTable : string;
  sug_toColumn : string;
  sug_type : RelationshipType;
  confidence : Confidence;
  reason : string
}.

#[global] Instance RelationshipType_eq_dec : EqDecision RelationshipType.
Proof. solve_decision. Defined.
#[global] Instance Relationship_eq_dec : EqDecision Relationship.
Proof. solve_decision. Defined.

(** [relationships] of the application and [suggestions] of the modeling
    page. *)
Record ModelingState : Type := {
  ms_relationships : list Relationship;
  ms_suggestions : list RelationshipSuggestion
}.

(** [handleAcceptSuggestion], called with the suggestion listed at [index].
    The test [JSON.stringify(r) === JSON.stringify(newRelationship)] compares
    two objects with the same five text fields in the same order, whose JSON
    text determines them: it is the equality of the records.  The suggestions
    are the distinct objects of one parsed response, so that
    [prev.filter(s => s !== suggestion)] drops the one at [index]. *)
Definition handleAcceptSuggestion (index : nat) (st : ModelingState) : ModelingState :=
  match ms_suggestions st !! index with
  | None => st
  | Some suggestion =>
      let newRelationship :=
        {| fromTable := sug_fromTable suggestion;
           fromColumn := sug_fromColumn suggestion;
           toTable := sug_toTable suggestion;
           toColumn := sug_toColumn suggestion;
           rel_type := sug_type suggestion |} in
      {| ms_relationships :=
           if existsb (fun r => bool_decide (r = newRelationship)) (ms_relationships st)
           then ms_relationships st
           else ms_relationships st ++ [newRelationship];
         ms_suggestions :=
           filterWithIndex (fun _ i => negb (i =? index)%nat) (ms_suggestions st) |}
  end.

(** The user's steps on the modeling page. *)
Inductive ModelingStep : Type :=
| AcceptSuggestion (index : nat)
| RemoveRelationship (index : nat).

Definition modelingStep (st : ModelingState) (step : ModelingStep) : ModelingState :=
  match step with
  | AcceptSuggestion index => handleAcceptSuggestion index st
  | RemoveRelationship index =>
      {| ms_relationships := handleRemoveRelationship index (ms_relationships st);
         ms_suggestions := ms_suggestions st |}
  end.

(** ** Sample values used in the examples *)

Definition fillMode : CleaningSuggestion :=
  {| action := FILL_MODE; description := "Fill with the mode"; parameters := None |}.

Definition dropRows : CleaningSuggestion :=
  {| action := REMOVE_ROWS; description := "Remove the rows"; parameters := None |}.

Definition plainColumn (n : string) (missing : Z) : ColumnProfile :=
  {| name := n; dataType := DT_string; missingValues := missing; uniqueValues := 5;
     nonNumericCount := None |}.

(** Two columns [A] and [B] with the given missing counts. *)
Definition twoColumns (rows missingA missingB : Z) : FullProfileResult :=
  {| rowCount := rows; columnCount := 2;
     columns := [plainColumn "A" missingA; plainColumn "B" missingB];
     aiInsights := None |}.

Definition dropRowsOnA : AppliedAction :=
  {| file := "sales.csv"; column := "A"; suggestion := dropRows |}.

Definition changeTo (t : TargetType) : CleaningSuggestion :=
  {| action := CHANGE_TYPE; description := "Change the type";
     parameters := Some {| value := None; targetType := Some t |} |}.

Definition amountColumn : ColumnProfile :=
  {| name := "amount"; dataType := DT_mixed; missingValues := 2; uniqueValues := 9;
     nonNumericCount := Some 5%Z |}.

Definition amountProfile : FullProfileResult :=
  {| rowCount := 20; columnCount := 1; columns := [amountColumn]; aiInsights := None |}.

Definition onAmount (sug : CleaningSuggestion) : AppliedAction :=
  {| file := "sales.csv"; column := "amount"; suggestion := sug |}.

Definition sampleStore : Store :=
  {[ 1%positive := ObjRecord [("sales.csv", 2%positive)];
     2%positive := ObjProfile (twoColumns 100 10 20) ]}.

Definition sampleProfiles : gmap string FullProfileResult :=
  {[ "sales.csv" := twoColumns 100 10 20 ]}.

(** A service that answers every request with one suggestion. *)
Definition answerAll : ColumnIssue -> Thrown + list CleaningSuggestion :=
  fun _ => inr [fillMode].

Definition noCleaningState : CleaningState :=
  {| cs_suggestions := ∅; cs_loadingStates := ∅ |}.

(** A file with two columns of the same name. *)
Definition sameNameColumns (uniqueFirst : Z) (missingFirst : Z) : FullProfileResult :=
  {| rowCount := 10; columnCount := 2;
     columns := [ {| name := "A"; dataType := DT_string; missingValues := missingFirst;
                     uniqueValues := uniqueFirst; nonNumericCount := None |};
                  plainColumn "A" 4 ];
     aiInsights := None |}.

(** A file with a column named like an inherited property. *)
Definition inheritedNameProfiles : gmap string FullProfileResult :=
  {[ "sales.csv" := {| rowCount := 10; columnCount := 1;
                       columns := [plainColumn "constructor" 3];
                       aiInsights := None |} ]}.

(* ===================================================================== *)
(** * Part II: properties *)
(* ===================================================================== *)

(** ** The definitions on sample inputs *)

Example isNumeric_decimal : isNumeric "20.5" = true.
Proof. reflexivity. Qed.

Example isNumeric_padded_negative : isNumeric " -3 " = true.
Proof. reflexivity. Qed.

Example isNumeric_leading_point : isNumeric ".5" = true.
Proof. reflexivity. Qed.

Example isNumeric_exponent : isNumeric "1e5" = false.
Proof. reflexivity. Qed.

Example isNumeric_plus_sign : isNumeric "+5" = false.
Proof. reflexivity. Qed.

Example isNumeric_trailing_point : isNumeric "5." = false.
Proof. reflexivity. Qed.

Example isNumeric_thousands : isNumeric "1,000" = false.
Proof. reflexivity. Qed.

(** Three lines, one of them blank, quotes around and inside cells. *)
Example parseCsv_sample :
  parseCsv ("a, " +:+ String dquote "b" +:+ String dquote " ,c" +:+ String "010" "1,2,3"
            +:+ String "010" (String "010" " x") +:+ String dquote "y ,,")
  = (["a"; "b"; "c"], [["1"; "2"; "3"]; ["xy"; ""; ""]]).
Proof. reflexivity. Qed.

Example profileCsv_sample :
  profileCsv ("id,price" +:+ String "010" "1,10" +:+ String "010" "2,abc"
              +:+ String "010" "3,")
  = inr {| fp_rowCount := 3; fp_columnCount := 2;
           fp_columns :=
             [ {| name := "id"; dataType := DT_number; missingValues := 0;
                  uniqueValues := 3; nonNumericCount := None |};
               {| name := "price"; dataType := DT_mixed; missingValues := 1;
                  uniqueValues := 2; nonNumericCount := Some 1%Z |} ] |}.
Proof. reflexivity. Qed.

(** The estimate on doubles: a product just below a half, a product that is
    exactly a half, and a row count of 0. *)
Example estimate_below_half : estimatedRemovals 49 1 98 = RoundInt 0.
Proof. vm_compute. reflexivity. Qed.

Example estimate_half : estimatedRemovals 5 1 10 = RoundInt 1.
Proof. vm_compute. reflexivity. Qed.

Example estimate_no_rows_no_missing : estimatedRemovals 0 5 0 = RoundNaN.
Proof. vm_compute. reflexivity. Qed.

Example estimate_no_rows : estimatedRemovals 3 5 0 = RoundPosInf.
Proof. vm_compute. reflexivity. Qed.

Example applyToFile_sample :
  applyToFile (twoColumns 100 10 20) [dropRowsOnA] = Some (twoColumns 90 0 18).
Proof. vm_compute. reflexivity. Qed.

(** ** Regular expressions: the derivative test decides the language *)

Section RegexFacts.

Lemma append_nil_l (s : string) : "" +:+ s = s.
Proof. reflexivity. Qed.

Lemma append_cons c (s1 s2 : string) : String c s1 +:+ s2 = String c (s1 +:+ s2).
Proof. reflexivity. Qed.

Lemma append_nil_r (s : string) : s +:+ "" = s.
Proof. induction s as [|c s IH]; [reflexivity | now rewrite append_cons, IH]. Qed.

Lemma append_assoc (s1 s2 s3 : string) : (s1 +:+ s2) +:+ s3 = s1 +:+ (s2 +:+ s3).
Proof.
  induction s1 as [|c s1 IH]; [reflexivity | now rewrite !append_cons, IH].
Qed.

Lemma append_nil_inv (s1 s2 : string) : s1 +:+ s2 = "" -> s1 = "" /\ s2 = "".
Proof. destruct s1; [auto | rewrite append_cons; discriminate]. Qed.

Lemma append_cons_inv (s1 s2 : string) c s :
  s1 +:+ s2 = String c s ->
  (s1 = "" /\ s2 = String c s) \/ (exists s1', s1 = String c s1' /\ s = s1' +:+ s2).
Proof.
  destruct s1 as [|d s1]; intros E.
  - left; auto.
  - right. rewrite append_cons in E. injection E as -> <-. eauto.
Qed.

Lemma Matches_nil_nullable r s : Matches r s -> s = "" -> nullable r = true.
Proof.
  induction 1 as [ | | | r1 r2 s1 s2 _ IH1 _ IH2 | r1 r2 s _ IH | r1 r2 s _ IH
                 | | r s1 s2 _ _ _ _ ]; intros E; simpl; try discriminate; auto.
  - apply append_nil_inv in E as [-> ->]. rewrite IH1, IH2; auto.
  - rewrite IH; auto.
  - rewrite IH; auto using orb_true_r.
Qed.

Lemma nullable_Matches_nil r : nullable r = true -> Matches r "".
Proof.
  induction r as [ | | c | | r1 IH1 r2 IH2 | r1 IH1 r2 IH2 | r IH ];
    simpl; intros E; try discriminate.
  - constructor.
  - apply andb_true_iff in E as [E1 E2].
    change "" with ("" +:+ ""). constructor; auto.
  - apply orb_true_iff in E as [E|E]; [apply MAltL | apply MAltR]; auto.
  - constructor.
Qed.

Lemma deriv_sound c r : forall s, Matches (deriv c r) s -> Matches r (String c s).
Proof.
  induction r as [ | | d | | r1 IH1 r2 IH2 | r1 IH1 r2 IH2 | r IH ];
    simpl; intros s M.
  - inversion M.
  - inversion M.
  - destruct (Ascii.eqb_spec c d) as [->|]; inversion M; subst. constructor.
  - destruct (isDigit c) eqn:D; inversion M; subst. now constructor.
  - assert (Hseq : forall s, Matches (ReSeq (deriv c r1) r2) s ->
                             Matches (ReSeq r1 r2) (String c s)).
    { intros s0 M0. inversion M0 as [ | | | ? ? s1 s2 M1 M2 | | | | ]; subst.
      change (String c (s1 +:+ s2)) with (String c s1 +:+ s2).
      constructor; auto. }
    destruct (nullable r1) eqn:N1; [|auto].
    inversion M as [ | | | | ? ? ? ML | ? ? ? MR | | ]; subst; [auto|].
    change (String c s) with ("" +:+ String c s).
    constructor; [now apply nullable_Matches_nil | auto].
  - inversion M; subst; [apply MAltL | apply MAltR]; auto.
  - inversion M as [ | | | ? ? s1 s2 M1 M2 | | | | ]; subst.
    change (String c (s1 +:+ s2)) with (String c s1 +:+ s2).
    constructor; auto.
Qed.

Lemma deriv_complete r s' :
  Matches r s' -> forall c s, s' = String c s -> Matches (deriv c r) s.
Proof.
  induction 1 as [ | d | d Hd | r1 r2 s1 s2 M1 IH1 M2 IH2 | r1 r2 s0 _ IH
                 | r1 r2 s0 _ IH | | r s1 s2 M1 IH1 M2 IH2 ];
    intros c s E; simpl.
  - discriminate.
  - injection E as -> <-. rewrite Ascii.eqb_refl. constructor.
  - injection E as -> <-. rewrite Hd. constructor.
  - apply append_cons_inv in E as [[-> ->] | (s1' & -> & ->)].
    + rewrite (Matches_nil_nullable _ _ M1 eq_refl). apply MAltR. eauto.
    + destruct (nullable r1); [apply MAltL|]; constructor; eauto.
  - apply MAltL; eauto.
  - apply MAltR; eauto.
  - discriminate.
  - apply append_cons_inv in E as [[-> ->] | (s1' & -> & ->)].
    + apply (IH2 c s eq_refl).
    + constructor; eauto.
Qed.

Lemma regexTest_Matches s : forall r, regexTest r s = true <-> Matches r s.
Proof.
  induction s as [|c s IH]; intros r; simpl.
  - split; [apply nullable_Matches_nil | intros M; eapply Matches_nil_nullable; eauto].
  - rewrite IH. split; [apply deriv_sound | intros M; eapply deriv_complete; eauto].
Qed.

Lemma Matches_seq_inv r1 r2 s :
  Matches (ReSeq r1 r2) s <->
  exists s1 s2, s = s1 +:+ s2 /\ Matches r1 s1 /\ Matches r2 s2.
Proof.
  split.
  - intros M. inversion M; subst; eauto.
  - intros (s1 & s2 & -> & M1 & M2). now constructor.
Qed.

Lemma Matches_opt_char_inv c s :
  Matches (ReOpt (ReChar c)) s <-> exists b, s = optChar b c.
Proof.
  unfold ReOpt. split.
  - intros M. inversion M as [ | | | | ? ? ? ML | ? ? ? MR | | ]; subst.
    + inversion ML; subst. now exists true.
    + inversion MR; subst. now exists false.
  - intros [[|] ->]; simpl; [apply MAltL | apply MAltR]; constructor.
Qed.

Lemma stringAll_app p (s1 s2 : string) :
  stringAll p (s1 +:+ s2) = stringAll p s1 && stringAll p s2.
Proof.
  induction s1 as [|c s1 IH]; [reflexivity|].
  rewrite append_cons. simpl. now rewrite IH, andb_assoc.
Qed.

Lemma Matches_digits_inv s :
  Matches (ReStar ReDigit) s <-> stringAll isDigit s = true.
Proof.
  split.
  - intros M. remember (ReStar ReDigit) as r eqn:Er.
    induction M as [ | | | | | | | r s1 s2 M1 _ M2 IH2 ]; try discriminate.
    + reflexivity.
    + injection Er as ->. inversion M1 as [ | | c Hc | | | | | ]; subst.
      rewrite append_cons, append_nil_l. simpl. rewrite Hc. now apply IH2.
  - induction s as [|c s IH]; simpl; intros E.
    + constructor.
    + apply andb_true_iff in E as [Ec Es].
      change (String c s) with (String c "" +:+ s).
      constructor; [now constructor | auto].
Qed.

Lemma Matches_digits1_inv s :
  Matches (RePlus ReDigit) s <-> stringAll isDigit s = true /\ s <> "".
Proof.
  unfold RePlus. rewrite Matches_seq_inv. split.
  - intros (s1 & s2 & -> & M1 & M2). apply Matches_digits_inv in M2.
    inversion M1 as [ | | c Hc | | | | | ]; subst.
    rewrite append_cons, append_nil_l. simpl. rewrite Hc, M2.
    split; [reflexivity | discriminate].
  - intros [E N]. destruct s as [|c s]; [congruence|]. simpl in E.
    apply andb_true_iff in E as [Ec Es].
    exists (String c ""), s. repeat split; [now constructor | now apply Matches_digits_inv].
Qed.

(** The pattern of [isNumeric] describes exactly the numeric syntax. *)
Lemma numericPattern_spec s : Matches numericPattern s <-> NumericSyntax s.
Proof.
  unfold numericPattern, NumericSyntax. rewrite Matches_seq_inv. split.
  - intros (s1 & s' & -> & M1 & M).
    apply Matches_seq_inv in M as (s2 & s'' & -> & M2 & M).
    apply Matches_seq_inv in M as (s3 & s4 & -> & M3 & M4).
    apply Matches_opt_char_inv in M1 as [neg ->].
    apply Matches_opt_char_inv in M3 as [point ->].
    apply Matches_digits_inv in M2. apply Matches_digits1_inv in M4 as [M4 N4].
    exists neg, s2, point, s4. auto.
  - intros (neg & whole & point & frac & -> & Hw & Hf & Nf).
    exists (optChar neg "-"), (whole +:+ (optChar point "." +:+ frac)).
    split; [reflexivity|]. split; [apply Matches_opt_char_inv; eauto|].
    apply Matches_seq_inv. exists whole, (optChar point "." +:+ frac).
    split; [reflexivity|]. split; [now apply Matches_digits_inv|].
    apply Matches_seq_inv. exists (optChar point "."), frac.
    split; [reflexivity|]. split; [apply Matches_opt_char_inv; eauto|].
    now apply Matches_digits1_inv.
Qed.

Lemma isEmptyString_true s : isEmptyString s = true <-> s = "".
Proof. destruct s; simpl; split; congruence. Qed.

Lemma NumericSyntax_nonempty s : NumericSyntax s -> s <> "".
Proof.
  intros (neg & whole & point & frac & -> & _ & _ & Nf) E.
  apply append_nil_inv in E as [_ E]. apply append_nil_inv in E as [_ E].
  apply append_nil_inv in E as [_ E]. contradiction.
Qed.

(** [isNumeric] accepts a string exactly when its trimmed form has the
    numeric syntax. *)
Lemma isNumeric_spec str : isNumeric str = true <-> NumericSyntax (trim str).
Proof.
  unfold isNumeric. destruct (isEmptyString (trim str)) eqn:E.
  - apply isEmptyString_true in E. split; [discriminate|].
    intros N. apply NumericSyntax_nonempty in N. contradiction.
  - rewrite regexTest_Matches. apply numericPattern_spec.
Qed.

Lemma stringAll_weaken (p q : ascii -> bool) s :
  (forall c, p c = true -> q c = true) -> stringAll p s = true -> stringAll q s = true.
Proof.
  intros Hpq. induction s as [|c s IH]; simpl; [auto|].
  rewrite !andb_true_iff. intros [Hc Hs]. auto.
Qed.

Lemma optChar_numeric b c :
  isNumericChar c = true -> stringAll isNumericChar (optChar b c) = true.
Proof. intros Hc. destruct b; simpl; [now rewrite Hc | reflexivity]. Qed.

(** A numeric value holds digits, minus signs and points only: no exponent
    letter, no separator, no plus sign. *)
Lemma NumericSyntax_chars s : NumericSyntax s -> stringAll isNumericChar s = true.
Proof.
  intros (neg & whole & point & frac & -> & Hw & Hf & _).
  assert (Hd : forall c, isDigit c = true -> isNumericChar c = true).
  { intros c Hc. unfold isNumericChar. now rewrite Hc. }
  rewrite !stringAll_app, !optChar_numeric by reflexivity.
  rewrite (stringAll_weaken _ _ _ Hd Hw), (stringAll_weaken _ _ _ Hd Hf). reflexivity.
Qed.

Lemma NumericSyntax_head s c s' :
  NumericSyntax s -> s = String c s' -> c = "-"%char \/ c = "."%char \/ isDigit c = true.
Proof.
  intros (neg & whole & point & frac & -> & Hw & Hf & Nf) E.
  destruct neg; [injection E as <- _; auto|].
  rewrite append_nil_l in E.
  destruct whole as [|d whole].
  - rewrite append_nil_l in E. destruct point; [injection E as <- _; auto|].
    rewrite append_nil_l in E. subst frac. simpl in Hf.
    apply andb_true_iff in Hf as [Hf _]. auto.
  - rewrite append_cons in E. injection E as <- _. simpl in Hw.
    apply andb_true_iff in Hw as [Hw _]. auto.
Qed.

End RegexFacts.

(** ** The column profiler *)

Section ProfilerFacts.
Context `{NumberCells}.

Lemma filter_partition_length {A} (p : A -> bool) (l : list A) :
  (length (List.filter p l) + length (List.filter (fun x => negb (p x)) l))%nat = length l.
Proof.
  induction l as [|x l IH]; simpl; [reflexivity|].
  destruct (p x); simpl; lia.
Qed.

Lemma filter_all {A} (p : A -> bool) (l : list A) :
  Forall (fun x => p x = true) l -> List.filter p l = l.
Proof. induction 1 as [|x l Hx _ IH]; simpl; [reflexivity | now rewrite Hx, IH]. Qed.

Lemma filter_none {A} (p : A -> bool) (l : list A) :
  Forall (fun x => p x = false) l -> List.filter p l = [].
Proof. induction 1 as [|x l Hx _ IH]; simpl; [reflexivity | now rewrite Hx]. Qed.

Lemma filter_some {A} (p : A -> bool) (l : list A) :
  Exists (fun x => p x = true) l -> (0 < length (List.filter p l))%nat.
Proof.
  induction 1 as [x l Hx | x l _ IH]; simpl.
  - rewrite Hx. simpl. lia.
  - destruct (p x); simpl; lia.
Qed.

Lemma length_normalizeRows header (rawRows : list (list RawCell)) :
  length (normalizeRows header rawRows) = length rawRows.
Proof. unfold normalizeRows. apply length_map. Qed.

(** After normalisation every row has one text cell per header entry. *)
Lemma normalizeRows_row header (rawRows : list (list RawCell)) row :
  In row (normalizeRows header rawRows) -> length row = length header.
Proof.
  unfold normalizeRows. rewrite in_map_iff. intros (raw & <- & _).
  apply length_imap.
Qed.

Lemma columnValues_normalizeRows header (rawRows : list (list RawCell)) i :
  (i < length header)%nat ->
  columnValues (normalizeRows header rawRows) i
  = map (fun raw => Some (cellToString (raw !! i))) rawRows.
Proof.
  intros Hi. unfold columnValues, normalizeRows. rewrite map_map.
  apply map_ext. intros raw. rewrite list_lookup_imap.
  destruct (lookup_lt_is_Some_2 header i Hi) as [h ->]. reflexivity.
Qed.

Lemma basicProfile_column header rows i col :
  fp_columns (basicProfile header rows) !! i = Some col ->
  exists colName, header !! i = Some colName /\ col = profileColumn rows i colName.
Proof.
  simpl. rewrite list_lookup_imap. destruct (header !! i) as [colName|]; simpl; [|discriminate].
  intros [= <-]. eauto.
Qed.

Lemma profileColumn_missing rows i colName :
  missingValues (profileColumn rows i colName)
  = Z.of_nat (length (List.filter isMissing (columnValues rows i))).
Proof. unfold profileColumn. destruct (inferType _). reflexivity. Qed.

Lemma profileColumn_dataType rows i colName :
  dataType (profileColumn rows i colName) = (inferType (columnValues rows i)).1.
Proof. unfold profileColumn. destruct (inferType _). reflexivity. Qed.

Lemma profileColumn_nonNumericCount rows i colName :
  nonNumericCount (profileColumn rows i colName)
  = match (inferType (columnValues rows i)).1 with
    | DT_mixed => Some (inferType (columnValues rows i)).2
    | _ => None
    end.
Proof. unfold profileColumn. destruct (inferType _). reflexivity. Qed.

Lemma inferType_unknown vals : nonNullValues vals = [] -> inferType vals = (DT_unknown, 0%Z).
Proof. unfold inferType. intros ->. reflexivity. Qed.

Lemma inferType_number vals :
  nonNullValues vals <> [] ->
  Forall (fun v => isNumericValue v = true) (nonNullValues vals) ->
  inferType vals = (DT_number, 0%Z).
Proof.
  unfold inferType. intros Hne Hall.
  rewrite (filter_all _ _ Hall).
  rewrite (filter_none (fun v => negb (isNumericValue v))).
  2:{ eapply Forall_impl; [exact Hall|]. intros v Hv. simpl in Hv. now rewrite Hv. }
  destruct (nonNullValues vals); [congruence | reflexivity].
Qed.

Lemma inferType_string vals :
  nonNullValues vals <> [] ->
  Forall (fun v => isNumericValue v = false) (nonNullValues vals) ->
  inferType vals = (DT_string, 0%Z).
Proof.
  unfold inferType. intros Hne Hall.
  rewrite (filter_none _ _ Hall).
  destruct (nonNullValues vals); [congruence | reflexivity].
Qed.

Lemma inferType_mixed vals :
  Exists (fun v => isNumericValue v = true) (nonNullValues vals) ->
  Exists (fun v => isNumericValue v = false) (nonNullValues vals) ->
  inferType vals
  = (DT_mixed,
     Z.of_nat (length (List.filter (fun v => negb (isNumericValue v)) (nonNullValues vals)))).
Proof.
  unfold inferType. intros Hnum Htxt.
  assert (Hn := filter_some _ _ Hnum).
  assert (Ht : (0 < length (List.filter (fun v => negb (isNumericValue v))
                              (nonNullValues vals)))%nat).
  { apply filter_some. eapply Exists_impl; [exact Htxt|].
    intros v Hv. simpl in Hv. now rewrite Hv. }
  assert (Hl : (0 < length (nonNullValues vals))%nat).
  { rewrite <- (filter_partition_length isNumericValue). lia. }
  apply Nat.ltb_lt in Hn, Ht, Hl. rewrite Hl, Hn, Ht. reflexivity.
Qed.

(** The profiler infers one of four types: never [DT_boolean]. *)
Lemma inferType_range vals :
  (inferType vals).1 = DT_unknown \/ (inferType vals).1 = DT_number \/
  (inferType vals).1 = DT_string \/ (inferType vals).1 = DT_mixed.
Proof.
  unfold inferType.
  repeat match goal with |- context [if ?b then _ else _] => destruct b end; simpl; auto.
Qed.

End ProfilerFacts.

Lemma inferType_text_values vals :
  vals <> [] ->
  Forall (fun v => isMissing v = false /\ isNumericValue v = false) vals ->
  inferType vals = (DT_string, 0%Z).
Proof.
  intros Hne Hall.
  assert (Hnn : nonNullValues vals = vals).
  { unfold nonNullValues. apply filter_all.
    eapply Forall_impl; [exact Hall|]. intros v [Hv _]. simpl. now rewrite Hv. }
  apply inferType_string; rewrite Hnn; [exact Hne|].
  eapply Forall_impl; [exact Hall|]. now intros v [_ Hv].
Qed.

(** ** The profiler *)

(** C3. Count invariant: for a grid that the profiler accepts, the row
    count of the file profile is the number of parsed data rows, the values
    of column [i] are the cells of that column turned into text, a value
    being missing when its text is empty once trimmed (which covers null and
    undefined cells), and [missingValues] plus the number of non-missing
    values is the row count. *)
Theorem profiler_count_invariant `{NumberCells}
    (header : list string) (rawRows : list (list RawCell))
    (p : FileProfile) (i : nat) (col : ColumnProfile) :
  profileGrid header rawRows = inr p ->
  fp_columns p !! i = Some col ->
  let vals := map (fun raw => Some (cellToString (raw !! i))) rawRows in
  fp_rowCount p = Z.of_nat (length rawRows)
  /\ columnValues (normalizeRows header rawRows) i = vals
  /\ (forall cell, isMissing (Some (cellToString cell)) = true
                   <-> trim (cellToString cell) = "")
  /\ (forall cell, cell = None \/ cell = Some CellNull ->
                   isMissing (Some (cellToString cell)) = true)
  /\ missingValues col = Z.of_nat (length (List.filter isMissing vals))
  /\ (missingValues col
      + Z.of_nat (length (List.filter (fun v => negb (isMissing v)) vals))
      = fp_rowCount p)%Z.
Proof.
  intros Hp Hcol vals. unfold profileGrid in Hp.
  destruct ((length header =? 0)%nat && (length rawRows =? 0)%nat); [discriminate|].
  injection Hp as <-.
  apply basicProfile_column in Hcol as (colName & Hh & ->).
  assert (Hi : (i < length header)%nat) by (eapply lookup_lt_Some; eauto).
  assert (Hvals : columnValues (normalizeRows header rawRows) i = vals)
    by now apply columnValues_normalizeRows.
  split; [simpl; now rewrite length_normalizeRows|].
  split; [exact Hvals|].
  split; [intros cell; simpl; apply isEmptyString_true|].
  split; [intros cell [->| ->]; reflexivity|].
  rewrite profileColumn_missing, Hvals.
  split; [reflexivity|].
  simpl. rewrite length_normalizeRows.
  rewrite <- Nat2Z.inj_add, filter_partition_length.
  unfold vals. now rewrite length_map.
Qed.

Lemma profiler_count_invariant_witness :
  let header := ["id"; "city"] in
  let rawRows := [[CellString "1"; CellString "Oslo"]; [CellString "2"; CellString "  "];
                  [CellString "3"]] in
  let vals := map (fun raw => Some (cellToString (H := csvCells) (raw !! 1%nat))) rawRows in
  (2 + Z.of_nat (length (List.filter (fun v => negb (isMissing v)) vals)) = 3)%Z.
Proof.
  intros header rawRows vals.
  refine (proj2 (proj2 (proj2 (proj2 (proj2
    (profiler_count_invariant (H := csvCells) header rawRows
       (basicProfile header (normalizeRows header rawRows)) 1
       (profileColumn (normalizeRows header rawRows) 1 "city") _ _)))))).
  - reflexivity.
  - reflexivity.
Defined.

(** C4. Type inference is a case analysis over the non-missing values of
    the column: none gives [unknown]; all numeric gives [number]; all
    non-numeric gives [string]; both kinds give [mixed] with
    [nonNumericCount] the number of non-numeric non-missing values, and
    [nonNumericCount] is present in the [mixed] case only.  A value is
    numeric when its trimmed text is an optional minus sign, digits, an
    optional point and at least one digit, so that it holds only digits,
    minus signs and points (no exponent, no separator, no plus sign) and
    starts with a minus sign, a point or a digit.  The two sample columns of
    the specification come out as stated. *)
Theorem profiler_type_inference (rows : list (list string)) (colIndex : nat)
    (colName : string) :
  let col := profileColumn rows colIndex colName in
  let present := nonNullValues (columnValues rows colIndex) in
  let numeric := fun v : option string => isNumericValue v = true in
  let text := fun v : option string => isNumericValue v = false in
  (present = [] -> dataType col = DT_unknown)
  /\ (present <> [] -> Forall numeric present -> dataType col = DT_number)
  /\ (present <> [] -> Forall text present -> dataType col = DT_string)
  /\ (Exists numeric present -> Exists text present ->
      dataType col = DT_mixed
      /\ nonNumericCount col
         = Some (Z.of_nat (length (List.filter (fun v => negb (isNumericValue v)) present))))
  /\ (nonNumericCount col <> None <-> dataType col = DT_mixed)
  /\ (forall s, isNumericValue (Some s) = true <-> NumericSyntax (trim s))
  /\ (forall s, isNumericValue (Some s) = true ->
        stringAll isNumericChar (trim s) = true
        /\ stringMem "e" (trim s) = false /\ stringMem "E" (trim s) = false
        /\ stringMem "," (trim s) = false /\ stringMem "+" (trim s) = false)
  /\ profileColumn [["10"]; ["20.5"]; ["-3"]] 0 colName
     = {| name := colName; dataType := DT_number; missingValues := 0;
          uniqueValues := 3; nonNumericCount := None |}
  /\ profileColumn [["10"]; ["abc"]; [""]] 0 colName
     = {| name := colName; dataType := DT_mixed; missingValues := 1;
          uniqueValues := 2; nonNumericCount := Some 1%Z |}.
Proof.
  intros col present numeric text.
  assert (Hmem : forall c s, stringAll isNumericChar s = true ->
                             isNumericChar c = false -> stringMem c s = false).
  { intros c s. induction s as [|d s IH]; simpl; [reflexivity|].
    rewrite andb_true_iff. intros [Hd Hs] Hc. rewrite (IH Hs Hc), orb_false_r.
    destruct (Ascii.eqb_spec d c) as [->|]; congruence. }
  unfold col. rewrite profileColumn_dataType, profileColumn_nonNumericCount.
  repeat split.
  - intros E. now rewrite inferType_unknown.
  - intros Hne Hall. now rewrite inferType_number.
  - intros Hne Hall. now rewrite inferType_string.
  - now rewrite inferType_mixed.
  - now rewrite inferType_mixed.
  - destruct (inferType _).1; congruence.
  - intros ->. discriminate.
  - apply isNumeric_spec.
  - apply isNumeric_spec.
  - apply NumericSyntax_chars, isNumeric_spec. assumption.
  - apply Hmem; [apply NumericSyntax_chars, isNumeric_spec; assumption | reflexivity].
  - apply Hmem; [apply NumericSyntax_chars, isNumeric_spec; assumption | reflexivity].
  - apply Hmem; [apply NumericSyntax_chars, isNumeric_spec; assumption | reflexivity].
  - apply Hmem; [apply NumericSyntax_chars, isNumeric_spec; assumption | reflexivity].
Qed.

(** C10. The profiler never infers [boolean]: the inferred type is one of
    [unknown], [number], [string] and [mixed]; the texts [true] and [false]
    are not numeric, and a column of boolean cells, or of these two texts,
    is given the type [string]. *)
Theorem profiler_never_boolean `{NumberCells} :
  (forall rows colIndex colName,
      let t := dataType (profileColumn rows colIndex colName) in
      t <> DT_boolean
      /\ (t = DT_unknown \/ t = DT_number \/ t = DT_string \/ t = DT_mixed))
  /\ isNumeric "true" = false /\ isNumeric "false" = false
  /\ (forall vals, vals <> [] ->
        Forall (fun v => v = Some "true" \/ v = Some "false") vals ->
        (inferType vals).1 = DT_string)
  /\ (forall header (rawRows : list (list RawCell)) i colName,
        header !! i = Some colName -> rawRows <> [] ->
        Forall (fun raw => exists b, raw !! i = Some (CellBoolean b)) rawRows ->
        exists p col, profileGrid header rawRows = inr p
                      /\ fp_columns p !! i = Some col
                      /\ dataType col = DT_string).
Proof.
  assert (Htf : forall vals, vals <> [] ->
            Forall (fun v => v = Some "true" \/ v = Some "false") vals ->
            inferType vals = (DT_string, 0%Z)).
  { intros vals Hne Hall. apply inferType_text_values; [exact Hne|].
    eapply Forall_impl; [exact Hall|]. intros v [-> | ->]; split; reflexivity. }
  split; [|split; [reflexivity|split; [reflexivity|split]]].
  - intros rows colIndex colName t. unfold t. rewrite profileColumn_dataType.
    destruct (inferType_range (columnValues rows colIndex)) as [E|[E|[E|E]]];
      rewrite E; split; auto; discriminate.
  - intros vals Hne Hall. now rewrite Htf.
  - intros header rawRows i colName Hh Hne Hall.
    assert (Hi : (i < length header)%nat) by (eapply lookup_lt_Some; eauto).
    exists (basicProfile header (normalizeRows header rawRows)),
           (profileColumn (normalizeRows header rawRows) i colName).
    split; [|split].
    + unfold profileGrid. destruct rawRows; [congruence|].
      simpl. now rewrite andb_false_r.
    + simpl. rewrite list_lookup_imap, Hh. reflexivity.
    + rewrite profileColumn_dataType, columnValues_normalizeRows by exact Hi.
      rewrite Htf; [reflexivity | |].
      * destruct rawRows; [congruence | discriminate].
      * apply Forall_map. eapply Forall_impl; [exact Hall|].
        intros raw [b ->]. destruct b; simpl; auto.
Qed.

(** ** The CSV parser *)

Section CsvFacts.

Lemma split_nonempty sep s : split sep s <> [].
Proof.
  destruct s as [|c s]; simpl; [discriminate|].
  destruct (Ascii.eqb c sep); [discriminate|].
  destruct (split sep s); discriminate.
Qed.

(** Joining the pieces with the separator gives the text back... *)
Lemma split_join sep s : joinWith sep (split sep s) = s.
Proof.
  induction s as [|c s IH]; simpl; [reflexivity|].
  destruct (Ascii.eqb_spec c sep) as [->|Hc].
  - pose proof (split_nonempty sep s) as Hne.
    destruct (split sep s) as [|piece rest] eqn:E; [congruence|].
    change (joinWith sep ("" :: piece :: rest))
      with ("" +:+ String sep (joinWith sep (piece :: rest))).
    now rewrite IH.
  - pose proof (split_nonempty sep s) as Hne.
    destruct (split sep s) as [|piece rest] eqn:E; [congruence|].
    destruct rest as [|piece' rest].
    + simpl in *. now rewrite IH.
    + change (joinWith sep (String c piece :: piece' :: rest))
        with (String c piece +:+ String sep (joinWith sep (piece' :: rest))).
      change (joinWith sep (piece :: piece' :: rest))
        with (piece +:+ String sep (joinWith sep (piece' :: rest))) in IH.
      now rewrite append_cons, IH.
Qed.

(** ... and no piece holds the separator. *)
Lemma split_pieces sep s : Forall (fun piece => stringMem sep piece = false) (split sep s).
Proof.
  induction s as [|c s IH]; simpl.
  - constructor; [reflexivity | constructor].
  - destruct (Ascii.eqb c sep) eqn:Ec.
    + constructor; [reflexivity | exact IH].
    + destruct (split sep s) as [|piece rest]; [repeat constructor; simpl; now rewrite Ec|].
      inversion IH as [|? ? Hp Hr]; subst.
      constructor; [simpl; now rewrite Ec, Hp | exact Hr].
Qed.

Lemma trimStart_decomp s :
  exists ws, s = ws +:+ trimStart s /\ stringAll isWhitespace ws = true.
Proof.
  induction s as [|c s (ws & E & Hws)]; simpl.
  - now exists "".
  - destruct (isWhitespace c) eqn:Hc.
    + exists (String c ws). rewrite append_cons, <- E. simpl. now rewrite Hc, Hws.
    + now exists "".
Qed.

Lemma trimStart_head s : notWhitespace (stringHead (trimStart s)).
Proof.
  induction s as [|c s IH]; simpl; [discriminate|].
  destruct (isWhitespace c) eqn:Hc; [exact IH|].
  intros d [= <-]. exact Hc.
Qed.

Lemma trimEnd_decomp s :
  exists ws, s = trimEnd s +:+ ws /\ stringAll isWhitespace ws = true.
Proof.
  induction s as [|c s (ws & E & Hws)]; simpl.
  - now exists "".
  - destruct (isWhitespace c && isEmptyString (trimEnd s)) eqn:Hc.
    + apply andb_true_iff in Hc as [Hc He]. apply isEmptyString_true in He.
      rewrite He, append_nil_l in E. subst ws.
      exists (String c s). simpl. now rewrite Hc, Hws.
    + exists ws. now rewrite append_cons, <- E.
Qed.

Lemma trimEnd_last s : notWhitespace (stringLast (trimEnd s)).
Proof.
  induction s as [|c s IH]; simpl; [discriminate|].
  destruct (isWhitespace c && isEmptyString (trimEnd s)) eqn:Hc; [discriminate|].
  destruct (trimEnd s) as [|d t] eqn:Et.
  - simpl in Hc. rewrite andb_true_r in Hc. intros d [= <-]. exact Hc.
  - exact IH.
Qed.

Lemma trimEnd_head s : notWhitespace (stringHead s) -> notWhitespace (stringHead (trimEnd s)).
Proof.
  destruct s as [|c s]; simpl; [auto|].
  intros Hc. rewrite (Hc c eq_refl). exact Hc.
Qed.

(** [trim] removes a run of white space at each end, and nothing else. *)
Lemma trim_spec s :
  exists ws1 ws2,
    s = ws1 +:+ (trim s +:+ ws2)
    /\ stringAll isWhitespace ws1 = true /\ stringAll isWhitespace ws2 = true
    /\ notWhitespace (stringHead (trim s)) /\ notWhitespace (stringLast (trim s)).
Proof.
  unfold trim.
  destruct (trimStart_decomp s) as (ws1 & E1 & H1).
  destruct (trimEnd_decomp (trimStart s)) as (ws2 & E2 & H2).
  exists ws1, ws2. rewrite <- E2, <- E1.
  repeat split; auto using trimEnd_head, trimStart_head, trimEnd_last.
Qed.

Lemma removeAll_absent c s : stringMem c (removeAll c s) = false.
Proof.
  induction s as [|d s IH]; simpl; [reflexivity|].
  destruct (Ascii.eqb d c) eqn:E; [exact IH|]. simpl. now rewrite E.
Qed.

Lemma removeAll_id c s : stringMem c s = false -> removeAll c s = s.
Proof.
  induction s as [|d s IH]; simpl; [reflexivity|].
  destruct (Ascii.eqb d c); simpl; [discriminate|]. intros Hs. now rewrite IH.
Qed.

Lemma removeAll_app c s1 s2 : removeAll c (s1 +:+ s2) = removeAll c s1 +:+ removeAll c s2.
Proof.
  induction s1 as [|d s1 IH]; [reflexivity|].
  rewrite append_cons. simpl. destruct (Ascii.eqb d c); [exact IH|].
  now rewrite append_cons, IH.
Qed.

Lemma trimEnd_quoted (s : string) : trimEnd (s +:+ String dquote "") = s +:+ String dquote "".
Proof.
  induction s as [|c s IH]; [reflexivity|].
  rewrite append_cons. simpl. rewrite IH.
  destruct s; simpl; now rewrite andb_false_r.
Qed.

(** Quotes around a cell are stripped. *)
Lemma cleanCell_quoted body :
  stringMem dquote body = false ->
  cleanCell (String dquote (body +:+ String dquote "")) = body.
Proof.
  intros Hb. unfold cleanCell, trim.
  change (trimStart (String dquote (body +:+ String dquote "")))
    with (String dquote (body +:+ String dquote "")).
  change (String dquote (body +:+ String dquote ""))
    with (String dquote body +:+ String dquote "").
  rewrite trimEnd_quoted, removeAll_app. simpl.
  now rewrite removeAll_id, append_nil_r.
Qed.

End CsvFacts.

(** C5, counterexample.  The cell [a], double quote, [b] keeps its quote
    under the transformation described by the specification, and loses it in
    the parser. *)
Lemma csv_interior_quote_counterexample :
  let cell := "a" +:+ String dquote "b" in
  let content := "h" +:+ String "010" cell in
  cleanCellSpec cell = cell
  /\ parseCsv content = (["h"], [["ab"]])
  /\ parseCsv content <> (["h"], [[cleanCellSpec cell]]).
Proof. repeat split. discriminate. Qed.

(** C5, as amended.  The parser splits the text on line feeds, drops the
    lines that are blank once trimmed, reads the first remaining line as the
    header and the others as rows (both empty when no line remains), splits
    each line on commas, trims each cell and removes every double quote from
    it: quotes around a cell are stripped, and so are quotes inside it. *)
Theorem parseCsv_cells (content : string) :
  let pieces := split "010" content in
  let lines := List.filter (fun line => negb (isEmptyString (trim line))) pieces in
  let cells := fun line => map cleanCell (split "," line) in
  joinWith "010" pieces = content
  /\ Forall (fun piece => stringMem "010" piece = false) pieces
  /\ parseCsv content = (match lines with [] => [] | line0 :: _ => cells line0 end,
                         map cells (tail lines))
  /\ (forall line, joinWith "," (split "," line) = line
                   /\ Forall (fun piece => stringMem "," piece = false) (split "," line))
  /\ (forall cell, cleanCell cell = removeAll dquote (trim cell))
  /\ (forall cell, exists ws1 ws2,
         cell = ws1 +:+ (trim cell +:+ ws2)
         /\ stringAll isWhitespace ws1 = true /\ stringAll isWhitespace ws2 = true
         /\ notWhitespace (stringHead (trim cell))
         /\ notWhitespace (stringLast (trim cell)))
  /\ (forall cell, stringMem dquote (cleanCell cell) = false)
  /\ (forall cell, stringMem dquote (trim cell) = false -> cleanCell cell = trim cell)
  /\ (forall body, stringMem dquote body = false ->
         cleanCell (String dquote (body +:+ String dquote "")) = body)
  /\ (forall s1 s2, cleanCell (s1 +:+ String dquote s2)
                    = removeAll dquote (trim (s1 +:+ String dquote s2))).
Proof.
  intros pieces lines cells.
  split; [apply split_join|]. split; [apply split_pieces|].
  split.
  { unfold parseCsv, csvLines, isBlankLine. fold pieces. fold lines.
    destruct lines; reflexivity. }
  split; [intros line; split; [apply split_join | apply split_pieces]|].
  split; [reflexivity|]. split; [apply trim_spec|].
  split; [intros cell; apply removeAll_absent|].
  split; [intros cell Hc; now apply removeAll_id|].
  split; [apply cleanCell_quoted | reflexivity].
Qed.

(** ** The issue detector *)

Section IssueFacts.
Variables (fileName : string) (rows : Z).

Lemma positive_truthy n : truthyCount n && positiveCount n = positiveCount n.
Proof.
  destruct n as [k|]; simpl; [|reflexivity].
  destruct (Z.ltb_spec 0 k), (Z.eqb_spec k 0); simpl; auto; lia.
Qed.

Lemma columnIssues_cases col :
  columnIssues fileName rows col
  = (if hasMissing col then [missingIssue fileName rows col] else [])
    ++ (if hasMixedType col then [mixedIssue fileName rows col] else []).
Proof.
  unfold columnIssues, hasMissing, hasMixedType.
  now rewrite <- andb_assoc, positive_truthy.
Qed.

Lemma columnIssues_missing_count col :
  length (List.filter (isKind missing_values) (columnIssues fileName rows col))
  = if hasMissing col then 1%nat else 0%nat.
Proof.
  rewrite columnIssues_cases.
  destruct (hasMissing col), (hasMixedType col); reflexivity.
Qed.

Lemma columnIssues_mixed_count col :
  length (List.filter (isKind mixed_type) (columnIssues fileName rows col))
  = if hasMixedType col then 1%nat else 0%nat.
Proof.
  rewrite columnIssues_cases.
  destruct (hasMissing col), (hasMixedType col); reflexivity.
Qed.

Lemma columnIssues_content col d :
  In d (columnIssues fileName rows col) ->
  d = missingIssue fileName rows col /\ hasMissing col = true
  \/ d = mixedIssue fileName rows col /\ hasMixedType col = true.
Proof.
  rewrite columnIssues_cases.
  destruct (hasMissing col), (hasMixedType col); simpl; intuition.
Qed.

Lemma flat_map_kind_count kind (cond : ColumnProfile -> bool) cols :
  (forall col, length (List.filter (isKind kind) (columnIssues fileName rows col))
               = if cond col then 1%nat else 0%nat) ->
  length (List.filter (isKind kind) (flat_map (columnIssues fileName rows) cols))
  = length (List.filter cond cols).
Proof.
  intros Hc. induction cols as [|col cols IH]; simpl; [reflexivity|].
  rewrite List.filter_app, length_app, IH, Hc.
  destruct (cond col); reflexivity.
Qed.

End IssueFacts.

Lemma profileColumn_all_missing rows i colName :
  Forall (fun v => isMissing v = true) (columnValues rows i) ->
  let col := profileColumn rows i colName in
  dataType col = DT_unknown /\ uniqueValues col = 0%Z /\ nonNumericCount col = None.
Proof.
  intros Hall.
  assert (Hnn : nonNullValues (columnValues rows i) = []).
  { unfold nonNullValues. apply filter_none.
    eapply Forall_impl; [exact Hall|]. intros v Hv. simpl in Hv. now rewrite Hv. }
  unfold profileColumn. rewrite (inferType_unknown _ Hnn), Hnn. auto.
Qed.

(** C6. The descriptors of a file profile are those of its columns, in
    column order.  A column yields exactly one [missing_values] descriptor
    when [missingValues > 0] and none otherwise, and, independently, exactly
    one [mixed_type] descriptor when its type is [mixed] with a positive
    [nonNumericCount] and none otherwise; so the profile has as many
    descriptors of a kind as columns in that condition.  Every descriptor
    carries the file name, the column name, its kind, the count of its kind
    and the row count.  A column of type [unknown], such as the profiler's
    result for a column of missing values only, has no [mixed_type]
    descriptor.  The descriptors are a function of the profile. *)
Theorem issue_detector_descriptors (file : string) (profile : FullProfileResult) :
  let total := rowCount profile in
  let issues := issuesToFetch file profile in
  let count := fun kind col =>
    length (List.filter (isKind kind) (columnIssues file total col)) in
  issues = concat (map (columnIssues file total) (columns profile))
  /\ (forall col, count missing_values col = if (0 <? missingValues col)%Z then 1%nat else 0%nat)
  /\ (forall col, count mixed_type col
                  = if bool_decide (dataType col = DT_mixed)
                       && positiveCount (nonNumericCount col) then 1%nat else 0%nat)
  /\ length (List.filter (isKind missing_values) issues)
     = length (List.filter hasMissing (columns profile))
  /\ length (List.filter (isKind mixed_type) issues)
     = length (List.filter hasMixedType (columns profile))
  /\ (forall col d, In d (columnIssues file total col) ->
        fileName d = file /\ columnName d = name col
        /\ totalRows (details d) = total
        /\ match issueType d with
           | missing_values =>
               missingCount (details d) = Some (missingValues col)
               /\ (0 < missingValues col)%Z
           | mixed_type =>
               issue_nonNumericCount (details d) = nonNumericCount col
               /\ dataType col = DT_mixed
               /\ exists k, nonNumericCount col = Some k /\ (0 < k)%Z
           end)
  /\ (forall col, dataType col = DT_unknown -> count mixed_type col = 0%nat)
  /\ (forall rows i colName,
        Forall (fun v => isMissing v = true) (columnValues rows i) ->
        let col := profileColumn rows i colName in
        dataType col = DT_unknown /\ uniqueValues col = 0%Z
        /\ count mixed_type col = 0%nat)
  /\ (forall profile', profile' = profile -> issuesToFetch file profile' = issues).
Proof.
  intros total issues count.
  assert (Hunknown : forall col, dataType col = DT_unknown -> count mixed_type col = 0%nat).
  { intros col Hu. unfold count. rewrite columnIssues_mixed_count.
    unfold hasMixedType. now rewrite Hu. }
  split; [apply flat_map_concat_map|].
  split; [intros col; apply columnIssues_missing_count|].
  split; [intros col; apply columnIssues_mixed_count|].
  split; [apply flat_map_kind_count, columnIssues_missing_count|].
  split; [apply flat_map_kind_count, columnIssues_mixed_count|].
  split.
  { intros col d Hd.
    apply columnIssues_content in Hd as [[-> Hc] | [-> Hc]]; simpl.
    - repeat split; auto. now apply Z.ltb_lt.
    - unfold hasMixedType in Hc. apply andb_true_iff in Hc as [Ht Hn].
      apply bool_decide_eq_true in Ht.
      repeat split; auto.
      destruct (nonNumericCount col) as [k|]; [|discriminate].
      exists k. split; [reflexivity | now apply Z.ltb_lt]. }
  split; [exact Hunknown|].
  split; [|now intros profile' ->].
  intros rows i colName Hall col.
  destruct (profileColumn_all_missing rows i colName Hall) as (Ht & Hu & _).
  auto.
Qed.

(** ** Staging a selection *)

Section SelectionFacts.

Lemma getKey_setKey_eq key v prev : getKey key (setKey key v prev) = Some v.
Proof.
  unfold getKey. induction prev as [|[k w] prev IH]; simpl.
  - now rewrite bool_decide_eq_true_2.
  - destruct (bool_decide_reflect (k = key)) as [->|Hk]; simpl.
    + now rewrite bool_decide_eq_true_2.
    + now rewrite bool_decide_eq_false_2.
Qed.

Lemma getKey_setKey_ne key key' v prev :
  key' <> key -> getKey key' (setKey key v prev) = getKey key' prev.
Proof.
  intros Hne. unfold getKey. induction prev as [|[k w] prev IH]; simpl.
  - now rewrite bool_decide_eq_false_2 by congruence.
  - destruct (bool_decide_reflect (k = key)) as [->|Hk]; simpl.
    + now rewrite !bool_decide_eq_false_2 by congruence.
    + destruct (bool_decide (k = key')); [reflexivity | exact IH].
Qed.

Lemma setKey_keys key v prev k :
  In k (map fst (setKey key v prev)) <-> k = key \/ In k (map fst prev).
Proof.
  induction prev as [|[k' w] prev IH]; simpl.
  - intuition.
  - destruct (bool_decide_reflect (k' = key)) as [->|Hk]; simpl.
    + intuition.
    + rewrite IH. intuition.
Qed.

(** The keys of the record stay pairwise distinct. *)
Lemma setKey_NoDup key v prev :
  List.NoDup (map fst prev) -> List.NoDup (map fst (setKey key v prev)).
Proof.
  induction prev as [|[k w] prev IH]; simpl; intros Hnd.
  - repeat constructor. intros [].
  - inversion Hnd as [|? ? Hk Hnd']; subst.
    destruct (bool_decide_reflect (k = key)) as [->|Hne]; simpl.
    + now constructor.
    + constructor; [|auto]. rewrite setKey_keys. intros [->|Hin]; auto.
Qed.

Lemma setKey_WellKeyed key v prev :
  key = selectionKey (file v) (column v) -> WellKeyed prev -> WellKeyed (setKey key v prev).
Proof.
  intros Hk. unfold WellKeyed. induction 1 as [|[k w] prev Hw Hprev IH]; simpl.
  - repeat constructor. exact Hk.
  - destruct (bool_decide (k = key)); constructor; simpl; auto.
Qed.

Lemma reachable_invariant sel :
  ReachableSelections sel -> List.NoDup (map fst sel) /\ WellKeyed sel.
Proof.
  induction 1 as [|f c s prev _ [Hnd Hwk]].
  - split; constructor.
  - split; [now apply setKey_NoDup | now apply setKey_WellKeyed].
Qed.

(** At most one selection per (file, column) pair. *)
Lemma reachable_one_per_pair sel :
  ReachableSelections sel ->
  List.NoDup (map (fun kv => (file kv.2, column kv.2)) sel).
Proof.
  intros Hr. destruct (reachable_invariant sel Hr) as [Hnd Hwk].
  clear Hr. induction sel as [|[k a] sel IH]; simpl; [constructor|].
  inversion Hnd as [|? ? Hk Hnd']; inversion Hwk as [|? ? Ha Hwk']; subst.
  simpl in *. constructor; [|auto].
  intros Hin. apply Hk. apply in_map_iff in Hin as ([k' a'] & E & Hin).
  simpl in E. injection E as Ef Ec.
  apply in_map_iff. exists (k', a'). split; [|exact Hin].
  rewrite List.Forall_forall in Hwk'. specialize (Hwk' _ Hin).
  simpl in *. congruence.
Qed.

(** Selecting for a pair stores the selection under that pair, and leaves
    the selection of every pair with another key as it was. *)
Lemma handleActionSelect_frame f1 c1 s prev f2 c2 :
  selectionFor f1 c1 (handleActionSelect f1 c1 s prev)
  = Some {| file := f1; column := c1; suggestion := s |}
  /\ (selectionKey f2 c2 <> selectionKey f1 c1 ->
      selectionFor f2 c2 (handleActionSelect f1 c1 s prev) = selectionFor f2 c2 prev).
Proof.
  unfold selectionFor, handleActionSelect. split.
  - apply getKey_setKey_eq.
  - intros Hne. now apply getKey_setKey_ne.
Qed.

End SelectionFacts.

(** C7, at the failing input.  The pairs (sales.csv-old.csv, id) and
    (sales.csv, old.csv-id) are distinct and have the same key: selecting
    for the second replaces the selection staged for the first, which is
    then read back as the selection of the other pair. *)
Theorem handleActionSelect_key_collision :
  let staged := handleActionSelect "sales.csv-old.csv" "id" fillMode [] in
  let after := handleActionSelect "sales.csv" "old.csv-id" dropRows staged in
  ("sales.csv-old.csv", "id") <> ("sales.csv", "old.csv-id")
  /\ ReachableSelections after
  /\ selectionFor "sales.csv-old.csv" "id" staged
     = Some {| file := "sales.csv-old.csv"; column := "id"; suggestion := fillMode |}
  /\ selectionFor "sales.csv-old.csv" "id" after
     = Some {| file := "sales.csv"; column := "old.csv-id"; suggestion := dropRows |}
  /\ selectionFor "sales.csv-old.csv" "id" after
     <> selectionFor "sales.csv-old.csv" "id" staged.
Proof.
  intros staged after.
  split; [discriminate|]. split; [repeat constructor|].
  split; [reflexivity|]. split; [reflexivity|]. discriminate.
Qed.

(** ** The cleaning simulator, one file *)

Section ApplyFacts.

Lemma applySuggestion_fst sug col m : (applySuggestion sug col m).1 = columnEffect sug col.
Proof.
  unfold columnEffect, applySuggestion.
  destruct (action sug); try reflexivity. now destruct (requestedTargetType sug).
Qed.

Lemma applySuggestion_snd sug col m :
  (applySuggestion sug col m).2
  = if bool_decide (action sug = REMOVE_ROWS) then Z.max m (missingValues col) else m.
Proof.
  unfold applySuggestion. destruct (action sug); simpl; try reflexivity.
  - destruct (Z.ltb_spec m (missingValues col)); lia.
  - now destruct (requestedTargetType sug).
Qed.

Lemma changeType_name t col : name (changeType t col) = name col.
Proof. unfold changeType. now destruct (_ && _). Qed.

Lemma columnEffect_name sug col : name (columnEffect sug col) = name col.
Proof.
  unfold columnEffect, applySuggestion. destruct (action sug); try reflexivity.
  destruct (requestedTargetType sug); [apply changeType_name | reflexivity].
Qed.

Lemma firstIndex_names n cols cols' :
  map name cols' = map name cols -> firstIndex n cols' = firstIndex n cols.
Proof.
  intros E. unfold firstIndex, firstNamed.
  assert (Hfind : forall l : list ColumnProfile,
             fst <$> list_find (fun c => name c = n) l
             = fst <$> list_find (fun x => x = n) (name <$> l)).
  { intros l. rewrite list_find_fmap. destruct (list_find _ l) as [[? ?]|]; reflexivity. }
  rewrite !Hfind. change (name <$> cols') with (map name cols').
  change (name <$> cols) with (map name cols). now rewrite E.
Qed.

Lemma insert_names (cols : list ColumnProfile) i c c' :
  cols !! i = Some c -> name c' = name c -> map name (<[i:=c']> cols) = map name cols.
Proof.
  intros Hi Hn. change (name <$> <[i:=c']> cols = name <$> cols).
  rewrite list_fmap_insert, Hn. apply list_insert_id.
  now rewrite list_lookup_fmap, Hi.
Qed.

Lemma firstNamed_lookup n cols i c :
  firstNamed n cols = Some (i, c) -> cols !! i = Some c /\ name c = n.
Proof. unfold firstNamed. rewrite list_find_Some. tauto. Qed.

Lemma firstNamed_insert_ne n (cols : list ColumnProfile) i c c' :
  cols !! i = Some c -> name c' = name c -> n <> name c ->
  firstNamed n (<[i:=c']> cols) = firstNamed n cols.
Proof.
  unfold firstNamed. revert i. induction cols as [|x cols IH]; intros i Hi Hn Hne.
  - reflexivity.
  - destruct i as [|i]; simpl in *.
    + injection Hi as ->. rewrite !decide_False by congruence. reflexivity.
    + destruct (decide (name x = n)); [reflexivity|]. now rewrite IH.
Qed.

Lemma firstNamed_none n cols c :
  firstNamed n cols = None -> In c cols -> name c <> n.
Proof.
  unfold firstNamed. rewrite list_find_None, Forall_forall.
  intros Hall Hin. apply Hall. now apply list_elem_of_In.
Qed.

Lemma find_skip (a : AppliedAction) rest n :
  column a <> n ->
  List.find (fun b => bool_decide (column b = n)) (a :: rest)
  = List.find (fun b => bool_decide (column b = n)) rest.
Proof. intros Hne. simpl. now rewrite bool_decide_eq_false_2. Qed.

Lemma find_absent (actions : list AppliedAction) n :
  ~ In n (map column actions) ->
  List.find (fun b => bool_decide (column b = n)) actions = None.
Proof.
  induction actions as [|a rest IH]; simpl; [reflexivity|].
  intros Hn. rewrite bool_decide_eq_false_2 by tauto. apply IH. tauto.
Qed.

Lemma removalCandidates_cons a rest cols :
  removalCandidates (a :: rest) cols
  = match (if isRemoveRows a
           then (fun ic => missingValues ic.2) <$> firstNamed (column a) cols
           else None) with
    | Some v => v :: removalCandidates rest cols
    | None => removalCandidates rest cols
    end.
Proof. reflexivity. Qed.

Lemma removalCandidates_ext actions cols cols' :
  (forall a, In a actions -> firstNamed (column a) cols' = firstNamed (column a) cols) ->
  removalCandidates actions cols' = removalCandidates actions cols.
Proof.
  induction actions as [|a rest IH]; intros Hext; [reflexivity|].
  rewrite !removalCandidates_cons. rewrite Hext by (simpl; auto).
  rewrite IH by (intros; apply Hext; simpl; auto). reflexivity.
Qed.

Lemma afterActions_nil cols : afterActions [] cols = cols.
Proof.
  unfold afterActions. apply list_eq. intros i. rewrite list_lookup_imap.
  destruct (cols !! i) as [c|]; simpl; [|reflexivity].
  unfold stagedFor. destruct (firstIndex _ _); [|reflexivity].
  now destruct (bool_decide _).
Qed.

(** The action loop, when the actions name pairwise distinct columns. *)
Lemma foldl_applyAction actions :
  List.NoDup (map column actions) ->
  forall cols m,
    foldl applyAction (cols, m) actions
    = (afterActions actions cols, foldl Z.max m (removalCandidates actions cols)).
Proof.
  induction actions as [|a rest IH]; intros Hnd cols m.
  - simpl. now rewrite afterActions_nil.
  - inversion Hnd as [|? ? Ha Hrest]; subst.
    change (foldl applyAction (cols, m) (a :: rest))
      with (foldl applyAction (applyAction (cols, m) a) rest).
    unfold applyAction at 2. simpl fst. simpl snd.
    fold (firstNamed (column a) cols).
    destruct (firstNamed (column a) cols) as [[i col]|] eqn:Efind.
    + destruct (firstNamed_lookup _ _ _ _ Efind) as [Hi Hname].
      destruct (applySuggestion (suggestion a) col m) as [col' m1] eqn:Eapp.
      assert (Hcol' : col' = columnEffect (suggestion a) col)
        by now rewrite <- (applySuggestion_fst _ _ m), Eapp.
      assert (Hm1 : m1 = if isRemoveRows a then Z.max m (missingValues col) else m)
        by (unfold isRemoveRows; now rewrite <- applySuggestion_snd, Eapp).
      assert (Hn' : name col' = name col) by (subst col'; apply columnEffect_name).
      rewrite IH by exact Hrest. f_equal.
      * (* the columns *)
        apply list_eq. intros j. unfold afterActions. rewrite !list_lookup_imap.
        destruct (decide (j = i)) as [->|Hji].
        -- rewrite list_lookup_insert_eq by (eapply lookup_lt_Some; eauto).
           rewrite Hi. simpl. f_equal. unfold stagedFor.
           rewrite (firstIndex_names _ cols (<[i:=col']> cols))
             by (eapply insert_names; eauto).
           rewrite Hn'. unfold firstIndex. rewrite Hname, Efind. simpl.
           rewrite bool_decide_eq_true_2 by reflexivity.
           rewrite find_absent by exact Ha.
           simpl. rewrite bool_decide_eq_true_2 by reflexivity. now subst col'.
        -- rewrite list_lookup_insert_ne by congruence.
           destruct (cols !! j) as [c|] eqn:Hj; simpl; [|reflexivity]. f_equal.
           unfold stagedFor.
           rewrite (firstIndex_names _ cols (<[i:=col']> cols))
             by (eapply insert_names; eauto).
           destruct (firstIndex (name c) cols) as [k|] eqn:Ek; [|reflexivity].
           destruct (bool_decide_reflect (k = j)) as [->|]; [|reflexivity].
           rewrite find_skip; [reflexivity|].
           intros Ec. unfold firstIndex in Ek. rewrite <- Ec, Efind in Ek.
           simpl in Ek. congruence.
      * (* the maximum *)
        rewrite (removalCandidates_ext rest cols (<[i:=col']> cols)).
        2:{ intros b Hb. eapply firstNamed_insert_ne; eauto.
            intros Eb. apply Ha. rewrite <- Hname, <- Eb. now apply in_map. }
        rewrite removalCandidates_cons, Efind. simpl.
        subst m1. destruct (isRemoveRows a); reflexivity.
    + rewrite IH by exact Hrest. f_equal.
      * unfold afterActions. apply imap_ext. intros j c Hj. simpl.
        unfold stagedFor. destruct (firstIndex (name c) cols); [|reflexivity].
        destruct (bool_decide _); [|reflexivity].
        rewrite find_skip; [reflexivity|].
        intros Ec. eapply firstNamed_none; eauto.
        apply list_elem_of_In. eapply list_elem_of_lookup_2; eauto.
      * rewrite removalCandidates_cons, Efind. simpl.
        now destruct (isRemoveRows a).
Qed.

Lemma foldl_max_spec (l : list Z) : forall m,
  let M := foldl Z.max m l in
  (m <= M)%Z /\ (forall x, In x l -> (x <= M)%Z) /\ (M = m \/ In M l).
Proof.
  induction l as [|x l IH]; intros m M; subst M.
  - simpl. split; [lia|]. split; [tauto | auto].
  - change (foldl Z.max m (x :: l)) with (foldl Z.max (Z.max m x) l).
    destruct (IH (Z.max m x)) as (H1 & H2 & H3). split; [lia|]. split.
    + intros y [<-|Hy]; [lia | auto].
    + destruct H3 as [H3|H3]; [|right; now right].
      rewrite H3.
      destruct (Z.max_spec m x) as [[_ E]|[_ E]]; rewrite E;
        [right; now left | now left].
Qed.

Lemma removalCandidates_In actions cols v :
  In v (removalCandidates actions cols) <->
  exists a i c, In a actions /\ isRemoveRows a = true
                /\ firstNamed (column a) cols = Some (i, c) /\ missingValues c = v.
Proof.
  induction actions as [|a rest IH].
  - simpl. split; [tauto | intros (a & i & c & [] & _)].
  - rewrite removalCandidates_cons. split.
    + destruct (isRemoveRows a) eqn:Ea.
      * destruct (firstNamed (column a) cols) as [[i c]|] eqn:Ef; simpl.
        -- intros [<-|Hv].
           ++ exists a, i, c. simpl; auto.
           ++ apply IH in Hv as (b & j & d & Hb & H). exists b, j, d. simpl; auto.
        -- intros Hv. apply IH in Hv as (b & j & d & Hb & H). exists b, j, d. simpl; auto.
      * intros Hv. apply IH in Hv as (b & j & d & Hb & H). exists b, j, d. simpl; auto.
    + intros (b & j & d & [<-|Hb] & Hr & Hf & Hv).
      * rewrite Hr, Hf. simpl. auto.
      * assert (In v (removalCandidates rest cols)) by (apply IH; eauto 10).
        destruct (if isRemoveRows a then _ else _); simpl; auto.
Qed.

(** [maxRowsRemoved] is the maximum of the candidates, and 0 without any. *)
Lemma maxRowsRemoved_spec actions cols :
  let R := maxRowsRemoved actions cols in
  (0 <= R)%Z
  /\ (forall a i c, In a actions -> isRemoveRows a = true ->
        firstNamed (column a) cols = Some (i, c) -> (missingValues c <= R)%Z)
  /\ (R = 0%Z \/ exists a i c, In a actions /\ isRemoveRows a = true
                               /\ firstNamed (column a) cols = Some (i, c)
                               /\ missingValues c = R).
Proof.
  unfold maxRowsRemoved.
  destruct (foldl_max_spec (removalCandidates actions cols) 0) as (H1 & H2 & H3).
  split; [exact H1|]. split.
  - intros a i c Ha Hr Hf. apply H2, removalCandidates_In. eauto 10.
  - destruct H3 as [H3|H3]; [auto|]. right. now apply removalCandidates_In.
Qed.

Lemma afterActions_names actions cols : map name (afterActions actions cols) = map name cols.
Proof.
  change (name <$> afterActions actions cols = name <$> cols).
  unfold afterActions. apply list_eq. intros i. rewrite !list_lookup_fmap, list_lookup_imap.
  destruct (cols !! i) as [c|]; simpl; [|reflexivity].
  destruct (stagedFor actions cols i c); simpl; [|reflexivity].
  now rewrite columnEffect_name.
Qed.

Lemma find_NoDup (actions : list AppliedAction) a :
  List.NoDup (map column actions) -> In a actions ->
  List.find (fun b => bool_decide (column b = column a)) actions = Some a.
Proof.
  induction actions as [|b rest IH]; simpl; intros Hnd Hin; [contradiction|].
  inversion Hnd as [|? ? Hb Hrest]; subst.
  destruct Hin as [->|Hin].
  - now rewrite bool_decide_eq_true_2.
  - rewrite bool_decide_eq_false_2; [auto|].
    intros E. apply Hb. rewrite E. now apply in_map.
Qed.

(** The column reached by a staged action carries its effect. *)
Lemma afterActions_reached actions cols a i c :
  List.NoDup (map column actions) -> In a actions ->
  firstNamed (column a) cols = Some (i, c) ->
  afterActions actions cols !! i = Some (columnEffect (suggestion a) c).
Proof.
  intros Hnd Hin Hf. destruct (firstNamed_lookup _ _ _ _ Hf) as [Hi Hn].
  unfold afterActions. rewrite list_lookup_imap, Hi. simpl. f_equal.
  unfold stagedFor, firstIndex. rewrite Hn, Hf. simpl.
  rewrite bool_decide_eq_true_2 by reflexivity. now rewrite find_NoDup.
Qed.

(** A column that no action names is left as it is by the action loop. *)
Lemma afterActions_untouched actions cols i c :
  cols !! i = Some c -> ~ In (name c) (map column actions) ->
  afterActions actions cols !! i = Some c.
Proof.
  intros Hi Hn. unfold afterActions. rewrite list_lookup_imap, Hi. simpl. f_equal.
  unfold stagedFor. destruct (firstIndex _ _); [|reflexivity].
  destruct (bool_decide _); [|reflexivity]. now rewrite find_absent.
Qed.

(** One iteration of the file loop, when the actions name pairwise distinct
    columns. *)
Lemma applyToFile_unfold fileProfile actions :
  List.NoDup (map column actions) ->
  let cols := afterActions actions (columns fileProfile) in
  let R := maxRowsRemoved actions (columns fileProfile) in
  applyToFile fileProfile actions
  = if (0 <? R)%Z then
      cols' ← mapM (adjustColumn actions R (rowCount fileProfile)) cols;
      Some {| rowCount := Z.max 0 (rowCount fileProfile - R);
              columnCount := columnCount fileProfile;
              columns := cols'; aiInsights := aiInsights fileProfile |}
    else
      Some {| rowCount := rowCount fileProfile; columnCount := columnCount fileProfile;
              columns := cols; aiInsights := aiInsights fileProfile |}.
Proof.
  intros Hnd cols R. unfold applyToFile.
  rewrite (foldl_applyAction actions Hnd). fold cols. fold (maxRowsRemoved actions (columns fileProfile)).
  fold R. destruct (0 <? R)%Z; [|reflexivity].
  replace (if (rowCount fileProfile - R <? 0)%Z then 0%Z else (rowCount fileProfile - R)%Z)
    with (Z.max 0 (rowCount fileProfile - R)); [reflexivity|].
  destruct (Z.ltb_spec (rowCount fileProfile - R) 0); lia.
Qed.

End ApplyFacts.

(** ** Double-precision facts

    The estimate of removed rows is computed on doubles.  For counts below
    2^53 and a positive row count every intermediate value is a zero or a
    finite positive double, so that the estimate is a natural number. *)

Section DoubleFacts.
Local Open Scope Z_scope.

Lemma digits2_pos_size p : digits2_pos p = Pos.size p.
Proof. induction p; simpl; congruence. Qed.

Lemma Zdigits2_bounds p :
  2 ^ (Zpos (digits2_pos p) - 1) <= Zpos p < 2 ^ Zpos (digits2_pos p).
Proof.
  rewrite digits2_pos_size.
  pose proof (Pos.size_gt p) as Hgt. pose proof (Pos.size_le p) as Hle.
  assert (E : Zpos (2 ^ Pos.size p) = 2 ^ Zpos (Pos.size p)) by apply Pos2Z.inj_pow.
  split.
  - assert (2 ^ Zpos (Pos.size p) <= 2 * Zpos p) by (rewrite <- E; exact Hle).
    replace (Zpos (Pos.size p)) with (Z.succ (Zpos (Pos.size p) - 1)) in H by lia.
    rewrite Z.pow_succ_r in H by lia. lia.
  - rewrite <- E. exact Hgt.
Qed.

Lemma Zdigits2_le m D : 0 <= D -> 0 <= m < 2 ^ D -> 0 <= Zdigits2 m <= D.
Proof.
  intros HD [H0 Hm]. destruct m as [|p|p]; simpl; [lia| |lia].
  split; [lia|].
  destruct (Zdigits2_bounds p) as [Hlo _].
  destruct (Z.le_gt_cases (Zpos (digits2_pos p)) D) as [|Hgt]; [assumption|].
  assert (2 ^ D <= 2 ^ (Zpos (digits2_pos p) - 1)) by (apply Z.pow_le_mono_r; lia).
  lia.
Qed.

Lemma Zdigits2_eq p D : 2 ^ (D - 1) <= Zpos p < 2 ^ D -> 0 < D -> Zpos (digits2_pos p) = D.
Proof.
  intros [Hlo Hhi] HD. destruct (Zdigits2_bounds p) as [Hlo' Hhi'].
  assert (Zpos (digits2_pos p) - 1 < D).
  { apply (Z.pow_lt_mono_r_iff 2); lia. }
  assert (D - 1 < Zpos (digits2_pos p)).
  { apply (Z.pow_lt_mono_r_iff 2); lia. }
  lia.
Qed.

Lemma fexp_unfold e : fexp prec emax e = Z.max (e - 53) (-1074).
Proof. reflexivity. Qed.

Lemma iter_pos_invariant {A} (P : A -> Prop) (f : A -> A) :
  (forall x, P x -> P (f x)) -> forall n x, P x -> P (SpecFloat.iter_pos f n x).
Proof.
  intros Hf. induction n as [n IH|n IH|]; intros x Hx; simpl; auto.
Qed.

Lemma shr_1_range D mrs :
  0 <= shr_m mrs < 2 ^ D -> 0 <= shr_m (shr_1 mrs) < 2 ^ D.
Proof.
  destruct mrs as [m r s]. simpl. intros [H0 HD].
  destruct m as [|[p|p|]|p]; simpl; lia.
Qed.

Lemma shr_range D mrs e n :
  0 <= shr_m mrs < 2 ^ D ->
  0 <= shr_m (fst (shr mrs e n)) < 2 ^ D
  /\ snd (shr mrs e n) = (if 0 <? n then e + n else e).
Proof.
  intros H. unfold shr. destruct n as [|p|p]; simpl; auto.
  split; [|reflexivity].
  apply (iter_pos_invariant (fun r => 0 <= shr_m r < 2 ^ D)); [apply shr_1_range | exact H].
Qed.

Lemma shr_record_of_loc_m m l : shr_m (shr_record_of_loc m l) = m.
Proof. destruct l as [|[| |]]; reflexivity. Qed.

Lemma shr_fexp_range D m e l :
  0 <= D -> 0 <= m < 2 ^ D ->
  0 <= shr_m (fst (shr_fexp prec emax m e l)) < 2 ^ D
  /\ e <= snd (shr_fexp prec emax m e l) <= Z.max e (Z.max (D + e - 53) (-1074)).
Proof.
  intros HD Hm. unfold shr_fexp.
  destruct (shr_range D (shr_record_of_loc m l) e
              (fexp prec emax (Zdigits2 m + e) - e)) as [H1 H2].
  { now rewrite shr_record_of_loc_m. }
  split; [exact H1|]. rewrite H2, fexp_unfold.
  pose proof (Zdigits2_le m D HD Hm).
  destruct (Z.ltb_spec 0 (Z.max (Zdigits2 m + e - 53) (-1074) - e)); lia.
Qed.

Lemma round_nearest_even_range D m l :
  0 <= D -> 0 <= m < 2 ^ D -> 0 <= round_nearest_even m l < 2 ^ (D + 1).
Proof.
  intros HD Hm. rewrite Z.pow_add_r by lia.
  unfold round_nearest_even. destruct l as [|[| |]]; try destruct (Z.even m); lia.
Qed.

(** A rounded non-negative value that is far from overflow is a zero or a
    finite number of the sign given. *)
Lemma binary_round_aux_range D E s m e l :
  0 <= D <= 220 -> e <= E -> E <= 380 -> 0 <= m < 2 ^ D ->
  binary_round_aux prec emax s m e l = S754_zero s
  \/ exists m' e', binary_round_aux prec emax s m e l = S754_finite s m' e'
                   /\ Zpos m' < 2 ^ (D + 1) /\ e' <= Z.max (E + 2 * D + 1) 0.
Proof.
  intros HD He HE Hm. unfold binary_round_aux.
  destruct (shr_fexp_range D m e l ltac:(lia) Hm) as [H1 H2].
  destruct (shr_fexp prec emax m e l) as [mrs' e1]. simpl in H1, H2.
  pose proof (round_nearest_even_range D (shr_m mrs') (loc_of_shr_record mrs')
                ltac:(lia) H1) as H3.
  destruct (shr_fexp_range (D + 1) _ e1 loc_Exact ltac:(lia) H3) as [H4 H5].
  destruct (shr_fexp prec emax _ e1 loc_Exact) as [mrs'' e2]. simpl in H4, H5.
  destruct (shr_m mrs'') as [|p|p] eqn:Em; [now left | | lia].
  right. exists p, e2.
  assert (Hle : e2 <= 971) by lia.
  apply Z.leb_le in Hle. change (emax - prec) with 971. rewrite Hle.
  repeat split; lia.
Qed.

Lemma Pos_iter_xO p d : Zpos (Pos.iter xO p d) = Zpos p * 2 ^ Zpos d.
Proof.
  induction d as [|d IH] using Pos.peano_ind.
  - simpl. lia.
  - rewrite Pos.iter_succ, Pos2Z.inj_xO, IH, Pos2Z.inj_succ, Z.pow_succ_r by lia. lia.
Qed.

(** A mantissa of exactly 53 digits with an exponent in range needs no
    rounding. *)
Lemma binary_round_aux_exact s m e :
  Zpos (digits2_pos m) = 53 -> -1074 <= e <= 971 ->
  binary_round_aux prec emax s (Zpos m) e loc_Exact = S754_finite s m e.
Proof.
  intros Hd He. unfold binary_round_aux.
  assert (Hs : shr_fexp prec emax (Zpos m) e loc_Exact
               = ({| shr_m := Zpos m; shr_r := false; shr_s := false |}, e)).
  { unfold shr_fexp. rewrite fexp_unfold. simpl Zdigits2. rewrite Hd.
    replace (Z.max (53 + e - 53) (-1074) - e) with 0 by lia. reflexivity. }
  rewrite Hs. simpl. rewrite Hs. simpl.
  assert (Hle : (e <=? emax - prec) = true) by (apply Z.leb_le; unfold emax, prec; lia).
  now rewrite Hle.
Qed.

(** The double of a positive integer below 2^53 is that integer, exactly. *)
Lemma toDouble_pos z :
  0 < z < 2 ^ 53 ->
  exists m e, toDouble z = S754_finite false m e
              /\ Zpos m < 2 ^ 53 /\ -52 <= e <= 0.
Proof.
  intros [H0 H53]. destruct z as [|p|p]; try lia.
  unfold toDouble, binary_normalize, binary_round.
  destruct (Zdigits2_bounds p) as [Hlo Hhi].
  assert (Hd : 1 <= Zpos (digits2_pos p) <= 53).
  { split; [lia|]. destruct (Z.le_gt_cases (Zpos (digits2_pos p)) 53); [assumption|].
    assert (2 ^ 53 <= 2 ^ (Zpos (digits2_pos p) - 1)) by (apply Z.pow_le_mono_r; lia).
    lia. }
  rewrite fexp_unfold. unfold shl_align.
  replace (Z.max (Zpos (digits2_pos p) + 0 - 53) (-1074) - 0)
    with (Zpos (digits2_pos p) - 53) by lia.
  replace (Z.max (Zpos (digits2_pos p) + 0 - 53) (-1074))
    with (Zpos (digits2_pos p) - 53) by lia.
  destruct (Zpos (digits2_pos p) - 53) as [|k|k] eqn:Ek; try lia.
  - rewrite binary_round_aux_exact by lia. exists p, 0. repeat split; lia.
  - assert (Hm : Zpos (Pos.iter xO p k) = Zpos p * 2 ^ Zpos k) by apply Pos_iter_xO.
    assert (Hk : Zpos k = 53 - Zpos (digits2_pos p)) by lia.
    assert (Hpow : 2 ^ 53 = 2 ^ Zpos (digits2_pos p) * 2 ^ Zpos k).
    { rewrite <- Z.pow_add_r by lia. f_equal. lia. }
    assert (Hpow' : 2 ^ 52 = 2 ^ (Zpos (digits2_pos p) - 1) * 2 ^ Zpos k).
    { rewrite <- Z.pow_add_r by lia. f_equal. lia. }
    assert (H2k : 0 < 2 ^ Zpos k) by (apply Z.pow_pos_nonneg; lia).
    rewrite binary_round_aux_exact.
    + exists (Pos.iter xO p k), (Zneg k). repeat split; try lia. rewrite Hm. nia.
    + apply Zdigits2_eq; [|lia]. rewrite Hm. change (53 - 1) with 52. nia.
    + lia.
Qed.

Lemma toDouble_zero : toDouble 0 = S754_zero false.
Proof. reflexivity. Qed.

(** A quotient of the doubles of two positive integers below 2^53 is a
    zero or a finite positive number. *)
Lemma SFdiv_range m1 e1 m2 e2 :
  Zpos m1 < 2 ^ 53 -> -52 <= e1 <= 0 -> Zpos m2 < 2 ^ 53 -> -52 <= e2 <= 0 ->
  let q := SFdiv prec emax (S754_finite false m1 e1) (S754_finite false m2 e2) in
  q = S754_zero false
  \/ exists m e, q = S754_finite false m e /\ Zpos m < 2 ^ 160 /\ e <= 371.
Proof.
  intros Hm1 He1 Hm2 He2 q. subst q. unfold SFdiv, SFdiv_core_binary.
  rewrite fexp_unfold.
  pose proof (Zdigits2_le (Zpos m1) 53 ltac:(lia) ltac:(lia)) as Hd1.
  pose proof (Zdigits2_le (Zpos m2) 53 ltac:(lia) ltac:(lia)) as Hd2.
  set (d1 := Zdigits2 (Zpos m1)) in *. set (d2 := Zdigits2 (Zpos m2)) in *.
  set (e' := Z.min (Z.max (d1 + e1 - (d2 + e2) - 53) (-1074)) (e1 - e2)).
  set (s := e1 - e2 - e').
  assert (Hs : 0 <= s <= 106) by (unfold s, e'; lia).
  set (m' := match s with Z.pos _ => Z.shiftl (Zpos m1) s | 0 => Zpos m1 | Z.neg _ => 0 end).
  assert (Hm' : 0 <= m' < 2 ^ 159).
  { assert (Hsh : m' = Zpos m1 * 2 ^ s).
    { unfold m'. destruct s as [|k|k] eqn:Es; [lia | | lia].
      apply Z.shiftl_mul_pow2. lia. }
    assert (H2s : 0 < 2 ^ s <= 2 ^ 106).
    { split; [apply Z.pow_pos_nonneg; lia | apply Z.pow_le_mono_r; lia]. }
    replace (2 ^ 159) with (2 ^ 53 * 2 ^ 106) by (rewrite <- Z.pow_add_r by lia; reflexivity).
    rewrite Hsh. nia. }
  destruct (Z.div_eucl m' (Zpos m2)) as [qz r] eqn:Ediv.
  assert (Hq : qz = m' / Zpos m2) by (unfold Z.div; now rewrite Ediv).
  assert (Hqr : 0 <= qz < 2 ^ 159).
  { rewrite Hq. split; [apply Z.div_pos; lia|].
    apply Z.le_lt_trans with m'; [|lia].
    apply Z.div_le_upper_bound; [lia|]. nia. }
  destruct (binary_round_aux_range 159 52 (xorb false false) qz e'
              (new_location (Zpos m2) r) ltac:(lia) ltac:(unfold e'; lia) ltac:(lia) Hqr)
    as [Hz | (m & e & Hf & Hm & He)].
  - left. exact Hz.
  - right. exists m, e. split; [exact Hf|]. split; [exact Hm | lia].
Qed.

Lemma SFmul_range m1 e1 (y : spec_float) :
  Zpos m1 < 2 ^ 53 -> -52 <= e1 <= 0 ->
  (y = S754_zero false
   \/ exists m e, y = S754_finite false m e /\ Zpos m < 2 ^ 160 /\ e <= 371) ->
  let p := SFmul prec emax (S754_finite false m1 e1) y in
  p = S754_zero false \/ exists m e, p = S754_finite false m e.
Proof.
  intros Hm1 He1 [-> | (m & e & -> & Hm & He)] p; subst p; simpl; [now left|].
  assert (Hprod : 0 <= Zpos (m1 * m) < 2 ^ 213).
  { rewrite Pos2Z.inj_mul.
    replace (2 ^ 213) with (2 ^ 53 * 2 ^ 160) by (rewrite <- Z.pow_add_r by lia; reflexivity).
    nia. }
  destruct (binary_round_aux_range 213 371 false (Zpos (m1 * m)) (e1 + e) loc_Exact
              ltac:(lia) ltac:(lia) ltac:(lia) Hprod)
    as [Hz | (m' & e' & Hf & _)]; eauto.
Qed.

Lemma Math_round_nonneg x :
  (x = S754_zero false \/ exists m e, x = S754_finite false m e) ->
  exists k, Math_round x = RoundInt k /\ 0 <= k.
Proof.
  intros [-> | (m & e & ->)]; simpl.
  - exists 0. split; [reflexivity | lia].
  - destruct (0 <=? e) eqn:E.
    + eexists. split; [reflexivity|]. apply Z.leb_le in E.
      apply Z.mul_nonneg_nonneg; [lia | apply Z.pow_nonneg; lia].
    + eexists. split; [reflexivity|]. apply Z.leb_gt in E.
      apply Z.div_pos; [|apply Z.pow_pos_nonneg; lia].
      assert (0 < 2 ^ (- e)) by (apply Z.pow_pos_nonneg; lia). lia.
Qed.

(** The estimate is a natural number whenever the counts are in the range
    of exact doubles and the row count is positive. *)
Lemma estimatedRemovals_count missing removed rowCount :
  0 <= missing < 2 ^ 53 -> 0 < removed < 2 ^ 53 -> 0 < rowCount < 2 ^ 53 ->
  exists k, estimatedRemovals missing removed rowCount = RoundInt k /\ 0 <= k.
Proof.
  intros Hmv HR Hrc. unfold estimatedRemovals.
  destruct (toDouble_pos removed HR) as (m1 & e1 & -> & Hm1 & He1).
  destruct (toDouble_pos rowCount Hrc) as (m2 & e2 & -> & Hm2 & He2).
  pose proof (SFdiv_range m1 e1 m2 e2 Hm1 He1 Hm2 He2) as Hq. cbv zeta in Hq.
  apply Math_round_nonneg.
  destruct (Z.eq_dec missing 0) as [->|Hne].
  - rewrite toDouble_zero. left.
    destruct Hq as [Hq | (m & e & Hq & _)]; rewrite Hq; reflexivity.
  - destruct (toDouble_pos missing ltac:(lia)) as (m0 & e0 & -> & Hm0 & He0).
    now apply SFmul_range.
Qed.

End DoubleFacts.

Section AdjustFacts.

Lemma adjustColumn_fields actions R rc c c' :
  adjustColumn actions R rc c = Some c' ->
  name c' = name c /\ dataType c' = dataType c /\ uniqueValues c' = uniqueValues c
  /\ nonNumericCount c' = nonNumericCount c
  /\ c' = set_missingValues (missingValues c') c.
Proof.
  unfold adjustColumn. destruct (negb (removalSelected actions c)).
  - destruct (subtractFloored _ _) as [v|]; simpl; [|discriminate].
    intros [= <-]. auto.
  - intros [= <-]. now destruct c.
Qed.

Lemma mapM_lookup {A B} (f : A -> option B) (l : list A) (k : list B) i y :
  mapM f l = Some k -> k !! i = Some y -> exists x, l !! i = Some x /\ f x = Some y.
Proof.
  intros Hm Hy. apply mapM_Some in Hm.
  destruct (Forall2_lookup_r _ _ _ _ _ Hm Hy) as (x & Hx & Hf). eauto.
Qed.

Lemma mapM_lookup_l {A B} (f : A -> option B) (l : list A) (k : list B) i x :
  mapM f l = Some k -> l !! i = Some x -> exists y, k !! i = Some y /\ f x = Some y.
Proof.
  intros Hm Hx. apply mapM_Some in Hm.
  destruct (Forall2_lookup_l _ _ _ _ _ Hm Hx) as (y & Hy & Hf). eauto.
Qed.

(** The columns of the result of one iteration, index by index. *)
Lemma applyToFile_columns fileProfile actions fileProfile' :
  List.NoDup (map column actions) ->
  applyToFile fileProfile actions = Some fileProfile' ->
  let R := maxRowsRemoved actions (columns fileProfile) in
  rowCount fileProfile' = (if (0 <? R)%Z then Z.max 0 (rowCount fileProfile - R)
                           else rowCount fileProfile)
  /\ columnCount fileProfile' = columnCount fileProfile
  /\ aiInsights fileProfile' = aiInsights fileProfile
  /\ forall i,
       match afterActions actions (columns fileProfile) !! i with
       | Some c =>
           exists c', columns fileProfile' !! i = Some c'
                      /\ if (0 <? R)%Z
                         then adjustColumn actions R (rowCount fileProfile) c = Some c'
                         else c' = c
       | None => columns fileProfile' !! i = None
       end.
Proof.
  intros Hnd Happ R. rewrite (applyToFile_unfold _ _ Hnd) in Happ. fold R in Happ.
  destruct (0 <? R)%Z.
  - destruct (mapM _ _) as [cols'|] eqn:Hm; simpl in Happ; [|discriminate].
    injection Happ as <-. simpl. repeat split.
    intros i. destruct (afterActions _ _ !! i) as [c|] eqn:Hc.
    + destruct (mapM_lookup_l _ _ _ _ _ Hm Hc) as (c' & Hc' & Hf). eauto.
    + apply mapM_Some, Forall2_length in Hm.
      apply lookup_ge_None. apply lookup_ge_None in Hc. lia.
  - injection Happ as <-. simpl. repeat split.
    intros i. destruct (afterActions _ _ !! i); eauto.
Qed.

End AdjustFacts.

(** ** A change of type *)

(** C2, counterexample.  A [mixed] column with 5 non-numeric values turned
    into [string]: the type leaves [mixed] and [nonNumericCount] is still 5. *)
Lemma changeType_string_counterexample :
  let col' := columnEffect (changeTo TT_string) amountColumn in
  dataType amountColumn = DT_mixed
  /\ dataType col' = DT_string
  /\ nonNumericCount col' = Some 5%Z
  /\ applyToFile amountProfile [onAmount (changeTo TT_string)]
     = Some {| rowCount := 20; columnCount := 1; columns := [col']; aiInsights := None |}
  /\ ~ (nonNumericCount col' = None \/ nonNumericCount col' = Some 0%Z).
Proof.
  repeat split. intros [E|E]; discriminate E.
Qed.

(** C2, as amended.  A [CHANGE_TYPE] action with a target type sets
    [dataType] to the target and keeps the name and [uniqueValues].  With
    the target [number] and a [nonNumericCount] that is present and not
    zero, in particular positive, the count is added to [missingValues] and
    [nonNumericCount] becomes 0.  In every other case, among them the target
    [string], [missingValues] and [nonNumericCount] are left as they were: a
    column taken from [mixed] to [string] keeps its [nonNumericCount].  In
    the result of the apply step the column reached by the action has this
    type and this [nonNumericCount], and all of this effect when no rows are
    removed. *)
Theorem changeType_effect (sug : CleaningSuggestion) (t : TargetType) (col : ColumnProfile) :
  action sug = CHANGE_TYPE ->
  requestedTargetType sug = Some t ->
  let col' := columnEffect sug col in
  dataType col' = dataTypeOfTarget t
  /\ name col' = name col /\ uniqueValues col' = uniqueValues col
  /\ (forall k, t = TT_number -> nonNumericCount col = Some k -> k <> 0%Z ->
        missingValues col' = (missingValues col + k)%Z
        /\ nonNumericCount col' = Some 0%Z)
  /\ (forall k, t = TT_number -> nonNumericCount col = Some k -> (0 < k)%Z ->
        missingValues col' = (missingValues col + k)%Z
        /\ nonNumericCount col' = Some 0%Z)
  /\ (t = TT_string \/ nonNumericCount col = None \/ nonNumericCount col = Some 0%Z ->
        missingValues col' = missingValues col
        /\ nonNumericCount col' = nonNumericCount col)
  /\ (forall fileProfile actions a i fileProfile',
        List.NoDup (map column actions) -> In a actions -> suggestion a = sug ->
        firstNamed (column a) (columns fileProfile) = Some (i, col) ->
        applyToFile fileProfile actions = Some fileProfile' ->
        exists c', columns fileProfile' !! i = Some c'
                   /\ dataType c' = dataTypeOfTarget t
                   /\ nonNumericCount c' = nonNumericCount col'
                   /\ (maxRowsRemoved actions (columns fileProfile) = 0%Z -> c' = col')).
Proof.
  intros Hact Ht col'.
  assert (Ecol : col' = changeType t col).
  { unfold col', columnEffect, applySuggestion. now rewrite Hact, Ht. }
  assert (Hnum : forall k, t = TT_number -> nonNumericCount col = Some k -> k <> 0%Z ->
            missingValues col' = (missingValues col + k)%Z
            /\ nonNumericCount col' = Some 0%Z).
  { intros k -> Hk Hk0. rewrite Ecol. unfold changeType. simpl. rewrite Hk. simpl.
    destruct (Z.eqb_spec k 0); [contradiction|]. simpl. auto. }
  assert (Hty : dataType col' = dataTypeOfTarget t).
  { rewrite Ecol. unfold changeType. now destruct (_ && _). }
  split; [exact Hty|].
  split; [rewrite Ecol; apply changeType_name|].
  split; [rewrite Ecol; unfold changeType; now destruct (_ && _)|].
  split; [exact Hnum|].
  split; [intros k Hn Hk Hpos; apply (Hnum k Hn Hk); lia|].
  split.
  - rewrite Ecol. unfold changeType. simpl.
    intros [->|[Hn|Hn]]; [auto| |]; rewrite Hn; simpl;
      rewrite ?andb_false_r; auto.
  - intros fileProfile actions a i fileProfile' Hnd Hin Hsug Hf Happ.
    pose proof (afterActions_reached _ _ _ _ _ Hnd Hin Hf) as Hreached.
    rewrite Hsug in Hreached. fold col' in Hreached.
    destruct (applyToFile_columns _ _ _ Hnd Happ) as (_ & _ & _ & Hcols).
    specialize (Hcols i). rewrite Hreached in Hcols.
    destruct Hcols as (c' & Hc' & Hadj). exists c'. split; [exact Hc'|].
    destruct (0 <? maxRowsRemoved actions (columns fileProfile))%Z eqn:ER.
    + apply adjustColumn_fields in Hadj as (_ & Hd & _ & Hnn & _).
      rewrite Hd, Hnn. repeat split; auto.
      intros E0. rewrite E0 in ER. discriminate.
    + subst c'. auto.
Qed.

Lemma changeType_effect_witness :
  let col' := columnEffect (changeTo TT_number) amountColumn in
  dataType col' = DT_number
  /\ missingValues col' = 7%Z
  /\ nonNumericCount col' = Some 0%Z
  /\ applyToFile amountProfile [onAmount (changeTo TT_number)]
     = Some {| rowCount := 20; columnCount := 1; columns := [col']; aiInsights := None |}.
Proof.
  intros col'.
  pose proof (changeType_effect (changeTo TT_number) TT_number amountColumn
                eq_refl eq_refl) as (Hty & _ & _ & _ & Hpos & _ & Hfile).
  destruct (Hpos 5%Z eq_refl eq_refl ltac:(lia)) as [Hmv Hnn].
  split; [exact Hty|]. split; [exact Hmv|]. split; [exact Hnn|].
  reflexivity.
Defined.

(** ** The removal of rows *)

Section RemovalFacts.
Local Open Scope Z_scope.

Lemma columnEffect_missing sug c :
  missingValues (columnEffect sug c) = 0
  \/ missingValues (columnEffect sug c) = missingValues c
  \/ exists k, nonNumericCount c = Some k
               /\ missingValues (columnEffect sug c) = missingValues c + k.
Proof.
  unfold columnEffect, applySuggestion. destruct (action sug); simpl; auto.
  destruct (requestedTargetType sug) as [t|]; simpl; auto.
  unfold changeType. simpl. destruct (bool_decide _ && _) eqn:E; simpl; auto.
  right. right. apply andb_true_iff in E as [_ E].
  destruct (nonNumericCount c) as [k|]; [|discriminate]. eauto.
Qed.

Lemma afterActions_source actions cols i c1 :
  afterActions actions cols !! i = Some c1 ->
  exists c, cols !! i = Some c /\ (c1 = c \/ exists sug, c1 = columnEffect sug c).
Proof.
  unfold afterActions. rewrite list_lookup_imap.
  destruct (cols !! i) as [c|]; simpl; [|discriminate].
  intros [= <-]. exists c. split; [reflexivity|].
  destruct (stagedFor actions cols i c); eauto.
Qed.

Lemma afterActions_within fileProfile actions i c1 :
  CountsWithinRows fileProfile ->
  afterActions actions (columns fileProfile) !! i = Some c1 ->
  0 <= missingValues c1 <= rowCount fileProfile.
Proof.
  intros [Hrc Hall] Hc1.
  destruct (afterActions_source _ _ _ _ Hc1) as (c & Hc & Hsrc).
  rewrite Forall_forall in Hall.
  specialize (Hall c (list_elem_of_lookup_2 _ _ _ Hc)). simpl in Hall.
  destruct Hsrc as [->|[sug ->]]; [lia|].
  destruct (columnEffect_missing sug c) as [E|[E|(k & Hk & E)]]; rewrite E; try lia.
  rewrite Hk in Hall. simpl in Hall. lia.
Qed.

Lemma maxRowsRemoved_within fileProfile actions :
  CountsWithinRows fileProfile ->
  0 <= maxRowsRemoved actions (columns fileProfile) <= rowCount fileProfile.
Proof.
  intros [Hrc Hall].
  destruct (maxRowsRemoved_spec actions (columns fileProfile)) as (H0 & _ & Hmax).
  split; [exact H0|].
  destruct Hmax as [->|(a & i & c & _ & _ & Hf & <-)]; [lia|].
  apply firstNamed_lookup in Hf as [Hc _].
  rewrite Forall_forall in Hall.
  specialize (Hall c (list_elem_of_lookup_2 _ _ _ Hc)). simpl in Hall. lia.
Qed.

(** The adjustment of one column, when the counts are consistent. *)
Lemma adjustColumn_within actions R rc c :
  0 < R -> R <= rc -> rc < 2 ^ 53 -> 0 <= missingValues c <= rc ->
  exists c', adjustColumn actions R rc c = Some c'
    /\ c' = set_missingValues (missingValues c') c
    /\ if removalSelected actions c then c' = c
       else exists k, estimatedRemovals (missingValues c) R rc = RoundInt k
                      /\ 0 <= k /\ missingValues c' = Z.max 0 (missingValues c - k).
Proof.
  intros HR HRrc Hrc Hmv. unfold adjustColumn.
  destruct (removalSelected actions c); simpl.
  - exists c. repeat split. now destruct c.
  - destruct (estimatedRemovals_count (missingValues c) R rc) as (k & Ek & Hk); try lia.
    rewrite Ek. simpl. eexists. split; [reflexivity|]. split; [reflexivity|].
    exists k. repeat split; auto. simpl.
    destruct (Z.ltb_spec (missingValues c - k) 0); lia.
Qed.

End RemovalFacts.

(** C1, counterexample.  With 22 rows, 15 missing values in the column whose
    rows are removed and 11 in the other column, the exact quotient
    11 * 15 / 22 is 7.5, which rounds to 8 and would leave 3 missing values;
    the doubles 15 / 22 and 11 * (15 / 22) fall just below 7.5, the estimate
    is 7 and 4 missing values are left. *)
Lemma rounded_ratio_counterexample :
  applyToFile (twoColumns 22 15 11) [dropRowsOnA] = Some (twoColumns 7 0 4)
  /\ estimatedRemovals 11 15 22 = RoundInt 7
  /\ roundHalfUp (11 * 15) 22 = 8%Z
  /\ claimedMissing 11 15 22 = 3%Z
  /\ applyToFile (twoColumns 22 15 11) [dropRowsOnA]
     <> Some (twoColumns (Z.max 0 (22 - 15)) 0 (claimedMissing 11 15 22)).
Proof.
  assert (E : applyToFile (twoColumns 22 15 11) [dropRowsOnA] = Some (twoColumns 7 0 4))
    by (vm_compute; reflexivity).
  split; [exact E|]. split; [vm_compute; reflexivity|].
  split; [reflexivity|]. split; [reflexivity|].
  rewrite E. discriminate.
Qed.

(** One iteration of the file loop, for a profile whose counts are
    consistent with its row count and actions that name pairwise distinct
    columns.  The iteration yields a profile in which:
    - [R] being the maximum (0 without candidate) of the missing values,
      before the batch, of the columns reached by a [REMOVE_ROWS] action,
      [rowCount] is the former [rowCount] minus [R], floored at 0;
    - a column reached by a [REMOVE_ROWS] action has no missing value;
    - a column that no [REMOVE_ROWS] action names keeps everything but
      [missingValues], which, when [R > 0], is its value [v] after the
      per-column effects minus the estimate [Math.round(v * (R / rowCount))]
      computed on doubles, floored at 0, and is [v] when [R = 0];
    - a column that no action names enters this adjustment unchanged. *)
Lemma applyToFile_row_removal (fileProfile : FullProfileResult) (actions : list AppliedAction) :
  List.NoDup (map column actions) ->
  CountsWithinRows fileProfile ->
  let cols := columns fileProfile in
  let R := maxRowsRemoved actions cols in
  exists fileProfile',
    applyToFile fileProfile actions = Some fileProfile'
    /\ (forall a i c, In a actions -> isRemoveRows a = true ->
          firstNamed (column a) cols = Some (i, c) -> (missingValues c <= R)%Z)
    /\ (R = 0%Z \/ exists a i c, In a actions /\ isRemoveRows a = true
                                 /\ firstNamed (column a) cols = Some (i, c)
                                 /\ missingValues c = R)
    /\ rowCount fileProfile' = Z.max 0 (rowCount fileProfile - R)
    /\ (forall a i c, In a actions -> isRemoveRows a = true ->
          firstNamed (column a) cols = Some (i, c) ->
          exists c', columns fileProfile' !! i = Some c' /\ missingValues c' = 0%Z)
    /\ (forall i c1, afterActions actions cols !! i = Some c1 ->
          removalSelected actions c1 = false ->
          exists c', columns fileProfile' !! i = Some c'
            /\ c' = set_missingValues (missingValues c') c1
            /\ if (0 <? R)%Z
               then exists k, estimatedRemovals (missingValues c1) R (rowCount fileProfile)
                              = RoundInt k
                              /\ (0 <= k)%Z
                              /\ missingValues c' = Z.max 0 (missingValues c1 - k)
               else missingValues c' = missingValues c1)
    /\ (forall i c, cols !! i = Some c -> ~ In (name c) (map column actions) ->
          afterActions actions cols !! i = Some c).
Proof.
  intros Hnd Hwf cols R.
  pose proof (maxRowsRemoved_within fileProfile actions Hwf) as HR. fold cols in HR. fold R in HR.
  destruct (maxRowsRemoved_spec actions cols) as (_ & Hmax1 & Hmax2). fold R in Hmax1, Hmax2.
  assert (Htotal : exists fileProfile', applyToFile fileProfile actions = Some fileProfile').
  { rewrite (applyToFile_unfold _ _ Hnd). fold cols. fold R.
    destruct (Z.ltb_spec 0 R) as [HRpos|_]; [|eauto].
    destruct (mapM (adjustColumn actions R (rowCount fileProfile)) (afterActions actions cols))
      as [cols'|] eqn:Hm; simpl; [eauto|].
    exfalso. assert (Hs : is_Some (mapM (adjustColumn actions R (rowCount fileProfile))
                                     (afterActions actions cols))).
    { apply mapM_is_Some, Forall_lookup. intros i c1 Hc1. unfold compose.
      destruct (adjustColumn_within actions R (rowCount fileProfile) c1) as (c' & -> & _);
        try lia; [destruct Hwf; lia | eapply afterActions_within; eauto | eauto]. }
    rewrite Hm in Hs. now destruct Hs. }
  destruct Htotal as [fileProfile' Happ]. exists fileProfile'.
  destruct (applyToFile_columns _ _ _ Hnd Happ) as (Hrows & _ & _ & Hcols).
  fold cols in Hrows, Hcols. fold R in Hrows, Hcols.
  split; [exact Happ|]. split; [exact Hmax1|]. split; [exact Hmax2|].
  split.
  { rewrite Hrows. destruct (Z.ltb_spec 0 R); [reflexivity|]. destruct Hwf. lia. }
  split.
  { intros a i c Hin Hrem Hf.
    pose proof (afterActions_reached _ _ _ _ _ Hnd Hin Hf) as Hreached.
    specialize (Hcols i). fold cols in Hreached. rewrite Hreached in Hcols.
    destruct Hcols as (c' & Hc' & Hadj). exists c'. split; [exact Hc'|].
    assert (Hzero : missingValues (columnEffect (suggestion a) c) = 0%Z).
    { unfold isRemoveRows in Hrem. apply bool_decide_eq_true in Hrem.
      unfold columnEffect, applySuggestion. now rewrite Hrem. }
    destruct (0 <? R)%Z; [|now subst c'].
    unfold adjustColumn in Hadj.
    assert (Hsel : removalSelected actions (columnEffect (suggestion a) c) = true).
    { unfold removalSelected. apply existsb_exists. exists a. split; [exact Hin|].
      rewrite Hrem, columnEffect_name.
      destruct (firstNamed_lookup _ _ _ _ Hf) as [_ Hn].
      now rewrite bool_decide_eq_true_2. }
    rewrite Hsel in Hadj. simpl in Hadj. injection Hadj as <-. exact Hzero. }
  split.
  { intros i c1 Hc1 Hsel. specialize (Hcols i). rewrite Hc1 in Hcols.
    destruct Hcols as (c' & Hc' & Hadj). exists c'. split; [exact Hc'|].
    destruct (Z.ltb_spec 0 R) as [HRpos|_].
    - destruct (adjustColumn_within actions R (rowCount fileProfile) c1) as (c'' & E & Hset & Hk);
        try lia; [destruct Hwf; lia | eapply afterActions_within; eauto |].
      rewrite Hadj in E. injection E as <-. rewrite Hsel in Hk. auto.
    - subst c'. split; [now destruct c1 | reflexivity]. }
  intros i c Hc Hn. now apply afterActions_untouched.
Qed.


(** ** The cleaning simulator, all files *)

Section GroupFacts.

Lemma getGroup_pushAction a groups f :
  getGroup f (pushAction a groups)
  = if bool_decide (f = file a)
    then Some (default [] (getGroup f groups) ++ [a])
    else getGroup f groups.
Proof.
  unfold getGroup. induction groups as [|[g l] groups IH]; simpl.
  - destruct (bool_decide_reflect (f = file a)) as [->|Hf].
    + now rewrite bool_decide_eq_true_2.
    + now rewrite bool_decide_eq_false_2 by congruence.
  - destruct (bool_decide_reflect (g = file a)) as [->|Hg]; simpl.
    + destruct (bool_decide_reflect (file a = f)) as [<-|Hf]; simpl.
      * now rewrite bool_decide_eq_true_2.
      * now rewrite bool_decide_eq_false_2 by congruence.
    + destruct (bool_decide_reflect (g = f)) as [->|Hgf]; simpl.
      * now rewrite bool_decide_eq_false_2 by congruence.
      * exact IH.
Qed.

Lemma pushAction_keys a groups f :
  In f (map fst (pushAction a groups)) <-> f = file a \/ In f (map fst groups).
Proof.
  induction groups as [|[g l] groups IH]; simpl.
  - intuition.
  - destruct (bool_decide_reflect (g = file a)) as [->|Hg]; simpl.
    + intuition.
    + rewrite IH. intuition.
Qed.

Lemma pushAction_NoDup a groups :
  List.NoDup (map fst groups) -> List.NoDup (map fst (pushAction a groups)).
Proof.
  induction groups as [|[g l] groups IH]; simpl; intros Hnd.
  - repeat constructor. intros [].
  - inversion Hnd as [|? ? Hg Hnd']; subst.
    destruct (bool_decide_reflect (g = file a)) as [->|Hne]; simpl.
    + now constructor.
    + constructor; [|auto]. rewrite pushAction_keys. intros [->|Hin]; auto.
Qed.

Lemma actionsByFile_snoc actions a :
  actionsByFile (actions ++ [a]) = pushAction a (actionsByFile actions).
Proof. unfold actionsByFile. now rewrite foldl_app. Qed.

Lemma actionsByFile_NoDup actions : List.NoDup (map fst (actionsByFile actions)).
Proof.
  induction actions as [|a actions IH] using rev_ind.
  - constructor.
  - rewrite actionsByFile_snoc. now apply pushAction_NoDup.
Qed.

Lemma actionsOf_app f l1 l2 : actionsOf f (l1 ++ l2) = actionsOf f l1 ++ actionsOf f l2.
Proof. apply List.filter_app. Qed.

(** The record [actionsByFile] holds, for each file with an action, its
    actions in selection order. *)
Lemma getGroup_actionsByFile actions f :
  getGroup f (actionsByFile actions)
  = match actionsOf f actions with [] => None | l => Some l end.
Proof.
  induction actions as [|a actions IH] using rev_ind; [reflexivity|].
  rewrite actionsByFile_snoc, getGroup_pushAction, actionsOf_app, IH.
  unfold actionsOf at 2. simpl.
  destruct (bool_decide_reflect (f = file a)) as [->|Hf].
  - rewrite bool_decide_eq_true_2 by reflexivity.
    destruct (actionsOf (file a) actions); reflexivity.
  - rewrite bool_decide_eq_false_2 by congruence. now rewrite app_nil_r.
Qed.

Lemma applyToFile_nil fileProfile : applyToFile fileProfile [] = Some fileProfile.
Proof. unfold applyToFile. simpl. now destruct fileProfile. Qed.

Lemma foldl_applyGroup_None groups : foldl applyGroup None groups = None.
Proof. induction groups as [|g groups IH]; [reflexivity | exact IH]. Qed.

Lemma getGroup_absent f groups : ~ In f (map fst groups) -> getGroup f groups = None.
Proof.
  unfold getGroup. induction groups as [|[g l] groups IH]; simpl; [reflexivity|].
  intros Hn. rewrite bool_decide_eq_false_2 by tauto. apply IH. tauto.
Qed.

(** The file loop: each file is rewritten by its own group. *)
Lemma foldl_applyGroup groups :
  List.NoDup (map fst groups) ->
  forall np : gmap string FullProfileResult,
    match foldl applyGroup (Some np) groups with
    | Some res =>
        forall f, res !! f
                  = match getGroup f groups with
                    | Some l => np !! f ≫= fun fp => applyToFile fp l
                    | None => np !! f
                    end
                  /\ (forall l fp, getGroup f groups = Some l -> np !! f = Some fp ->
                                   is_Some (applyToFile fp l))
    | None =>
        exists f l fp, getGroup f groups = Some l /\ np !! f = Some fp
                       /\ applyToFile fp l = None
    end.
Proof.
  induction groups as [|[g l] groups IH]; intros Hnd np.
  - simpl. intros f. split; [reflexivity | discriminate].
  - inversion Hnd as [|? ? Hg Hnd']; subst.
    change (foldl applyGroup (Some np) ((g, l) :: groups))
      with (foldl applyGroup (applyGroup (Some np) (g, l)) groups).
    assert (Hhead : forall f, getGroup f ((g, l) :: groups)
                              = if bool_decide (g = f) then Some l else getGroup f groups).
    { intros f. unfold getGroup. simpl. now destruct (bool_decide (g = f)). }
    unfold applyGroup at 2. simpl.
    destruct (np !! g) as [fp|] eqn:Eg; simpl.
    + destruct (applyToFile fp l) as [fp'|] eqn:Eapp; simpl.
      * specialize (IH Hnd' (<[g:=fp']> np)).
        destruct (foldl applyGroup (Some (<[g:=fp']> np)) groups) as [res|].
        -- intros f. rewrite Hhead. destruct (IH f) as [IH1 IH2].
           destruct (bool_decide_reflect (g = f)) as [<-|Hgf].
           ++ rewrite IH1, getGroup_absent, lookup_insert_eq, Eg by exact Hg.
              simpl. split; [now rewrite Eapp|].
              intros l' fp0 [= <-] [= <-]. rewrite Eapp. eauto.
           ++ rewrite lookup_insert_ne in IH1, IH2 by exact Hgf. auto.
        -- destruct IH as (f & l' & fp0 & Hf & Hnp & Hnone).
           exists f, l', fp0. rewrite Hhead.
           destruct (bool_decide_reflect (g = f)) as [<-|Hgf].
           ++ rewrite getGroup_absent in Hf by exact Hg. discriminate.
           ++ rewrite lookup_insert_ne in Hnp by exact Hgf. auto.
      * rewrite foldl_applyGroup_None. exists g, l, fp. rewrite Hhead.
        now rewrite bool_decide_eq_true_2.
    + specialize (IH Hnd' np).
      destruct (foldl applyGroup (Some np) groups) as [res|].
      * intros f. rewrite Hhead. destruct (IH f) as [IH1 IH2].
        destruct (bool_decide_reflect (g = f)) as [<-|Hgf]; [|auto].
        rewrite IH1, getGroup_absent, Eg by exact Hg. simpl.
        split; [reflexivity | intros l' fp0 _ [=]].
      * destruct IH as (f & l' & fp0 & Hf & Hnp & Hnone).
        exists f, l', fp0. rewrite Hhead.
        destruct (bool_decide_reflect (g = f)) as [<-|Hgf]; [congruence | auto].
Qed.

(** The apply step, file by file: the profile of a file becomes the result
    of [applyToFile] on the actions staged for that file. *)
Lemma handleApplyChanges_files profiles (sel : Selections) :
  let actions := selectionValues sel in
  match handleApplyChanges profiles sel with
  | Some res =>
      forall f, res !! f = profiles !! f ≫= fun fp => applyToFile fp (actionsOf f actions)
  | None =>
      exists f fp, profiles !! f = Some fp /\ applyToFile fp (actionsOf f actions) = None
  end.
Proof.
  intros actions. unfold handleApplyChanges. fold actions.
  pose proof (foldl_applyGroup _ (actionsByFile_NoDup actions) profiles) as H.
  destruct (foldl applyGroup (Some profiles) (actionsByFile actions)) as [res|].
  - intros f. destruct (H f) as [H1 _]. rewrite H1, getGroup_actionsByFile.
    destruct (actionsOf f actions) eqn:E; [|reflexivity].
    destruct (profiles !! f); simpl; [now rewrite applyToFile_nil | reflexivity].
  - destruct H as (f & l & fp & Hf & Hp & Hnone). exists f, fp. split; [exact Hp|].
    rewrite getGroup_actionsByFile in Hf.
    destruct (actionsOf f actions); [discriminate | congruence].
Qed.

Lemma handleApplyChanges_Some profiles (sel : Selections) res :
  handleApplyChanges profiles sel = Some res ->
  forall f fp, profiles !! f = Some fp ->
               exists fp', applyToFile fp (actionsOf f (selectionValues sel)) = Some fp'
                           /\ res !! f = Some fp'.
Proof.
  intros Hres f fp Hp.
  pose proof (handleApplyChanges_files profiles sel) as H. rewrite Hres in H.
  specialize (H f). rewrite Hp in H. simpl in H.
  unfold handleApplyChanges in Hres.
  pose proof (foldl_applyGroup _ (actionsByFile_NoDup (selectionValues sel)) profiles) as H'.
  rewrite Hres in H'. destruct (H' f) as [_ H2].
  rewrite getGroup_actionsByFile in H2.
  destruct (actionsOf f (selectionValues sel)) as [|a l] eqn:E.
  - rewrite applyToFile_nil in *. eauto.
  - destruct (H2 (a :: l) fp eq_refl Hp) as [fp' Hfp']. rewrite Hfp' in H. eauto.
Qed.

(** Two batches that give every profiled file the same result give the same
    profiles. *)
Lemma handleApplyChanges_ext profiles (sel1 sel2 : Selections) :
  (forall f fp, profiles !! f = Some fp ->
     applyToFile fp (actionsOf f (selectionValues sel1))
     = applyToFile fp (actionsOf f (selectionValues sel2))) ->
  handleApplyChanges profiles sel1 = handleApplyChanges profiles sel2.
Proof.
  intros Hext.
  pose proof (handleApplyChanges_files profiles sel1) as H1.
  pose proof (handleApplyChanges_files profiles sel2) as H2.
  destruct (handleApplyChanges profiles sel1) as [res1|] eqn:E1;
    destruct (handleApplyChanges profiles sel2) as [res2|] eqn:E2.
  - f_equal. apply map_eq. intros f. rewrite H1, H2.
    destruct (profiles !! f) as [fp|] eqn:Ep; simpl; [now apply Hext | reflexivity].
  - destruct H2 as (f & fp & Hp & Hnone).
    destruct (handleApplyChanges_Some _ _ _ E1 f fp Hp) as (fp' & Hfp' & _).
    rewrite (Hext f fp Hp) in Hfp'. congruence.
  - destruct H1 as (f & fp & Hp & Hnone).
    destruct (handleApplyChanges_Some _ _ _ E2 f fp Hp) as (fp' & Hfp' & _).
    rewrite <- (Hext f fp Hp) in Hfp'. congruence.
  - reflexivity.
Qed.

Lemma getGroup_In f l groups :
  List.NoDup (map fst groups) -> (getGroup f groups = Some l <-> In (f, l) groups).
Proof.
  unfold getGroup. induction groups as [|[g l0] groups IH]; simpl; intros Hnd.
  - split; [discriminate | tauto].
  - inversion Hnd as [|? ? Hg Hnd']; subst.
    destruct (bool_decide_reflect (g = f)) as [->|Hgf]; simpl.
    + split; [intros [= ->]; auto|]. intros [[= ->]|Hin]; [reflexivity|].
      exfalso. apply Hg. change f with (fst (f, l)). now apply in_map.
    + rewrite (IH Hnd'). split; [auto|]. intros [[= -> _]|Hin]; [contradiction | exact Hin].
Qed.

(** The order in which [for ... in] visits the files does not matter. *)
Lemma foldl_applyGroup_order groups groups' (np : gmap string FullProfileResult) :
  List.NoDup (map fst groups) -> Permutation groups groups' ->
  foldl applyGroup (Some np) groups = foldl applyGroup (Some np) groups'.
Proof.
  intros Hnd Hperm.
  assert (Hnd' : List.NoDup (map fst groups')).
  { eapply Permutation_NoDup; [|exact Hnd]. now apply Permutation_map. }
  assert (Hget : forall f, getGroup f groups = getGroup f groups').
  { intros f. destruct (getGroup f groups) as [l|] eqn:E.
    - symmetry. apply getGroup_In; [exact Hnd'|].
      eapply Permutation_in; [exact Hperm|]. now apply getGroup_In.
    - destruct (getGroup f groups') as [l|] eqn:E'; [|reflexivity].
      apply getGroup_In in E'; [|exact Hnd'].
      apply Permutation_sym in Hperm.
      pose proof (Permutation_in _ Hperm E') as Hin.
      apply getGroup_In in Hin; [congruence | exact Hnd]. }
  pose proof (foldl_applyGroup groups Hnd np) as H.
  pose proof (foldl_applyGroup groups' Hnd' np) as H'.
  destruct (foldl applyGroup (Some np) groups) as [res|];
    destruct (foldl applyGroup (Some np) groups') as [res'|].
  - f_equal. apply map_eq. intros f.
    destruct (H f) as [-> _], (H' f) as [-> _]. now rewrite Hget.
  - destruct H' as (f & l & fp & Hf & Hnp & Hnone).
    destruct (H f) as [_ H2]. rewrite <- Hget in Hf.
    destruct (H2 l fp Hf Hnp) as [fp' Hfp']. congruence.
  - destruct H as (f & l & fp & Hf & Hnp & Hnone).
    destruct (H' f) as [_ H2]. rewrite Hget in Hf.
    destruct (H2 l fp Hf Hnp) as [fp' Hfp']. congruence.
  - reflexivity.
Qed.

End GroupFacts.

(** ** Stale selections *)

Section StaleFacts.

Lemma applyAction_names st a : map name (applyAction st a).1 = map name st.1.
Proof.
  unfold applyAction. destruct (list_find _ _) as [[i col]|] eqn:E; [|reflexivity].
  apply list_find_Some in E as (Hi & _ & _).
  destruct (applySuggestion (suggestion a) col st.2) as [col' m] eqn:Eapp. simpl.
  eapply insert_names; [exact Hi|].
  assert (col' = columnEffect (suggestion a) col) as ->
    by (rewrite <- (applySuggestion_fst _ _ st.2), Eapp; reflexivity).
  apply columnEffect_name.
Qed.

Lemma foldl_applyAction_names actions :
  forall st, map name (foldl applyAction st actions).1 = map name st.1.
Proof.
  induction actions as [|a actions IH]; intros st; [reflexivity|].
  simpl. now rewrite IH, applyAction_names.
Qed.

Lemma firstNamed_absent n cols :
  firstNamed n cols = None <-> ~ In n (map name cols).
Proof.
  unfold firstNamed. rewrite list_find_None, Forall_forall, in_map_iff. split.
  - intros H (c & Hn & Hc). apply (H c); [now apply list_elem_of_In | exact Hn].
  - intros H c Hc Hn. apply H. exists c. split; [exact Hn | now apply list_elem_of_In].
Qed.

Lemma applyAction_stale st a :
  ~ In (column a) (map name st.1) -> applyAction st a = st.
Proof.
  intros Hn. unfold applyAction. fold (firstNamed (column a) st.1).
  now rewrite (proj2 (firstNamed_absent _ _) Hn).
Qed.

Lemma foldl_stale actions1 a actions2 st :
  ~ In (column a) (map name st.1) ->
  foldl applyAction st (actions1 ++ a :: actions2)
  = foldl applyAction st (actions1 ++ actions2).
Proof.
  intros Hn. rewrite !foldl_app.
  change (foldl applyAction (foldl applyAction st actions1) (a :: actions2))
    with (foldl applyAction (applyAction (foldl applyAction st actions1) a) actions2).
  rewrite applyAction_stale; [reflexivity|].
  now rewrite foldl_applyAction_names.
Qed.

Lemma removalSelected_stale l1 a l2 c :
  name c <> column a ->
  removalSelected (l1 ++ a :: l2) c = removalSelected (l1 ++ l2) c.
Proof.
  intros Hn. unfold removalSelected. rewrite !existsb_app. simpl.
  now rewrite bool_decide_eq_false_2 by congruence.
Qed.

Lemma mapM_ext_in {A B} (f g : A -> option B) (l : list A) :
  (forall x, In x l -> f x = g x) -> mapM f l = mapM g l.
Proof.
  induction l as [|x l IH]; intros Hext; [reflexivity|].
  simpl. rewrite (Hext x) by (simpl; auto).
  rewrite IH by (intros; apply Hext; simpl; auto). reflexivity.
Qed.

(** An action on a column that the profile does not have changes nothing
    in the iteration of its file. *)
Lemma applyToFile_stale fileProfile l1 a l2 :
  ~ In (column a) (map name (columns fileProfile)) ->
  applyToFile fileProfile (l1 ++ a :: l2) = applyToFile fileProfile (l1 ++ l2).
Proof.
  intros Hn. unfold applyToFile. rewrite foldl_stale by exact Hn.
  pose proof (foldl_applyAction_names (l1 ++ l2) (columns fileProfile, 0%Z)) as Hnames.
  destruct (foldl applyAction (columns fileProfile, 0%Z) (l1 ++ l2)) as [cols R].
  simpl in Hnames. destruct (0 <? R)%Z; [|reflexivity].
  rewrite (mapM_ext_in (adjustColumn (l1 ++ a :: l2) R (rowCount fileProfile))
                       (adjustColumn (l1 ++ l2) R (rowCount fileProfile))); [reflexivity|].
  intros c Hc. unfold adjustColumn. rewrite removalSelected_stale; [reflexivity|].
  intros E. apply Hn. rewrite <- Hnames, <- E. now apply in_map.
Qed.

End StaleFacts.

(** C9. A staged selection whose file has no profile, or whose column is
    not a column of the profile of its file, is ignored by the apply step:
    the action loop leaves the columns and the maximum of removed rows as
    they are, and the profiles handed to [setProfiles] are those obtained
    without the selection.  The apply step has no failing operation: the
    file is skipped by [continue], the column by [return]. *)
Theorem stale_selection_ignored (profiles : gmap string FullProfileResult)
    (before after : Selections) (key : string) (stale : AppliedAction) :
  profiles !! file stale = None
  \/ (exists fileProfile, profiles !! file stale = Some fileProfile
                          /\ ~ In (column stale) (map name (columns fileProfile))) ->
  handleApplyChanges profiles (before ++ (key, stale) :: after)
  = handleApplyChanges profiles (before ++ after)
  /\ (forall fileProfile l1 l2,
        profiles !! file stale = Some fileProfile ->
        foldl applyAction (columns fileProfile, 0%Z) (l1 ++ stale :: l2)
        = foldl applyAction (columns fileProfile, 0%Z) (l1 ++ l2))
  /\ (forall st, ~ In (column stale) (map name st.1) -> applyAction st stale = st)
  /\ (forall np, np !! file stale = None ->
        forall l, applyGroup (Some np) (file stale, l) = Some np).
Proof.
  intros Hstale. repeat split.
  - apply handleApplyChanges_ext. intros f fp Hp.
    unfold selectionValues. rewrite !map_app, !actionsOf_app. simpl.
    unfold actionsOf at 2. simpl.
    destruct (bool_decide_reflect (file stale = f)) as [<-|Hf]; [|reflexivity].
    destruct Hstale as [Hnone | (fp' & Hfp' & Hcol)]; [congruence|].
    assert (fp' = fp) by congruence. subst fp'.
    now apply applyToFile_stale.
  - intros fp l1 l2 Hp.
    destruct Hstale as [Hnone | (fp' & Hfp' & Hcol)]; [congruence|].
    assert (fp' = fp) by congruence. subst fp'. now apply foldl_stale.
  - intros st Hn. now apply applyAction_stale.
  - intros np Hnp l. unfold applyGroup. simpl. now rewrite Hnp.
Qed.

Lemma stale_selection_ignored_witness :
  let profiles : gmap string FullProfileResult := {[ "sales.csv" := twoColumns 100 10 20 ]} in
  let ghost := {| file := "sales.csv"; column := "ghost"; suggestion := dropRows |} in
  handleApplyChanges profiles ([("sales.csv-A", dropRowsOnA)] ++ [("sales.csv-ghost", ghost)])
  = handleApplyChanges profiles ([("sales.csv-A", dropRowsOnA)] ++ []).
Proof.
  intros profiles ghost.
  refine (proj1 (stale_selection_ignored profiles [("sales.csv-A", dropRowsOnA)] []
                   "sales.csv-ghost" ghost _)).
  right. exists (twoColumns 100 10 20). split.
  - vm_compute. reflexivity.
  - simpl. intros [E|[E|[]]]; discriminate E.
Defined.

(** ** The apply step on the store *)

Section StoreFacts.
Implicit Types h : Store.

Lemma profileAt_insert_ne h l l' o :
  l <> l' -> profileAt (<[l':=o]> h) l = profileAt h l.
Proof. intros Hne. unfold profileAt. now rewrite lookup_insert_ne by congruence. Qed.

Lemma profileAt_insert_eq h l p : profileAt (<[l:=ObjProfile p]> h) l = Some p.
Proof. unfold profileAt. now rewrite lookup_insert_eq. Qed.

Lemma profileAt_dom h l : is_Some (profileAt h l) -> l ∈ dom h.
Proof.
  unfold profileAt. intros [p Hp]. apply elem_of_dom.
  destruct (h !! l); [eauto | discriminate].
Qed.

Lemma entryOf_In f entries l : entryOf f entries = Some l -> In l (map snd entries).
Proof.
  unfold entryOf. induction entries as [|[g l0] entries IH]; simpl; [discriminate|].
  destruct (bool_decide (g = f)); simpl; [intros [= ->]; auto | auto].
Qed.

(** The copy: new objects with the contents of the old ones, which are left
    as they are. *)
Lemma copyEntries_spec entries : forall h,
  Forall (fun e => is_Some (profileAt h e.2)) entries ->
  exists entries' h',
    copyEntries entries h = Some (entries', h')
    /\ Forall2 (fun e e' => e'.1 = e.1 /\ profileAt h' e'.2 = profileAt h e.2
                            /\ e'.2 ∉ dom h) entries entries'
    /\ (forall l, l ∈ dom h -> h' !! l = h !! l)
    /\ List.NoDup (map snd entries').
Proof.
  induction entries as [|[f l] entries IH]; intros h Hall.
  - exists [], h. repeat split; constructor.
  - inversion Hall as [|? ? [p Hp] Hrest]; subst. simpl in Hp. simpl. rewrite Hp.
    set (l' := fresh (dom h)).
    assert (Hl' : l' ∉ dom h) by apply is_fresh.
    set (h0 := <[l':=ObjProfile p]> h).
    assert (Hsame : forall l0, l0 ∈ dom h -> profileAt h0 l0 = profileAt h l0).
    { intros l0 Hl0. apply profileAt_insert_ne. intros ->. contradiction. }
    destruct (IH h0) as (rest' & h' & Hcopy & Hrel & Hframe & Hnd).
    { eapply Forall_impl; [exact Hrest|]. intros e He. simpl.
      rewrite Hsame; [exact He | now apply profileAt_dom]. }
    rewrite Hcopy. exists ((f, l') :: rest'), h'.
    assert (Hdom0 : forall l0, l0 ∈ dom h -> l0 ∈ dom h0).
    { intros l0 Hl0. unfold h0. rewrite dom_insert_L. set_solver. }
    split; [reflexivity|]. split; [|split].
    + constructor.
      * simpl. split; [reflexivity|]. split; [|exact Hl'].
        unfold profileAt at 1. rewrite Hframe by (unfold h0; rewrite dom_insert_L; set_solver).
        unfold h0. now rewrite lookup_insert_eq, Hp.
      * apply Forall2_same_length_lookup in Hrel as [Hlen Hrel].
        apply Forall2_same_length_lookup. split; [exact Hlen|].
        intros i e e' He He'. destruct (Hrel i e e' He He') as (Hk & Hpa & Hfresh).
        pose proof (Forall_lookup_1 _ _ _ _ Hrest He) as Hsome. simpl in Hsome.
        split; [exact Hk|]. split; [|intros Hin; apply Hfresh; auto].
        rewrite Hpa. apply Hsame. now apply profileAt_dom.
    + intros l0 Hl0. rewrite Hframe by auto. unfold h0.
      apply lookup_insert_ne. intros ->. contradiction.
    + simpl. constructor; [|exact Hnd].
      intros Hin. apply in_map_iff in Hin as (e' & He' & Hin).
      apply list_elem_of_In, list_elem_of_lookup in Hin as [i Hi].
      destruct (Forall2_lookup_r _ _ _ _ _ Hrel Hi) as (e & _ & _ & _ & Hfresh).
      apply Hfresh. rewrite He'. unfold h0. rewrite dom_insert_L. set_solver.
Qed.

Lemma entryOf_copy f entries entries' h h' :
  Forall2 (fun e e' => e'.1 = e.1 /\ profileAt h' e'.2 = profileAt h e.2
                       /\ e'.2 ∉ dom h) entries entries' ->
  entryOf f entries' ≫= profileAt h' = entryOf f entries ≫= profileAt h.
Proof.
  unfold entryOf. induction 1 as [|[g l] [g' l'] entries entries' (Hk & Hpa & _) _ IH];
    [reflexivity|].
  simpl in *. subst g'. destruct (bool_decide (g = f)); simpl; auto.
Qed.

(** The file loop writes to the objects of the record only. *)
Lemma foldl_applyGroupStore_frame entries groups : forall h h',
  foldl (applyGroupStore entries) (Some h) groups = Some h' ->
  forall l, ~ In l (map snd entries) -> h' !! l = h !! l.
Proof.
  induction groups as [|g groups IH]; intros h h' Hloop l Hl.
  - simpl in Hloop. now injection Hloop as <-.
  - change (foldl (applyGroupStore entries) (Some h) (g :: groups))
      with (foldl (applyGroupStore entries) (applyGroupStore entries (Some h) g) groups)
      in Hloop.
    destruct (applyGroupStore entries (Some h) g) as [h1|] eqn:Estep.
    + rewrite (IH h1 h' Hloop l Hl).
      unfold applyGroupStore in Estep. simpl in Estep.
      destruct (entryOf g.1 entries) as [l0|] eqn:El0; [|now injection Estep as <-].
      destruct (profileAt h l0) as [fp|]; simpl in Estep; [|discriminate].
      destruct (applyToFile fp g.2) as [fp'|]; simpl in Estep; [|discriminate].
      injection Estep as <-. apply lookup_insert_ne.
      intros ->. apply Hl. eapply entryOf_In; eauto.
    + exfalso. clear -Hloop. induction groups as [|g' groups IH]; [discriminate | auto].
Qed.

Lemma entryOf_elem f entries l : entryOf f entries = Some l -> In (f, l) entries.
Proof.
  unfold entryOf. induction entries as [|[g l0] entries IH]; simpl; [discriminate|].
  destruct (bool_decide_reflect (g = f)) as [->|]; simpl; [intros [= ->]; auto | auto].
Qed.

Lemma entries_injective (entries : list (string * loc)) f1 f2 l :
  List.NoDup (map snd entries) -> In (f1, l) entries -> In (f2, l) entries -> f1 = f2.
Proof.
  induction entries as [|[g l0] entries IH]; simpl; intros Hnd H1 H2; [contradiction|].
  inversion Hnd as [|? ? Hl0 Hnd']; subst.
  destruct H1 as [E1|H1], H2 as [E2|H2]; [congruence | | | auto].
  - injection E1 as -> ->. exfalso. apply Hl0.
    change l with (snd (f2, l)). now apply in_map.
  - injection E2 as -> ->. exfalso. apply Hl0.
    change l with (snd (f1, l)). now apply in_map.
Qed.

Lemma foldl_applyGroupStore_None entries groups :
  foldl (applyGroupStore entries) None groups = None.
Proof. induction groups as [|g groups IH]; [reflexivity | exact IH]. Qed.

(** The file loop on the store computes what the file loop on values
    computes. *)
Lemma foldl_applyGroupStore_sim entries groups :
  List.NoDup (map snd entries) ->
  forall h np, Sim entries h np ->
    match foldl applyGroup (Some np) groups with
    | Some np' => exists h', foldl (applyGroupStore entries) (Some h) groups = Some h'
                             /\ Sim entries h' np'
    | None => foldl (applyGroupStore entries) (Some h) groups = None
    end.
Proof.
  intros Hnd. induction groups as [|[f acts] groups IH]; intros h np [Hview Hobjs].
  - simpl. exists h. split; [reflexivity | split; assumption].
  - change (foldl applyGroup (Some np) ((f, acts) :: groups))
      with (foldl applyGroup (applyGroup (Some np) (f, acts)) groups).
    change (foldl (applyGroupStore entries) (Some h) ((f, acts) :: groups))
      with (foldl (applyGroupStore entries) (applyGroupStore entries (Some h) (f, acts)) groups).
    unfold applyGroup at 2, applyGroupStore at 2. simpl.
    rewrite (Hview f).
    destruct (entryOf f entries) as [l|] eqn:El; simpl.
    + assert (Hin : In (f, l) entries) by now apply entryOf_elem.
      rewrite Forall_forall in Hobjs.
      destruct (Hobjs (f, l) (proj2 (list_elem_of_In _ _) Hin)) as [fp Hfp]. simpl in Hfp.
      rewrite Hfp. simpl.
      destruct (applyToFile fp acts) as [fp'|]; simpl.
      * apply IH. split.
        -- intros f2. destruct (decide (f = f2)) as [<-|Hne].
           ++ now rewrite lookup_insert_eq, El; simpl; rewrite profileAt_insert_eq.
           ++ rewrite lookup_insert_ne by exact Hne. rewrite Hview.
              destruct (entryOf f2 entries) as [l2|] eqn:El2; simpl; [|reflexivity].
              symmetry. apply profileAt_insert_ne. intros ->.
              apply Hne. eapply entries_injective; eauto using entryOf_elem.
        -- apply Forall_forall. intros e He. destruct (decide (e.2 = l)) as [->|Hne].
           ++ rewrite profileAt_insert_eq. eauto.
           ++ rewrite profileAt_insert_ne by exact Hne. auto.
      * rewrite foldl_applyGroup_None. apply foldl_applyGroupStore_None.
    + apply IH. split; assumption.
Qed.

(** The JSON round trip: a new record of new objects that stands for the
    same profile map, beside the old objects. *)
Lemma deepCopy_spec h root profiles :
  Represents h root profiles ->
  exists newRoot entries' h1,
    deepCopy h root = Some (newRoot, h1)
    /\ h1 !! newRoot = Some (ObjRecord entries')
    /\ (newRoot ∉ dom h)
    /\ List.NoDup (map snd entries')
    /\ (forall l, In l (map snd entries') -> l ∉ dom h)
    /\ Sim entries' h1 profiles
    /\ (forall l, l ∈ dom h -> h1 !! l = h !! l).
Proof.
  intros (entries & Hroot & Hview & Hobjs).
  destruct (copyEntries_spec entries h Hobjs) as (entries' & h' & Hcopy & Hrel & Hframe & Hnd).
  unfold deepCopy. rewrite Hroot, Hcopy.
  set (newRoot := fresh (dom h')).
  assert (Hfresh : newRoot ∉ dom h') by apply is_fresh.
  assert (Hsub : forall l, l ∈ dom h -> l ∈ dom h').
  { intros l Hl. apply elem_of_dom. rewrite Hframe by exact Hl. now apply elem_of_dom. }
  assert (Hnew : forall e', In e' entries' ->
            is_Some (profileAt h' e'.2) /\ e'.2 ∉ dom h).
  { intros e' He'. apply list_elem_of_In, list_elem_of_lookup in He' as [i Hi].
    destruct (Forall2_lookup_r _ _ _ _ _ Hrel Hi) as (e & He & _ & Hpa & Hdom).
    split; [|exact Hdom]. rewrite Hpa.
    exact (Forall_lookup_1 _ _ _ _ Hobjs He). }
  assert (Hne : forall e', In e' entries' -> e'.2 <> newRoot).
  { intros e' He' E. apply Hfresh. rewrite <- E.
    apply profileAt_dom. now apply Hnew. }
  exists newRoot, entries', (<[newRoot:=ObjRecord entries']> h').
  split; [reflexivity|]. split; [apply lookup_insert_eq|].
  split; [intros Hin; apply Hfresh; auto|]. split; [exact Hnd|].
  split.
  { intros l Hl. apply in_map_iff in Hl as (e' & <- & He'). now apply Hnew. }
  split.
  - split.
    + intros f. rewrite Hview, <- (entryOf_copy f entries entries' h h' Hrel).
      destruct (entryOf f entries') as [l'|] eqn:El'; simpl; [|reflexivity].
      symmetry. apply profileAt_insert_ne.
      apply (Hne (f, l')). now apply entryOf_elem.
    + apply Forall_forall. intros e' He'. apply list_elem_of_In in He'.
      rewrite profileAt_insert_ne by now apply Hne. now apply Hnew.
  - intros l Hl. rewrite lookup_insert_ne; [now apply Hframe|].
    intros <-. apply Hfresh. auto.
Qed.

End StoreFacts.

(** C8. The apply step on the store.  From a store in which the record
    [root] stands for the profile map [profiles]:
    - the run ends with one call of [setProfiles] followed by [onProceed];
      the record handed over is a new object, it stands for the profile map
      computed by [handleApplyChanges] on values, and every object of the
      initial store, among them the record [root] and the file profiles it
      refers to, is as it was, so that [root] still stands for [profiles];
    - after any number of iterations of the file loop the objects of the
      initial store are as they were: the writes go to the copy;
    - a file without staged action has, in the result, the profile it had. *)
Theorem apply_changes_on_store (h : Store) (root : loc)
    (profiles : gmap string FullProfileResult) (selectedActions : Selections) :
  Represents h root profiles ->
  match handleApplyChanges profiles selectedActions with
  | Some res =>
      exists h' newRoot,
        handleApplyChangesStore h root selectedActions
        = Some (h', [SetProfiles newRoot; OnProceed])
        /\ (newRoot ∉ dom h)
        /\ Represents h' newRoot res
        /\ (forall l, l ∈ dom h -> h' !! l = h !! l)
        /\ Represents h' root profiles
  | None => handleApplyChangesStore h root selectedActions = None
  end
  /\ (forall k newRoot hk,
        runFileLoop h root (take k (actionsByFile (selectionValues selectedActions)))
        = Some (newRoot, hk) ->
        (newRoot ∉ dom h) /\ forall l, l ∈ dom h -> hk !! l = h !! l)
  /\ (forall res f,
        handleApplyChanges profiles selectedActions = Some res ->
        actionsOf f (selectionValues selectedActions) = [] ->
        res !! f = profiles !! f).
Proof.
  intros Hrep.
  destruct (deepCopy_spec h root profiles Hrep)
    as (newRoot & entries' & h1 & Hcopy & Hnew & Hfresh & Hnd & Hlocs & Hsim & Hframe).
  assert (Hloop : forall groups h2,
            foldl (applyGroupStore entries') (Some h1) groups = Some h2 ->
            h2 !! newRoot = Some (ObjRecord entries')
            /\ forall l, l ∈ dom h -> h2 !! l = h !! l).
  { intros groups h2 Hrun.
    pose proof (foldl_applyGroupStore_frame entries' groups h1 h2 Hrun) as Hfr.
    split.
    - rewrite Hfr; [exact Hnew|]. intros Hin.
      destruct Hsim as [_ Hobjs]. apply in_map_iff in Hin as (e' & E & He').
      rewrite Forall_forall in Hobjs.
      destruct (Hobjs e' (proj2 (list_elem_of_In _ _) He')) as [p Hp].
      unfold profileAt in Hp. rewrite E, Hnew in Hp. discriminate.
    - intros l Hl. rewrite Hfr; [now apply Hframe|]. intros Hin. now apply (Hlocs l). }
  split; [|split].
  - unfold handleApplyChangesStore, runFileLoop. rewrite Hcopy, Hnew.
    unfold handleApplyChanges.
    pose proof (foldl_applyGroupStore_sim entries'
                  (actionsByFile (selectionValues selectedActions)) Hnd h1 profiles Hsim) as H.
    destruct (foldl applyGroup (Some profiles) _) as [res|].
    + destruct H as (h' & Hrun & Hsim'). rewrite Hrun. simpl.
      destruct (Hloop _ _ Hrun) as [Hroot' Hold].
      exists h', newRoot. split; [reflexivity|]. split; [exact Hfresh|].
      split; [exists entries'; auto|]. split; [exact Hold|].
      destruct Hrep as (entries & Hroot & Hview & Hobjs).
      exists entries. split.
      { rewrite Hold; [exact Hroot | apply elem_of_dom; eauto]. }
      assert (Hsame : forall e, e ∈ entries -> profileAt h' e.2 = profileAt h e.2).
      { intros e He. rewrite Forall_forall in Hobjs.
        unfold profileAt. rewrite Hold; [reflexivity|].
        apply profileAt_dom. auto. }
      split.
      * intros f. rewrite Hview.
        destruct (entryOf f entries) as [l|] eqn:El; simpl; [|reflexivity].
        symmetry. apply (Hsame (f, l)). apply list_elem_of_In. now apply entryOf_elem.
      * apply Forall_forall. intros e He. rewrite Hsame by exact He.
        rewrite Forall_forall in Hobjs. auto.
    + now rewrite H.
  - intros k newRoot' hk. unfold runFileLoop. rewrite Hcopy, Hnew.
    destruct (foldl (applyGroupStore entries') (Some h1) _) as [h2|] eqn:Hrun;
      simpl; [|discriminate].
    intros [= <- <-]. split; [exact Hfresh|]. now apply (Hloop _ _ Hrun).
  - intros res f Hres Hnone.
    pose proof (handleApplyChanges_files profiles selectedActions) as H.
    rewrite Hres in H. rewrite H, Hnone.
    destruct (profiles !! f); simpl; [apply applyToFile_nil | reflexivity].
Qed.

Lemma apply_changes_on_store_witness :
  match handleApplyChanges sampleProfiles [("sales.csv-A", dropRowsOnA)] with
  | Some res =>
      exists h' newRoot,
        handleApplyChangesStore sampleStore 1%positive [("sales.csv-A", dropRowsOnA)]
        = Some (h', [SetProfiles newRoot; OnProceed])
        /\ (newRoot ∉ dom sampleStore)
        /\ Represents h' newRoot res
        /\ (forall l, l ∈ dom sampleStore -> h' !! l = sampleStore !! l)
        /\ Represents h' 1%positive sampleProfiles
  | None =>
      handleApplyChangesStore sampleStore 1%positive [("sales.csv-A", dropRowsOnA)] = None
  end.
Proof.
  refine (proj1 (apply_changes_on_store sampleStore 1%positive sampleProfiles
                   [("sales.csv-A", dropRowsOnA)] _)).
  exists [("sales.csv", 2%positive)]. split; [vm_compute; reflexivity|]. split.
  - intros f. unfold sampleProfiles, entryOf. simpl.
    destruct (bool_decide_reflect ("sales.csv" = f)) as [<-|Hf].
    + vm_compute. reflexivity.
    + now rewrite lookup_singleton_ne.
  - constructor; [|constructor]. exists (twoColumns 100 10 20). vm_compute. reflexivity.
Defined.

(** ** The removal of rows, in the apply step *)

Lemma actionsOf_columns_NoDup f (actions : list AppliedAction) :
  List.NoDup (map (fun a => (file a, column a)) actions) ->
  List.NoDup (map column (actionsOf f actions)).
Proof.
  induction actions as [|a actions IH]; simpl; intros Hnd; [constructor|].
  inversion Hnd as [|? ? Ha Hnd']; subst.
  destruct (bool_decide_reflect (file a = f)) as [Hf|Hf]; simpl; [|auto].
  constructor; [|auto]. intros Hin. apply Ha.
  apply in_map_iff in Hin as (b & Hb & Hin).
  apply filter_In in Hin as [Hin Hfb]. apply bool_decide_eq_true in Hfb.
  apply in_map_iff. exists b. split; [congruence | exact Hin].
Qed.

Lemma reachable_columns_NoDup sel f :
  ReachableSelections sel ->
  List.NoDup (map column (actionsOf f (selectionValues sel))).
Proof.
  intros Hr. apply actionsOf_columns_NoDup. unfold selectionValues.
  rewrite map_map. now apply reachable_one_per_pair.
Qed.

(** C1, as amended.  Let the staged selections be a state reached through
    [handleActionSelect] and let the counts of every profile be consistent
    with its row count.  The apply step then yields profiles, and for a file
    [f] with a profile, [actions] being the selections staged for [f]:
    - [R] being the maximum (0 without candidate, never the sum) of the
      missing values, before the batch, of the columns reached by a
      [REMOVE_ROWS] action, the new [rowCount] is the former one minus [R],
      floored at 0;
    - a column reached by a [REMOVE_ROWS] action has no missing value left;
    - a column that no [REMOVE_ROWS] action names keeps everything but
      [missingValues], which, when [R > 0], is its value [v] after the
      per-column effects minus the estimate [Math.round(v * (R / rowCount))]
      computed on doubles, floored at 0, and is [v] when [R = 0];
    - a column that no action names enters this adjustment unchanged.
    On the sample of the specification (100 rows, 10 missing values in the
    removed column, 20 in the other) the result has 90 rows and 0 and 18
    missing values. *)
Theorem apply_row_removal (profiles : gmap string FullProfileResult)
    (selectedActions : Selections) (f : string) (fileProfile : FullProfileResult) :
  ReachableSelections selectedActions ->
  (forall g fp, profiles !! g = Some fp -> CountsWithinRows fp) ->
  profiles !! f = Some fileProfile ->
  let actions := actionsOf f (selectionValues selectedActions) in
  let cols := columns fileProfile in
  let R := maxRowsRemoved actions cols in
  exists res fileProfile',
    handleApplyChanges profiles selectedActions = Some res
    /\ res !! f = Some fileProfile'
    /\ (forall a i c, In a actions -> isRemoveRows a = true ->
          firstNamed (column a) cols = Some (i, c) -> (missingValues c <= R)%Z)
    /\ (R = 0%Z \/ exists a i c, In a actions /\ isRemoveRows a = true
                                 /\ firstNamed (column a) cols = Some (i, c)
                                 /\ missingValues c = R)
    /\ rowCount fileProfile' = Z.max 0 (rowCount fileProfile - R)
    /\ (forall a i c, In a actions -> isRemoveRows a = true ->
          firstNamed (column a) cols = Some (i, c) ->
          exists c', columns fileProfile' !! i = Some c' /\ missingValues c' = 0%Z)
    /\ (forall i c1, afterActions actions cols !! i = Some c1 ->
          removalSelected actions c1 = false ->
          exists c', columns fileProfile' !! i = Some c'
            /\ c' = set_missingValues (missingValues c') c1
            /\ if (0 <? R)%Z
               then exists k, estimatedRemovals (missingValues c1) R (rowCount fileProfile)
                              = RoundInt k
                              /\ (0 <= k)%Z
                              /\ missingValues c' = Z.max 0 (missingValues c1 - k)
               else missingValues c' = missingValues c1)
    /\ (forall i c, cols !! i = Some c -> ~ In (name c) (map column actions) ->
          afterActions actions cols !! i = Some c)
    /\ handleApplyChanges sampleProfiles (handleActionSelect "sales.csv" "A" dropRows [])
       = Some {[ "sales.csv" := twoColumns 90 0 18 ]}.
Proof.
  intros Hreach Hwf Hf actions cols R.
  assert (Hsome : exists res, handleApplyChanges profiles selectedActions = Some res).
  { pose proof (handleApplyChanges_files profiles selectedActions) as H.
    destruct (handleApplyChanges profiles selectedActions) as [res|]; [eauto|].
    destruct H as (g & fp & Hg & Hnone). exfalso.
    destruct (applyToFile_row_removal fp (actionsOf g (selectionValues selectedActions))
                (reachable_columns_NoDup _ g Hreach) (Hwf g fp Hg)) as (fp' & Hfp' & _).
    congruence. }
  destruct Hsome as [res Hres].
  destruct (handleApplyChanges_Some _ _ _ Hres f fileProfile Hf) as (fileProfile' & Happ & Hlook).
  destruct (applyToFile_row_removal fileProfile actions
              (reachable_columns_NoDup _ f Hreach) (Hwf f fileProfile Hf))
    as (fp'' & Happ' & H1 & H2 & H3 & H4 & H5 & H6).
  fold actions in Happ. assert (fp'' = fileProfile') by congruence. subst fp''.
  exists res, fileProfile'.
  split; [exact Hres|]. split; [exact Hlook|]. split; [exact H1|]. split; [exact H2|].
  split; [exact H3|]. split; [exact H4|]. split; [exact H5|]. split; [exact H6|].
  vm_compute. reflexivity.
Qed.

Lemma apply_row_removal_witness :
  exists res fileProfile',
    handleApplyChanges sampleProfiles (handleActionSelect "sales.csv" "A" dropRows [])
    = Some res
    /\ res !! "sales.csv" = Some fileProfile'
    /\ rowCount fileProfile' = 90%Z.
Proof.
  assert (Hwf : forall g fp, sampleProfiles !! g = Some fp -> CountsWithinRows fp).
  { intros g fp. unfold sampleProfiles.
    destruct (decide (g = "sales.csv")) as [->|Hg].
    - rewrite lookup_singleton_eq. intros [= <-].
      split; [simpl; lia|]. simpl. repeat constructor; simpl; lia.
    - rewrite lookup_singleton_ne by congruence. discriminate. }
  destruct (apply_row_removal sampleProfiles (handleActionSelect "sales.csv" "A" dropRows [])
              "sales.csv" (twoColumns 100 10 20)
              (ReachSelect _ _ _ _ ReachEmpty) Hwf ltac:(vm_compute; reflexivity))
    as (res & fileProfile' & Hres & Hlook & _ & _ & Hrows & _).
  exists res, fileProfile'. split; [exact Hres|]. split; [exact Hlook|]. exact Hrows.
Defined.

(** ** From the profiler to the cleaning simulator *)

Lemma inferType_count_bound vals :
  (0 <= (inferType vals).2 <= Z.of_nat (length (nonNullValues vals)))%Z.
Proof.
  unfold inferType.
  pose proof (filter_partition_length isNumericValue (nonNullValues vals)) as Hlen.
  repeat match goal with |- context [if ?b then _ else _] => destruct b end; simpl; lia.
Qed.

(** The profile built by the profiler has counts consistent with its row
    count, whatever insights are attached to it. *)
Lemma profiler_counts_within_rows header rows insights :
  (Z.of_nat (length rows) < 2 ^ 53)%Z ->
  CountsWithinRows (withInsights (basicProfile header rows) insights).
Proof.
  intros Hrows. split; [simpl; lia|]. simpl.
  apply Forall_lookup. intros i col Hcol. rewrite list_lookup_imap in Hcol.
  destruct (header !! i) as [colName|]; simpl in Hcol; [|discriminate].
  injection Hcol as <-.
  rewrite profileColumn_missing, profileColumn_nonNumericCount.
  pose proof (inferType_count_bound (columnValues rows i)) as Hnn.
  pose proof (filter_partition_length isMissing (columnValues rows i)) as Hlen.
  assert (Hvals : length (columnValues rows i) = length rows)
    by (unfold columnValues; apply length_map).
  fold (nonNullValues (columnValues rows i)) in Hlen.
  assert (Hdef : (0 <= default 0
                         match (inferType (columnValues rows i)).1 with
                         | DT_mixed => Some (inferType (columnValues rows i)).2
                         | _ => None
                         end <= (inferType (columnValues rows i)).2)%Z).
  { destruct (inferType (columnValues rows i)).1; simpl; lia. }
  lia.
Qed.

(* ===================================================================== *)
(** * Part III: further properties of the pages *)
(* ===================================================================== *)

(** ** File names *)

Section FileNameFacts.

(** The pieces of a split: all but the last are followed by a separator in
    the text, and the last one is the text after the last separator. *)
Lemma split_last sep s :
  exists pieces ext,
    split sep s = pieces ++ [ext]
    /\ stringMem sep ext = false
    /\ ((pieces = [] /\ s = ext)
        \/ (pieces <> [] /\ exists stem, s = stem +:+ String sep ext)).
Proof.
  induction s as [|c s (pieces & ext & E & Hext & Hs)]; simpl.
  - exists [], "". repeat split. now left.
  - destruct (Ascii.eqb_spec c sep) as [->|Hc].
    + exists ("" :: pieces), ext. rewrite E. repeat split; [exact Hext|].
      right. split; [discriminate|].
      destruct Hs as [[-> ->] | [_ [stem ->]]].
      * now exists "".
      * exists (String sep stem). now rewrite append_cons.
    + rewrite E. destruct pieces as [|piece pieces]; simpl.
      * exists [], (String c ext). repeat split.
        -- simpl. rewrite Hext, orb_false_r. now apply Ascii.eqb_neq.
        -- left. destruct Hs as [[_ ->] | [Hne _]]; [auto | congruence].
      * exists (String c piece :: pieces), ext. repeat split; [exact Hext|].
        right. split; [discriminate|].
        destruct Hs as [[Hnil _] | [_ [stem ->]]]; [discriminate|].
        exists (String c stem). now rewrite append_cons.
Qed.

Lemma length_split sep s : length (split sep s) = S (countChar sep s).
Proof.
  induction s as [|c s IH]; simpl; [reflexivity|].
  destruct (Ascii.eqb c sep); simpl; [now rewrite IH|].
  destruct (split sep s) as [|piece rest] eqn:E; simpl in *; lia.
Qed.

End FileNameFacts.

Lemma fileExtension_defined fileName :
  exists ext, fileExtension fileName = Some (toLowerCase ext).
Proof.
  destruct (split_last "." fileName) as (pieces & ext & E & _).
  exists ext. unfold fileExtension. now rewrite E, last_snoc.
Qed.


(** X2. The icon of a file agrees with the branch the parser takes for it:
    the table icon for the files read as CSV or as a workbook, the code icon
    for those read as JSON, and the plain document icon exactly for the files
    the parser rejects, with a message that names the extension in lower
    case. *)
Theorem getFileIcon_parseFileBranch (fileName : string) :
  match parseFileBranch fileName with
  | inr FormatCsv => getFileIcon fileName = TableCellsIcon
  | inr FormatExcel => getFileIcon fileName = TableCellsIcon
  | inr FormatJson => getFileIcon fileName = CodeBracketIcon
  | inl message =>
      getFileIcon fileName = DocumentTextIcon
      /\ exists ext, fileExtension fileName = Some ext
                     /\ message = "Unsupported file type: ." +:+ ext
                     /\ ext <> "csv" /\ ext <> "xlsx" /\ ext <> "xls" /\ ext <> "json"
  end.
Proof.
  destruct (fileExtension_defined fileName) as (e & He).
  unfold parseFileBranch, getFileIcon. rewrite He.
  repeat case_bool_decide; simpl; try reflexivity; try congruence.
  split; [reflexivity|]. exists (toLowerCase e).
  repeat split; congruence.
Qed.

(** ** The CSV parser, line by line *)

Section CsvLineFacts.

Lemma split_no_sep sep s : stringMem sep s = false -> split sep s = [s].
Proof.
  induction s as [|c s IH]; simpl; [reflexivity|].
  destruct (Ascii.eqb c sep); simpl; [discriminate|].
  intros Hs. now rewrite IH.
Qed.

Lemma split_app_sep sep s1 s2 :
  stringMem sep s1 = false ->
  split sep (s1 +:+ String sep s2) = s1 :: split sep s2.
Proof.
  induction s1 as [|c s1 IH]; intros Hs.
  - rewrite append_nil_l. simpl. now rewrite Ascii.eqb_refl.
  - rewrite append_cons. simpl in *.
    destruct (Ascii.eqb c sep) eqn:Ec; simpl in *; [discriminate|].
    now rewrite IH.
Qed.

Lemma split_joinWith sep lines :
  lines <> [] ->
  Forall (fun l => stringMem sep l = false) lines ->
  split sep (joinWith sep lines) = lines.
Proof.
  intros Hne Hall. induction Hall as [|l lines Hl Hall IH]; [congruence|].
  destruct lines as [|l' lines].
  - simpl. now apply split_no_sep.
  - change (joinWith sep (l :: l' :: lines))
      with (l +:+ String sep (joinWith sep (l' :: lines))).
    rewrite split_app_sep by exact Hl. now rewrite IH.
Qed.

(** Text appended to a line goes to its last cell. *)
Lemma split_snoc sep s t :
  stringMem sep t = false ->
  exists pieces ext,
    split sep s = pieces ++ [ext] /\ split sep (s +:+ t) = pieces ++ [ext +:+ t].
Proof.
  intros Ht. induction s as [|c s (pieces & ext & E & E')].
  - exists [], "". rewrite append_nil_l. split; [reflexivity|].
    now rewrite split_no_sep.
  - rewrite append_cons. simpl. rewrite E, E'.
    destruct (Ascii.eqb c sep).
    + now exists ("" :: pieces), ext.
    + destruct pieces as [|piece pieces]; simpl.
      * exists [], (String c ext). now rewrite append_cons.
      * now exists (String c piece :: pieces), ext.
Qed.

Lemma trimEnd_whitespace w : stringAll isWhitespace w = true -> trimEnd w = "".
Proof.
  induction w as [|c w IH]; simpl; [reflexivity|].
  rewrite andb_true_iff. intros [Hc Hw]. now rewrite IH, Hc.
Qed.

Lemma trimEnd_app_whitespace s w :
  stringAll isWhitespace w = true -> trimEnd (s +:+ w) = trimEnd s.
Proof.
  intros Hw. induction s as [|c s IH].
  - rewrite append_nil_l. now apply trimEnd_whitespace.
  - rewrite append_cons. simpl. now rewrite IH.
Qed.

Lemma trimStart_whitespace w : stringAll isWhitespace w = true -> trimStart w = "".
Proof.
  induction w as [|c w IH]; simpl; [reflexivity|].
  rewrite andb_true_iff. intros [Hc Hw]. now rewrite Hc, IH.
Qed.

(** White space after a text does not survive [trim]. *)
Lemma trim_app_whitespace s w :
  stringAll isWhitespace w = true -> trim (s +:+ w) = trim s.
Proof.
  intros Hw. unfold trim. induction s as [|c s IH].
  - rewrite append_nil_l. now rewrite trimStart_whitespace.
  - rewrite append_cons. simpl. destruct (isWhitespace c); [exact IH|].
    change (String c (s +:+ w)) with (String c s +:+ w).
    now apply trimEnd_app_whitespace.
Qed.

Lemma whitespace_no_comma w :
  stringAll isWhitespace w = true -> stringMem "," w = false.
Proof.
  induction w as [|c w IH]; simpl; [reflexivity|].
  rewrite andb_true_iff. intros [Hc Hw]. rewrite (IH Hw), orb_false_r.
  destruct (Ascii.eqb_spec c ",") as [->|]; [discriminate | reflexivity].
Qed.

Lemma isBlankLine_app_whitespace line w :
  stringAll isWhitespace w = true -> isBlankLine (line +:+ w) = isBlankLine line.
Proof. intros Hw. unfold isBlankLine. now rewrite trim_app_whitespace. Qed.

Lemma cells_app_whitespace line w :
  stringAll isWhitespace w = true ->
  map cleanCell (split "," (line +:+ w)) = map cleanCell (split "," line).
Proof.
  intros Hw.
  destruct (split_snoc "," line w (whitespace_no_comma w Hw)) as (pieces & ext & -> & ->).
  rewrite !map_app. simpl. unfold cleanCell at 2 4.
  now rewrite trim_app_whitespace.
Qed.

(** The lines of a text given by its lines. *)
Lemma csvLines_joinWith lines :
  Forall (fun l => stringMem "010" l = false) lines ->
  csvLines (joinWith "010" lines) = List.filter (fun l => negb (isBlankLine l)) lines.
Proof.
  intros Hall. unfold csvLines. destruct lines as [|l lines]; [reflexivity|].
  now rewrite split_joinWith.
Qed.

Lemma name_profileColumn rows i colName : name (profileColumn rows i colName) = colName.
Proof. unfold profileColumn. now destruct (inferType _). Qed.

Lemma names_basicProfile header rows :
  map name (fp_columns (basicProfile header rows)) = header.
Proof.
  simpl. apply list_eq. intros i.
  rewrite list_lookup_fmap, list_lookup_imap.
  destruct (header !! i); simpl; [|reflexivity].
  now rewrite name_profileColumn.
Qed.

End CsvLineFacts.

(** X3. The parser splits a line at every comma, quoted or not: the header
    has one cell more than the first non-blank line has commas, there is one
    row per other non-blank line, and each row has one cell more than its
    line has commas. *)
Theorem parseCsv_comma_count (content : string) :
  match csvLines content with
  | [] => parseCsv content = ([], [])
  | line0 :: rest =>
      exists header rows,
        parseCsv content = (header, rows)
        /\ length header = S (countChar "," line0)
        /\ Forall2 (fun line row => length row = S (countChar "," line)) rest rows
  end.
Proof.
  unfold parseCsv. destruct (csvLines content) as [|line0 rest]; [reflexivity|].
  eexists _, _. split; [reflexivity|].
  split; [now rewrite length_map, length_split|].
  apply Forall2_fmap_r, Forall_Forall2_diag, Forall_forall.
  intros line _. unfold compose. now rewrite length_map, length_split.
Qed.

(** X4. Carriage returns at the end of lines are ignored: a text whose
    lines end in CR LF is parsed as the same text with LF line ends. *)
Theorem parseCsv_carriage_return (lines lines' : list string) :
  Forall (fun l => stringMem "010" l = false) lines ->
  Forall2 (fun l l' => l' = l \/ l' = l +:+ String "013" "") lines lines' ->
  parseCsv (joinWith "010" lines') = parseCsv (joinWith "010" lines).
Proof.
  intros Hall Hcr.
  assert (Hws : forall l l', l' = l \/ l' = l +:+ String "013" "" ->
                  exists w, l' = l +:+ w /\ stringAll isWhitespace w = true
                            /\ stringMem "010" w = false).
  { intros l l' [->| ->]; [exists ""; now rewrite append_nil_r | now eexists]. }
  assert (Hall' : Forall (fun l => stringMem "010" l = false) lines').
  { clear Hws. induction Hcr as [|l l' ls ls' Hl _ IH]; [constructor|].
    inversion Hall as [|? ? Hl0 Hls]; subst.
    constructor; [|now apply IH].
    destruct Hl as [->| ->]; [exact Hl0|].
    clear -Hl0. induction l as [|c l IHl]; [reflexivity|].
    rewrite append_cons. simpl in *. apply orb_false_iff in Hl0 as [-> Hl0].
    now apply IHl. }
  unfold parseCsv. rewrite !csvLines_joinWith by assumption.
  clear Hall Hall'.
  assert (Hlines : Forall2 (fun l l' => exists w, l' = l +:+ w
                                         /\ stringAll isWhitespace w = true)
                     (List.filter (fun l => negb (isBlankLine l)) lines)
                     (List.filter (fun l => negb (isBlankLine l)) lines')).
  { induction Hcr as [|l l' ls ls' Hl _ IH]; [constructor|].
    destruct (Hws _ _ Hl) as (w & -> & Hw & _). simpl.
    rewrite isBlankLine_app_whitespace by exact Hw.
    destruct (isBlankLine l); simpl; [exact IH|].
    constructor; [now exists w | exact IH]. }
  destruct Hlines as [|l l' ls ls' (w & -> & Hw) Hrest]; [reflexivity|].
  rewrite cells_app_whitespace by exact Hw. f_equal.
  induction Hrest as [|r r' rs rs' (w' & -> & Hw') _ IH]; [reflexivity|].
  simpl. now rewrite cells_app_whitespace, IH.
Qed.

Lemma parseCsv_carriage_return_witness :
  parseCsv ("id,city" +:+ String "013" (String "010" ("1,Oslo" +:+ String "013" (String "010" ""))))
  = parseCsv ("id,city" +:+ String "010" ("1,Oslo" +:+ String "010" "")).
Proof.
  apply (parseCsv_carriage_return ["id,city"; "1,Oslo"; ""]
           ["id,city" +:+ String "013" ""; "1,Oslo" +:+ String "013" ""; ""]).
  - repeat constructor.
  - constructor; [now right|].
    constructor; [now right|].
    constructor; [now left | constructor].
Defined.

(** X5. A CSV text is rejected exactly when it has no line but blank ones,
    with the message of the empty file; any other text is profiled: the row
    count is the number of non-blank lines after the first, the column count
    is one more than the number of commas of the first non-blank line, and
    the columns are named by the cleaned cells of that line. *)
Theorem profileCsv_outcome (content : string) :
  match csvLines content with
  | [] => profileCsv content = inl "File is empty or could not be parsed."
  | line0 :: rest =>
      exists p,
        profileCsv content = inr p
        /\ fp_rowCount p = Z.of_nat (length rest)
        /\ fp_columnCount p = Z.of_nat (S (countChar "," line0))
        /\ map name (fp_columns p) = map cleanCell (split "," line0)
  end.
Proof.
  unfold profileCsv, parseCsv.
  destruct (csvLines content) as [|line0 rest]; [reflexivity|].
  unfold profileGrid.
  pose proof (length_split "," line0) as Hlen.
  rewrite length_map, Hlen. simpl.
  eexists. split; [reflexivity|].
  split; [simpl; now rewrite length_normalizeRows, !length_map|].
  split; [simpl; now rewrite length_map, Hlen|].
  apply names_basicProfile.
Qed.

(** ** The profiler on grids of any shape *)

Section GridFacts.
Context `{NumberCells}.

(** The text read at a position under the header does not change when the
    row is cut or padded to the width of the header. *)
Lemma cellToString_resize (row : list RawCell) n i :
  (i < n)%nat ->
  cellToString ((take n row ++ replicate (n - length row) CellNull) !! i)
  = cellToString (row !! i).
Proof.
  intros Hi. destruct (decide (i < length row)%nat) as [Hlt|Hge].
  - rewrite lookup_app_l by (rewrite length_take; lia).
    now rewrite lookup_take_lt.
  - rewrite take_ge by lia.
    rewrite lookup_app_r by lia.
    rewrite (lookup_ge_None_2 row i) by lia.
    rewrite lookup_replicate_2 by lia. reflexivity.
Qed.

Lemma normalizeRows_ext header (rows rows' : list (list RawCell)) :
  Forall2 (fun r r' => forall i, (i < length header)%nat ->
                                 cellToString (r !! i) = cellToString (r' !! i))
    rows rows' ->
  normalizeRows header rows = normalizeRows header rows'.
Proof.
  unfold normalizeRows. induction 1 as [|r r' rows rows' Hr _ IH]; [reflexivity|].
  simpl. rewrite IH. f_equal.
  apply imap_ext. intros i x Hx. apply Hr. eapply lookup_lt_Some, Hx.
Qed.

End GridFacts.

Section CountFacts.

Lemma length_remove_dups_le {A} `{EqDecision A} (l : list A) :
  (length (remove_dups l) <= length l)%nat.
Proof.
  induction l as [|x l IH]; simpl; [lia|].
  destruct (decide_rel elem_of x l); simpl; lia.
Qed.

Lemma remove_dups_nil {A} `{EqDecision A} (l : list A) : remove_dups l = [] -> l = [].
Proof.
  intros E. destruct l as [|x l]; [reflexivity|].
  assert (Hx : x ∈ remove_dups (x :: l)) by (apply elem_of_remove_dups; left).
  rewrite E in Hx. inversion Hx.
Qed.

Lemma two_elements {A} (l : list A) x y :
  x ∈ l -> y ∈ l -> x <> y -> (2 <= length l)%nat.
Proof.
  intros Hx Hy Hne. destruct l as [|a [|b l]]; simpl; [inversion Hx | | lia].
  apply list_elem_of_singleton in Hx, Hy. congruence.
Qed.

Lemma filter_elem_of {A} (p : A -> bool) (l : list A) x :
  x ∈ List.filter p l <-> x ∈ l /\ p x = true.
Proof. rewrite !list_elem_of_In. apply filter_In. Qed.

Lemma filter_nonempty {A} (p : A -> bool) (l : list A) :
  (0 < length (List.filter p l))%nat -> exists x, x ∈ List.filter p l.
Proof.
  destruct (List.filter p l) as [|x k]; simpl; [lia|].
  intros _. exists x. left.
Qed.

(** The three counters of a column, in terms of its values. *)
Lemma profileColumn_counts rows i colName :
  let vals := columnValues rows i in
  let present := nonNullValues vals in
  let col := profileColumn rows i colName in
  (Z.of_nat (length rows) - missingValues col = Z.of_nat (length present))%Z
  /\ uniqueValues col = Z.of_nat (length (remove_dups present))
  /\ dataType col = (inferType vals).1
  /\ nonNumericCount col
     = match (inferType vals).1 with DT_mixed => Some (inferType vals).2 | _ => None end.
Proof.
  intros vals present col.
  assert (Hlen : length vals = length rows) by apply length_map.
  pose proof (filter_partition_length isMissing vals) as Hpart.
  split.
  { unfold col. rewrite profileColumn_missing. fold vals.
    unfold present, nonNullValues. lia. }
  unfold col, profileColumn. fold vals. fold present.
  destruct (inferType vals) as [t k]. auto.
Qed.

End CountFacts.

(** X6. The profiler reads the cells under the header and nothing else: the
    cells of a row beyond the width of the header are ignored, and a row that
    is shorter than the header is read as if it ended in null cells. *)
Theorem profileGrid_header_width `{NumberCells} (header : list string)
    (rawRows : list (list RawCell)) :
  let n := length header in
  profileGrid header
    (map (fun row => take n row ++ replicate (n - length row) CellNull) rawRows)
  = profileGrid header rawRows.
Proof.
  intros n. unfold profileGrid. rewrite length_map.
  destruct (_ && _); [reflexivity|]. f_equal. f_equal.
  apply normalizeRows_ext, Forall2_fmap_l, Forall_Forall2_diag, Forall_forall.
  intros row _ i Hi. now apply cellToString_resize.
Qed.


(** X8. The counters of every profiled column are consistent with the row
    count: the missing values are at most the rows; the unique values are at
    most the values that are not missing, and there is none exactly when every
    value is missing, which is also exactly when the type is [unknown]; a
    [mixed] column has at least one non-numeric value, fewer non-numeric
    values than values that are not missing, and at least two unique
    values. *)
Theorem profiler_column_bounds (header : list string) (rows : list (list string)) :
  let p := basicProfile header rows in
  Forall (fun col =>
            let present := (fp_rowCount p - missingValues col)%Z in
            (0 <= missingValues col <= fp_rowCount p)%Z
            /\ (0 <= uniqueValues col <= present)%Z
            /\ (uniqueValues col = 0%Z <-> present = 0%Z)
            /\ (dataType col = DT_unknown <-> present = 0%Z)
            /\ (dataType col = DT_mixed ->
                exists k, nonNumericCount col = Some k
                          /\ (1 <= k <= present - 1)%Z
                          /\ (2 <= uniqueValues col)%Z))
    (fp_columns p).
Proof.
  intros p. apply Forall_lookup. intros i col Hcol.
  apply basicProfile_column in Hcol as (colName & _ & ->).
  destruct (profileColumn_counts rows i colName) as (Hpres & Huniq & Htype & Hnn).
  set (vals := columnValues rows i) in *.
  set (present := nonNullValues vals) in *.
  cbv zeta. change (fp_rowCount p) with (Z.of_nat (length rows)).
  rewrite Hpres, Huniq, Htype, Hnn.
  pose proof (length_remove_dups_le present) as Hle.
  pose proof (profileColumn_missing rows i colName) as Hmiss.
  split; [lia|]. split; [lia|].
  split.
  { split; intros E.
    - assert (E' : length (remove_dups present) = 0%nat) by lia.
      apply length_zero_iff_nil, remove_dups_nil in E'. rewrite E'. reflexivity.
    - assert (E' : length present = 0%nat) by lia.
      apply length_zero_iff_nil in E'. rewrite E'. reflexivity. }
  unfold inferType. fold present.
  set (numeric := List.filter isNumericValue present).
  set (text := List.filter (fun val => negb (isNumericValue val)) present).
  pose proof (filter_partition_length isNumericValue present) as Hpart.
  fold numeric in Hpart. fold text in Hpart.
  destruct (0 <? length present)%nat eqn:Ep; simpl.
  2:{ apply Nat.ltb_ge in Ep. split; [split; [lia | reflexivity] | discriminate]. }
  apply Nat.ltb_lt in Ep.
  destruct (0 <? length numeric)%nat eqn:En;
    destruct (0 <? length text)%nat eqn:Et; simpl;
    (split; [split; [discriminate | lia] | try discriminate]).
  intros _. apply Nat.ltb_lt in En, Et.
  eexists. split; [reflexivity|]. split; [lia|].
  destruct (filter_nonempty _ _ En) as (x & Hx).
  destruct (filter_nonempty _ _ Et) as (y & Hy).
  apply filter_elem_of in Hx as [Hx Hxn], Hy as [Hy Hyn].
  assert (Hne : x <> y) by (intros ->; rewrite Hxn in Hyn; discriminate).
  pose proof (two_elements (remove_dups present) x y) as H2.
  rewrite !elem_of_remove_dups in H2. specialize (H2 Hx Hy Hne). lia.
Qed.

Section TotalFacts.
Local Open Scope Z_scope.

Lemma foldl_sum_shift (cols : list ColumnProfile) acc :
  foldl (fun acc col => acc + missingValues col) acc cols
  = acc + foldl (fun acc col => acc + missingValues col) 0 cols.
Proof.
  revert acc. induction cols as [|c cols IH]; intros acc; simpl; [lia|].
  rewrite (IH (acc + missingValues c)), (IH (0 + missingValues c)). lia.
Qed.

Lemma totalMissing_range (cols : list ColumnProfile) bound :
  Forall (fun col => 0 <= missingValues col <= bound) cols ->
  0 <= foldl (fun acc col => acc + missingValues col) 0 cols
    <= bound * Z.of_nat (length cols).
Proof.
  induction 1 as [|c cols Hc _ IH]; simpl; [lia|].
  rewrite foldl_sum_shift. lia.
Qed.

End TotalFacts.

(** X9. The total shown in the [Missing Values] tile of a profiled file lies
    between 0 and the number of cells of the grid, the row count times the
    column count. *)
Theorem totalMissing_bound (header : list string) (rows : list (list string))
    (insights : option AIInsights) :
  let p := withInsights (basicProfile header rows) insights in
  (0 <= totalMissing p <= rowCount p * columnCount p)%Z.
Proof.
  intros p. unfold totalMissing.
  assert (Hlen : length (columns p) = length header) by apply length_imap.
  change (columnCount p) with (Z.of_nat (length header)). rewrite <- Hlen.
  apply totalMissing_range, Forall_lookup. intros i col Hcol.
  apply basicProfile_column in Hcol as (colName & _ & ->).
  rewrite profileColumn_missing.
  pose proof (filter_partition_length isMissing (columnValues rows i)) as Hpart.
  unfold columnValues in Hpart at 3. rewrite length_map in Hpart.
  change (rowCount p) with (Z.of_nat (length rows)). lia.
Qed.

(** ** The profiling run *)

Section RunFacts.
Context `{NumberCells}.
Variables (readWorkbook readJson : UploadedFile -> Thrown + ParsedGrid).
Variable generateInsightsFromProfile : FileProfile -> string -> Thrown + AIInsights.

Lemma profilingFailed_status f e st :
  ps_status (profilingFailed f e st) = <[f := StatusError]> (ps_status st).
Proof. reflexivity. Qed.

Lemma profilingFailed_errors f e st :
  ps_errors (profilingFailed f e st) = <[f := errorMessageOf e]> (ps_errors st).
Proof. reflexivity. Qed.

Lemma profilingFailed_profiles f e st :
  ps_profiles (profilingFailed f e st) = ps_profiles st.
Proof. reflexivity. Qed.



End RunFacts.

(** X10. A profiling run that starts (the file is not yet past [pending])
    settles the file: its status ends as [complete] or [error], never as
    [profiling] or [insights].  With [complete] the profile of the parsed
    grid is stored under the file name together with the insights, and the
    error messages are as before; with [error] a message is recorded and the
    profiles are as before.  A run on a file that is past [pending] changes
    nothing, and no run touches the entries of another file. *)
Theorem runProfiling_settles `{NumberCells}
    (readWorkbook readJson : UploadedFile -> Thrown + ParsedGrid)
    (generateInsightsFromProfile : FileProfile -> string -> Thrown + AIInsights)
    (file : UploadedFile) (st : ProfilingState) :
  let f := file_name file in
  let st' := runProfiling readWorkbook readJson generateInsightsFromProfile file st in
  (forall g, g <> f ->
     ps_status st' !! g = ps_status st !! g
     /\ ps_errors st' !! g = ps_errors st !! g
     /\ ps_profiles st' !! g = ps_profiles st !! g)
  /\ (alreadyStarted (ps_status st !! f) = true -> st' = st)
  /\ (alreadyStarted (ps_status st !! f) = false ->
      (ps_status st' !! f = Some StatusComplete
       /\ ps_errors st' = ps_errors st
       /\ exists header rawRows basicProfile insights,
            parseFile readWorkbook readJson file = inr (header, rawRows)
            /\ profileGrid header rawRows = inr basicProfile
            /\ generateInsightsFromProfile basicProfile f = inr insights
            /\ ps_profiles st'
               = <[f := withInsights basicProfile (Some insights)]> (ps_profiles st))
      \/ (ps_status st' !! f = Some StatusError
          /\ ps_profiles st' = ps_profiles st
          /\ exists message, ps_errors st' !! f = Some message)).
Proof.
  intros f st'. subst st'. unfold runProfiling. fold f.
  destruct (alreadyStarted (ps_status st !! f)) eqn:Eg.
  { split; [auto|]. split; [auto | discriminate]. }
  destruct (parseFile readWorkbook readJson file) as [e|[header rawRows]] eqn:Ep.
  { split; [|split; [discriminate|]].
    - intros g Hg. simpl. now rewrite !lookup_insert_ne by congruence.
    - intros _. right. simpl. rewrite !lookup_insert_eq. eauto. }
  destruct (profileGrid header rawRows) as [message|basicProfile] eqn:Eb.
  { split; [|split; [discriminate|]].
    - intros g Hg. simpl. now rewrite !lookup_insert_ne by congruence.
    - intros _. right. simpl. rewrite !lookup_insert_eq. eauto. }
  destruct (generateInsightsFromProfile basicProfile f) as [e|insights] eqn:Ei.
  { split; [|split; [discriminate|]].
    - intros g Hg. simpl. now rewrite !lookup_insert_ne by congruence.
    - intros _. right. simpl. rewrite !lookup_insert_eq. eauto. }
  split; [|split; [discriminate|]].
  - intros g Hg. simpl. now rewrite !lookup_insert_ne by congruence.
  - intros _. left. simpl. rewrite !lookup_insert_eq.
    split; [reflexivity|]. split; [reflexivity|].
    exists header, rawRows, basicProfile, insights. auto.
Qed.



(** ** The suggestions of a file, grouped by column *)

Section GroupingFacts.

Lemma foldl_pushSuggestions_None results : foldl pushSuggestions None results = None.
Proof. induction results as [|r results IH]; [reflexivity | exact IH]. Qed.

Lemma foldl_pushSuggestions results :
  forall fs0 : gmap string (list CleaningSuggestion),
    (forall key, is_Some (fs0 !! key) -> isInherited key = false) ->
    if existsb (fun r => isInherited r.1) results
    then foldl pushSuggestions (Some fs0) results = None
    else exists fs,
        foldl pushSuggestions (Some fs0) results = Some fs
        /\ forall c, fs !! c
                     = if namedIn c results || bool_decide (is_Some (fs0 !! c))
                       then Some (default [] (fs0 !! c) ++ suggestionsFor c results)
                       else None.
Proof.
  induction results as [|[col sugs] results IH]; intros fs0 Hown.
  - simpl. exists fs0. split; [reflexivity|]. intros c.
    unfold suggestionsFor. simpl. rewrite app_nil_r.
    destruct (fs0 !! c); reflexivity.
  - change (foldl pushSuggestions (Some fs0) ((col, sugs) :: results))
      with (foldl pushSuggestions (pushSuggestions (Some fs0) (col, sugs)) results).
    change (existsb (fun r => isInherited r.1) ((col, sugs) :: results))
      with (isInherited col || existsb (fun r => isInherited r.1) results).
    assert (Hstep : forall l, (fs0 !! col = Some l \/ (fs0 !! col = None /\ l = []))
              -> isInherited col = false ->
              if existsb (fun r => isInherited r.1) results
              then foldl pushSuggestions (Some (<[col := l ++ sugs]> fs0)) results = None
              else exists fs,
                  foldl pushSuggestions (Some (<[col := l ++ sugs]> fs0)) results = Some fs
                  /\ forall c, fs !! c
                       = if namedIn c ((col, sugs) :: results)
                            || bool_decide (is_Some (fs0 !! c))
                         then Some (default [] (fs0 !! c)
                                    ++ suggestionsFor c ((col, sugs) :: results))
                         else None).
    { intros l Hl Hcol.
      specialize (IH (<[col := l ++ sugs]> fs0)).
      assert (Hown' : forall key, is_Some (<[col := l ++ sugs]> fs0 !! key)
                                  -> isInherited key = false).
      { intros key. destruct (decide (key = col)) as [->|Hne]; [auto|].
        rewrite lookup_insert_ne by congruence. apply Hown. }
      specialize (IH Hown').
      destruct (existsb (fun r => isInherited r.1) results); [exact IH|].
      destruct IH as (fs & E & Hfs). exists fs. split; [exact E|].
      intros c. rewrite Hfs. unfold namedIn, suggestionsFor. simpl.
      destruct (decide (col = c)) as [->|Hne].
      - rewrite lookup_insert_eq.
        assert (B1 : bool_decide (c = c) = true) by now apply bool_decide_eq_true_2.
        assert (B2 : bool_decide (is_Some (Some (l ++ sugs))) = true)
          by (apply bool_decide_eq_true_2; eauto).
        rewrite B1, B2, orb_true_r. simpl.
        destruct Hl as [-> | [-> ->]]; simpl; now rewrite <- ?app_assoc.
      - rewrite lookup_insert_ne by congruence.
        assert (B1 : bool_decide (col = c) = false) by now apply bool_decide_eq_false_2.
        rewrite B1. reflexivity. }
    simpl pushSuggestions. unfold pushSuggestions. simpl.
    destruct (fs0 !! col) as [l|] eqn:El.
    + assert (Hcol : isInherited col = false) by (apply Hown; rewrite El; eauto).
      rewrite Hcol. simpl. apply (Hstep l); auto.
    + destruct (isInherited col) eqn:Hcol; simpl.
      * apply foldl_pushSuggestions_None.
      * apply (Hstep []); auto.
Qed.

Lemma groupSuggestions_spec results :
  if existsb (fun r => isInherited r.1) results
  then groupSuggestions results = None
  else exists fs,
      groupSuggestions results = Some fs
      /\ forall c, fs !! c = if namedIn c results
                             then Some (suggestionsFor c results) else None.
Proof.
  pose proof (foldl_pushSuggestions results ∅) as Hf.
  unfold groupSuggestions.
  destruct (existsb (fun r => isInherited r.1) results).
  - apply Hf. intros key [x Hx]. rewrite lookup_empty in Hx. discriminate.
  - destruct Hf as (fs & E & Hfs).
    { intros key [x Hx]. rewrite lookup_empty in Hx. discriminate. }
    exists fs. split; [exact E|]. intros c. rewrite Hfs, lookup_empty.
    assert (B : bool_decide (is_Some (@None (list CleaningSuggestion))) = false)
      by (apply bool_decide_eq_false_2; intros [x Hx]; discriminate).
    now rewrite B, orb_false_r.
Qed.

End GroupingFacts.

(** ** Fetching the suggestions of a file *)

Section FetchFacts.
Variable generateCleaningSuggestions : ColumnIssue -> Thrown + list CleaningSuggestion.

(** [Promise.all]: the results when every promise resolves, a rejection
    otherwise. *)
Lemma mapM_suggestionPromise issues :
  mapM (suggestionPromise generateCleaningSuggestions) issues
  = if forallb (isResolved generateCleaningSuggestions) issues
    then Some (resolvedResults generateCleaningSuggestions issues) else None.
Proof.
  induction issues as [|issue issues IH]; [reflexivity|].
  simpl. rewrite IH.
  change (isResolved generateCleaningSuggestions issue)
    with (match generateCleaningSuggestions issue with inr _ => true | inl _ => false end).
  unfold suggestionPromise.
  destruct (generateCleaningSuggestions issue) as [e|sugs]; simpl; [reflexivity|].
  now destruct (forallb _ issues).
Qed.

Lemma existsb_resolvedResults (p : string -> bool) issues :
  existsb (fun r => p r.1) (resolvedResults generateCleaningSuggestions issues)
  = existsb (fun issue => p (columnName issue)) issues.
Proof.
  unfold resolvedResults.
  induction issues as [|issue issues IH]; simpl; [reflexivity|].
  now rewrite IH.
Qed.

Lemma fetch_pipeline issues :
  if fetchFails generateCleaningSuggestions issues
  then mapM (suggestionPromise generateCleaningSuggestions) issues ≫= groupSuggestions
       = None
  else exists fs,
      mapM (suggestionPromise generateCleaningSuggestions) issues ≫= groupSuggestions
      = Some fs
      /\ forall c,
           fs !! c
           = if namedIn c (resolvedResults generateCleaningSuggestions issues)
             then Some (suggestionsFor c (resolvedResults generateCleaningSuggestions issues))
             else None.
Proof.
  unfold fetchFails. rewrite mapM_suggestionPromise.
  destruct (forallb _ issues); simpl; [|reflexivity].
  pose proof (groupSuggestions_spec (resolvedResults generateCleaningSuggestions issues))
    as Hg.
  rewrite (existsb_resolvedResults isInherited) in Hg. exact Hg.
Qed.

(** The state after a fetch that starts, in its three cases. *)
Lemma fetchSuggestionsForFile_cases fileName profiles st :
  fetchStarted (cs_loadingStates st !! fileName) = false ->
  let st' := fetchSuggestionsForFile generateCleaningSuggestions fileName profiles st in
  let failed := st' = setLoadingState fileName LoadError
                        (setLoadingState fileName LoadLoading st) in
  match profiles !! fileName with
  | None => failed
  | Some profile =>
      let issues := issuesToFetch fileName profile in
      if fetchFails generateCleaningSuggestions issues then failed
      else exists fs,
          st' = setLoadingState fileName LoadDone
                  (setSuggestions fileName fs (setLoadingState fileName LoadLoading st))
          /\ forall c,
               fs !! c
               = if namedIn c (resolvedResults generateCleaningSuggestions issues)
                 then Some (suggestionsFor c
                              (resolvedResults generateCleaningSuggestions issues))
                 else None
  end.
Proof.
  intros Hg st' failed. subst st' failed. unfold fetchSuggestionsForFile. rewrite Hg.
  destruct (profiles !! fileName) as [profile|]; [|reflexivity].
  cbv zeta. set (issues := issuesToFetch fileName profile).
  pose proof (fetch_pipeline issues) as Hp.
  destruct (fetchFails generateCleaningSuggestions issues).
  - now rewrite Hp.
  - destruct Hp as (fs & -> & Hfs). eauto.
Qed.

End FetchFacts.

Lemma existsb_elem_of {A} (p : A -> bool) (l : list A) :
  existsb p l = true <-> exists x, x ∈ l /\ p x = true.
Proof.
  rewrite existsb_exists. split; intros (x & Hx & Hp); exists x;
    (split; [now apply list_elem_of_In | exact Hp]).
Qed.

Lemma forallb_false_Exists {A} (p : A -> bool) (l : list A) :
  forallb p l = false -> Exists (fun x => p x = false) l.
Proof.
  induction l as [|x l IH]; simpl; [discriminate|].
  destruct (p x) eqn:Hx; simpl; [|now constructor].
  intros Hl. apply Exists_cons_tl. now apply IH.
Qed.

Lemma isInherited_true key : isInherited key = true <-> key ∈ objectPrototypeNames.
Proof. unfold isInherited. apply bool_decide_eq_true. Qed.

(** X12. A fetch that starts (the file is neither [loading] nor [done])
    leaves the entries of the other files alone and ends in [done] or in
    [error].  It ends in [done] exactly when the file has a profile, every
    request for one of its issues is answered, and no issue is on a column
    named like a property that objects inherit; the suggestions stored for
    the file then have an entry for the columns with an issue and for no
    other, made of the suggestions of the issues of the column in the order of
    the issues.  In every other case it ends in [error] and the stored
    suggestions are as before. *)
Theorem fetchSuggestionsForFile_outcome
    (generateCleaningSuggestions : ColumnIssue -> Thrown + list CleaningSuggestion)
    (fileName : string) (profiles : gmap string FullProfileResult) (st : CleaningState) :
  let st' := fetchSuggestionsForFile generateCleaningSuggestions fileName profiles st in
  let issues := fun profile => issuesToFetch fileName profile in
  let results := fun profile =>
    resolvedResults generateCleaningSuggestions (issues profile) in
  fetchStarted (cs_loadingStates st !! fileName) = false ->
  (forall g, g <> fileName ->
     cs_loadingStates st' !! g = cs_loadingStates st !! g
     /\ cs_suggestions st' !! g = cs_suggestions st !! g)
  /\ ((cs_loadingStates st' !! fileName = Some LoadDone
       /\ exists profile fs,
            profiles !! fileName = Some profile
            /\ Forall (fun issue =>
                         isResolved generateCleaningSuggestions issue = true
                         /\ columnName issue ∉ objectPrototypeNames) (issues profile)
            /\ cs_suggestions st' = <[fileName := fs]> (cs_suggestions st)
            /\ forall c, fs !! c = if namedIn c (results profile)
                                   then Some (suggestionsFor c (results profile))
                                   else None)
      \/ (cs_loadingStates st' !! fileName = Some LoadError
          /\ cs_suggestions st' = cs_suggestions st
          /\ match profiles !! fileName with
             | None => True
             | Some profile =>
                 Exists (fun issue =>
                           isResolved generateCleaningSuggestions issue = false
                           \/ columnName issue ∈ objectPrototypeNames) (issues profile)
             end)).
Proof.
  intros st' issues results Hg.
  pose proof (fetchSuggestionsForFile_cases generateCleaningSuggestions
                fileName profiles st Hg) as Hc.
  cbv zeta in Hc. fold st' in Hc.
  assert (Hfailed : st' = setLoadingState fileName LoadError
                            (setLoadingState fileName LoadLoading st) ->
            (forall g, g <> fileName ->
               cs_loadingStates st' !! g = cs_loadingStates st !! g
               /\ cs_suggestions st' !! g = cs_suggestions st !! g)
            /\ cs_loadingStates st' !! fileName = Some LoadError
            /\ cs_suggestions st' = cs_suggestions st).
  { intros ->. simpl. rewrite lookup_insert_eq. repeat split; auto.
    now rewrite !lookup_insert_ne by congruence. }
  destruct (profiles !! fileName) as [profile|] eqn:Ep.
  2:{ destruct (Hfailed Hc) as (Hframe & Hs & Hsug). split; [exact Hframe|]. now right. }
  fold (issues profile) in Hc. fold (results profile) in Hc.
  destruct (fetchFails generateCleaningSuggestions (issues profile)) eqn:Ef.
  - destruct (Hfailed Hc) as (Hframe & Hs & Hsug). split; [exact Hframe|].
    right. split; [exact Hs|]. split; [exact Hsug|].
    unfold fetchFails in Ef. apply orb_true_iff in Ef as [Ef|Ef].
    + apply negb_true_iff, forallb_false_Exists in Ef.
      eapply Exists_impl; [exact Ef|]. cbv beta. auto.
    + apply existsb_elem_of in Ef as (issue & Hin & Hi).
      apply Exists_exists. exists issue. split; [exact Hin|].
      right. now apply isInherited_true.
  - destruct Hc as (fs & Hst & Hfs). split.
    + intros g Hne. rewrite Hst. simpl. now rewrite !lookup_insert_ne by congruence.
    + left. rewrite Hst. simpl. rewrite lookup_insert_eq. split; [reflexivity|].
      exists profile, fs. split; [reflexivity|]. split; [|split; [reflexivity | exact Hfs]].
      unfold fetchFails in Ef. apply orb_false_iff in Ef as [Ef1 Ef2].
      apply negb_false_iff in Ef1.
      apply Forall_forall. intros issue Hin. split.
      * rewrite forallb_forall in Ef1. apply Ef1. now apply list_elem_of_In.
      * intros Hproto. apply isInherited_true in Hproto.
        assert (Hex : existsb (fun issue => isInherited (columnName issue)) (issues profile)
                      = true) by (apply existsb_elem_of; eauto).
        congruence.
Qed.

Lemma fetchSuggestionsForFile_outcome_witness :
  let st' := fetchSuggestionsForFile answerAll "sales.csv" sampleProfiles noCleaningState in
  cs_loadingStates st' !! "sales.csv" = Some LoadDone
  \/ cs_loadingStates st' !! "sales.csv" = Some LoadError.
Proof.
  intros st'.
  destruct (proj2 (fetchSuggestionsForFile_outcome answerAll "sales.csv" sampleProfiles
                     noCleaningState eq_refl)) as [[Hdone _]|[Herror _]].
  - left. exact Hdone.
  - right. exact Herror.
Defined.

(** ** The options of a column *)

Section OptionFacts.

Lemma sameOption_key sug s : sameOption sug s = true <-> optionKey s = optionKey sug.
Proof.
  unfold sameOption, optionKey. rewrite andb_true_iff, !bool_decide_eq_true.
  split; [intros [-> ->]; reflexivity | intros [= -> ->]; auto].
Qed.

Lemma sameOption_refl sug : sameOption sug sug = true.
Proof. now apply sameOption_key. Qed.

Lemma existsb_sameOption sug l :
  existsb (sameOption sug) l = true <-> optionKey sug ∈ map optionKey l.
Proof.
  rewrite existsb_elem_of, list_elem_of_fmap. split.
  - intros (s & Hs & Hk). apply sameOption_key in Hk. eauto.
  - intros (s & Hk & Hs). exists s. split; [exact Hs|]. now apply sameOption_key.
Qed.

Lemma findIndex_None {A} (p : A -> bool) l : findIndex p l = None <-> existsb p l = false.
Proof.
  induction l as [|x l IH]; simpl; [tauto|].
  destruct (p x); simpl; [split; discriminate|].
  rewrite <- IH. destruct (findIndex p l); simpl; split; congruence.
Qed.

Lemma findIndex_lt {A} (p : A -> bool) l i : findIndex p l = Some i -> (i < length l)%nat.
Proof.
  revert i. induction l as [|x l IH]; simpl; [discriminate|].
  intros i. destruct (p x); [intros [= <-]; lia|].
  destruct (findIndex p l) as [j|]; simpl; [|discriminate].
  intros [= <-]. specialize (IH j eq_refl). lia.
Qed.

Lemma findIndex_app {A} (p : A -> bool) l1 l2 :
  findIndex p (l1 ++ l2)
  = match findIndex p l1 with
    | Some i => Some i
    | None => (fun j => length l1 + j)%nat <$> findIndex p l2
    end.
Proof.
  induction l1 as [|x l1 IH]; simpl.
  - destruct (findIndex p l2); reflexivity.
  - destruct (p x); [reflexivity|]. rewrite IH.
    destruct (findIndex p l1); simpl; [reflexivity|].
    destruct (findIndex p l2); reflexivity.
Qed.

Lemma filterWithIndex_cons {A} (p : A -> nat -> bool) x l :
  filterWithIndex p (x :: l)
  = (if p x 0%nat then [x] else []) ++ filterWithIndex (fun y i => p y (S i)) l.
Proof.
  unfold filterWithIndex. simpl. destruct (p x 0%nat); reflexivity.
Qed.

Lemma filterWithIndex_ext {A} (p q : A -> nat -> bool) l :
  (forall i x, l !! i = Some x -> p x i = q x i) ->
  filterWithIndex p l = filterWithIndex q l.
Proof.
  intros Hpq. unfold filterWithIndex. f_equal. apply imap_ext.
  intros i x Hx. now rewrite (Hpq i x Hx).
Qed.

(** The list filtered by first index is the list of first occurrences. *)
Lemma uniqueSuggestions_from seen l :
  filterWithIndex
    (fun sug index =>
       bool_decide (Some (length seen + index)%nat = findIndex (sameOption sug) (seen ++ l)))
    l
  = firstOccurrences seen l.
Proof.
  revert seen. induction l as [|x l IH]; intros seen; [reflexivity|].
  rewrite filterWithIndex_cons. simpl firstOccurrences.
  assert (Hhead : bool_decide (Some (length seen + 0)%nat
                               = findIndex (sameOption x) (seen ++ x :: l))
                  = negb (existsb (sameOption x) seen)).
  { rewrite findIndex_app. simpl. rewrite sameOption_refl.
    destruct (findIndex (sameOption x) seen) as [i|] eqn:Ei.
    - assert (Hlt := findIndex_lt _ _ _ Ei).
      assert (Hex : existsb (sameOption x) seen = true).
      { destruct (existsb (sameOption x) seen) eqn:Eex; [reflexivity|].
        apply findIndex_None in Eex. congruence. }
      rewrite Hex. apply bool_decide_eq_false_2. intros [= E]. lia.
    - apply findIndex_None in Ei. rewrite Ei. now apply bool_decide_eq_true_2. }
  rewrite Hhead.
  assert (Htail : filterWithIndex
                    (fun y i => bool_decide (Some (length seen + S i)%nat
                                             = findIndex (sameOption y) (seen ++ x :: l))) l
                  = filterWithIndex
                      (fun y i => bool_decide (Some (length (seen ++ [x]) + i)%nat
                                               = findIndex (sameOption y)
                                                   ((seen ++ [x]) ++ l))) l).
  { apply filterWithIndex_ext. intros i y _.
    rewrite length_app, <- app_assoc. simpl. now rewrite Nat.add_1_r, Nat.add_succ_r. }
  rewrite Htail, IH.
  now destruct (existsb (sameOption x) seen).
Qed.

Lemma uniqueSuggestions_firstOccurrences l :
  uniqueSuggestions l = firstOccurrences [] l.
Proof. exact (uniqueSuggestions_from [] l). Qed.

Lemma firstOccurrences_sublist seen l : sublist (firstOccurrences seen l) l.
Proof.
  revert seen. induction l as [|x l IH]; intros seen; simpl; [constructor|].
  destruct (existsb (sameOption x) seen); simpl.
  - apply sublist_cons, IH.
  - apply sublist_skip, IH.
Qed.

(** The keys of the first occurrences: those of the list that are not
    seen yet, each of them once. *)
Lemma firstOccurrences_keys seen l :
  NoDup (map optionKey (firstOccurrences seen l))
  /\ forall k, k ∈ map optionKey (firstOccurrences seen l)
               <-> k ∈ map optionKey l /\ k ∉ map optionKey seen.
Proof.
  revert seen. induction l as [|x l IH]; intros seen.
  - simpl. split; [constructor|]. intros k. split; [inversion 1 | intros [Hk _]; inversion Hk].
  - destruct (IH (seen ++ [x])) as (Hnd & Hk). simpl firstOccurrences.
    assert (Hseen : forall k, (k ∉ map optionKey (seen ++ [x]))
                              <-> (k ∉ map optionKey seen) /\ k <> optionKey x).
    { intros k. rewrite map_app. simpl. rewrite elem_of_app, list_elem_of_singleton. tauto. }
    destruct (existsb (sameOption x) seen) eqn:Ex; simpl.
    + apply existsb_sameOption in Ex. split; [exact Hnd|].
      intros k. rewrite Hk, Hseen, elem_of_cons. split.
      * intros (Hin & Hns & Hne). auto.
      * intros ([->|Hin] & Hns); [contradiction|].
        repeat split; auto. intros ->. contradiction.
    + assert (Hx : optionKey x ∉ map optionKey seen).
      { intros Hin. apply existsb_sameOption in Hin. congruence. }
      split.
      * constructor; [|exact Hnd]. rewrite Hk, Hseen. tauto.
      * intros k. rewrite !elem_of_cons, Hk, Hseen. split.
        -- intros [->|(Hin & Hns & Hne)]; auto.
        -- intros ([->|Hin] & Hns); [now left|].
           destruct (decide (k = optionKey x)) as [->|Hne]; [now left|]. right. auto.
Qed.

(** The option kept for a key is the first of the list with this key. *)
Lemma firstOccurrences_find seen l sug :
  optionKey sug ∈ map optionKey l -> optionKey sug ∉ map optionKey seen ->
  exists s, List.find (sameOption sug) l = Some s /\ s ∈ firstOccurrences seen l.
Proof.
  revert seen. induction l as [|x l IH]; intros seen Hin Hns; [inversion Hin|].
  simpl. destruct (sameOption sug x) eqn:Ex.
  - exists x. split; [reflexivity|].
    apply sameOption_key in Ex.
    destruct (existsb (sameOption x) seen) eqn:Es.
    + apply existsb_sameOption in Es. rewrite Ex in Es. contradiction.
    + left.
  - assert (Hne : optionKey sug <> optionKey x).
    { intros E. assert (sameOption sug x = true) by now apply sameOption_key. congruence. }
    simpl in Hin. apply elem_of_cons in Hin as [E|Hin]; [congruence|].
    destruct (IH (seen ++ [x]) Hin) as (s & Hf & Hs).
    { rewrite map_app. simpl. rewrite elem_of_app, list_elem_of_singleton. tauto. }
    exists s. split; [exact Hf|]. apply elem_of_app. now right.
Qed.

End OptionFacts.

(** X13. The options listed for a column are the suggestions without their
    repetitions: they are taken from the suggestions in their order, no two
    of them have the same action and the same description, and every
    suggestion is represented by the first suggestion that has its action and
    its description. *)
Theorem uniqueSuggestions_first_occurrences (suggestionsList : list CleaningSuggestion) :
  sublist (uniqueSuggestions suggestionsList) suggestionsList
  /\ NoDup (map optionKey (uniqueSuggestions suggestionsList))
  /\ (forall sug, sug ∈ suggestionsList ->
        exists s, List.find (sameOption sug) suggestionsList = Some s
                  /\ s ∈ uniqueSuggestions suggestionsList
                  /\ action s = action sug /\ description s = description sug).
Proof.
  rewrite uniqueSuggestions_firstOccurrences.
  split; [apply firstOccurrences_sublist|].
  split; [apply firstOccurrences_keys|].
  intros sug Hsug.
  destruct (firstOccurrences_find [] suggestionsList sug) as (s & Hf & Hs).
  - apply list_elem_of_fmap. eauto.
  - simpl. inversion 1.
  - exists s. split; [exact Hf|]. split; [exact Hs|].
    apply find_some in Hf as [_ Hk]. apply sameOption_key in Hk.
    now injection Hk.
Qed.

Section RadioFacts.

Lemma isChecked_sameOption cur s : isChecked (Some cur) s = sameOption cur s.
Proof.
  unfold isChecked, sameOption.
  destruct (decide (action cur = action s)) as [Ea|Ea],
           (decide (description cur = description s)) as [Ed|Ed];
    repeat case_bool_decide; simpl; congruence.
Qed.

Lemma currentSelection_select file column sug prev :
  currentSelection file column (handleActionSelect file column sug prev) = Some sug.
Proof.
  unfold currentSelection, selectionFor, handleActionSelect.
  now rewrite getKey_setKey_eq.
Qed.

Lemma length_filter_tagged {A} (g : A -> bool) (l : list A) :
  length (List.filter snd (map (fun s => (s, g s)) l)) = length (List.filter g l).
Proof.
  induction l as [|x l IH]; simpl; [reflexivity|].
  destruct (g x); simpl; now rewrite IH.
Qed.

(** Among options with distinct keys, one at most has a given key. *)
Lemma count_key (l : list CleaningSuggestion) sug :
  NoDup (map optionKey l) ->
  length (List.filter (sameOption sug) l)
  = if existsb (sameOption sug) l then 1%nat else 0%nat.
Proof.
  induction l as [|x l IH]; simpl; [reflexivity|].
  intros Hnd. apply NoDup_cons in Hnd as [Hx Hnd]. specialize (IH Hnd).
  destruct (sameOption sug x) eqn:Ex; simpl; [|exact IH].
  rewrite IH. destruct (existsb (sameOption sug) l) eqn:El; [|reflexivity].
  apply existsb_sameOption in El. apply sameOption_key in Ex.
  rewrite <- Ex in El. contradiction.
Qed.

End RadioFacts.

(** X14. Once an option is selected for a column, the radio buttons of the
    column that are checked are those with the action and the description of
    the selected option: exactly one button when the option is among the
    suggestions of the column.  With no selection staged, no button is
    checked. *)
Theorem renderSuggestionOptions_checked (fileName columnName : string)
    (sug : CleaningSuggestion) (suggestionsList : list CleaningSuggestion)
    (prev : Selections) :
  let radios := renderSuggestionOptions fileName columnName suggestionsList
                  (handleActionSelect fileName columnName sug prev) in
  map fst radios = uniqueSuggestions suggestionsList
  /\ Forall (fun radio => radio.2 = sameOption sug radio.1) radios
  /\ length (List.filter snd radios)
     = (if existsb (sameOption sug) suggestionsList then 1%nat else 0%nat)
  /\ Forall (fun radio => radio.2 = false)
       (renderSuggestionOptions fileName columnName suggestionsList []).
Proof.
  intros radios. subst radios. unfold renderSuggestionOptions.
  rewrite currentSelection_select.
  split; [rewrite map_map; apply map_id|].
  split; [apply Forall_map, Forall_forall; intros s _; apply isChecked_sameOption|].
  split; [|apply Forall_map, Forall_forall; reflexivity].
  rewrite length_filter_tagged.
  rewrite (filter_ext _ (sameOption sug) (isChecked_sameOption sug)).
  rewrite uniqueSuggestions_firstOccurrences.
  rewrite count_key by apply firstOccurrences_keys.
  destruct (existsb (sameOption sug) suggestionsList) eqn:Ex.
  - apply existsb_sameOption in Ex.
    assert (Hin : optionKey sug ∈ map optionKey (firstOccurrences [] suggestionsList)).
    { apply firstOccurrences_keys. split; [exact Ex | inversion 1]. }
    apply existsb_sameOption in Hin. now rewrite Hin.
  - destruct (existsb (sameOption sug) (firstOccurrences [] suggestionsList)) eqn:Eu;
      [|reflexivity].
    apply existsb_sameOption, firstOccurrences_keys in Eu as [Eu _].
    apply existsb_sameOption in Eu. congruence.
Qed.

(** X15. The list of staged changes has one line per staged selection, and
    the keys of its lines are pairwise distinct: they are the keys under which
    the selections are stored. *)
Theorem stagedChanges_keys (selectedActions : Selections) :
  ReachableSelections selectedActions ->
  map fst (stagedChanges selectedActions) = map fst selectedActions
  /\ List.NoDup (map fst (stagedChanges selectedActions))
  /\ length (stagedChanges selectedActions) = length selectedActions.
Proof.
  intros Hr. destruct (reachable_invariant selectedActions Hr) as [Hnd Hwk].
  assert (E : map fst (stagedChanges selectedActions) = map fst selectedActions).
  { unfold stagedChanges, selectionValues. rewrite !map_map. simpl.
    apply map_ext_in. intros kv Hin.
    unfold WellKeyed in Hwk. rewrite List.Forall_forall in Hwk.
    symmetry. now apply Hwk. }
  split; [exact E|]. split; [now rewrite E|].
  unfold stagedChanges, selectionValues. now rewrite !length_map.
Qed.

Lemma stagedChanges_keys_witness :
  let sel := handleActionSelect "sales.csv" "B" fillMode
               (handleActionSelect "sales.csv" "A" dropRows []) in
  map fst (stagedChanges sel) = ["sales.csv-A"; "sales.csv-B"].
Proof.
  intros sel.
  exact (proj1 (stagedChanges_keys sel (ReachSelect _ _ _ _ (ReachSelect _ _ _ _ ReachEmpty)))).
Defined.

(** ** The cards of the active file *)

Section CardFacts.

Lemma columnIssues_columnName fileName rows col issue :
  issue ∈ columnIssues fileName rows col -> columnName issue = name col.
Proof.
  unfold columnIssues. rewrite elem_of_app.
  intros [Hin|Hin];
    [destruct (0 <? missingValues col)%Z | destruct (_ && _)];
    try (inversion Hin; fail);
    apply list_elem_of_singleton in Hin; now subst.
Qed.

(** A column that is shown has an issue, when its type [mixed] comes with a
    positive count. *)
Lemma needsCleaning_issue fileName rows col :
  needsCleaning col = true ->
  (dataType col = DT_mixed -> positiveCount (nonNumericCount col) = true) ->
  exists issue, issue ∈ columnIssues fileName rows col.
Proof.
  unfold needsCleaning, columnIssues. intros Hn Hm.
  destruct (0 <? missingValues col)%Z; [eexists; left|].
  simpl in Hn. apply bool_decide_eq_true in Hn. specialize (Hm Hn).
  rewrite (bool_decide_eq_true_2 _ Hn). simpl. rewrite positive_truthy, Hm.
  eexists. left.
Qed.

Lemma issuesToFetch_elem_of fileName profile issue :
  issue ∈ issuesToFetch fileName profile
  <-> exists col, col ∈ columns profile
                  /\ issue ∈ columnIssues fileName (rowCount profile) col.
Proof.
  unfold issuesToFetch. rewrite list_elem_of_In, in_flat_map.
  split; intros (col & Hc & Hi); exists col; split;
    first [now apply list_elem_of_In | now apply list_elem_of_In in Hc
          | now apply list_elem_of_In in Hi].
Qed.

Lemma namedIn_resolvedResults gen issues issue :
  issue ∈ issues -> namedIn (columnName issue) (resolvedResults gen issues) = true.
Proof.
  intros Hin. unfold namedIn.
  pose proof (existsb_resolvedResults gen
                (fun n => bool_decide (n = columnName issue)) issues) as E.
  cbv beta in E. rewrite E.
  apply existsb_elem_of. exists issue. split; [exact Hin|]. now apply bool_decide_eq_true_2.
Qed.

Lemma mapM_all_Some {A B} (f : A -> option B) (g : A -> B) (l : list A) :
  Forall (fun x => f x = Some (g x)) l -> mapM f l = Some (map g l).
Proof.
  induction 1 as [|x l Hx _ IH]; [reflexivity|].
  simpl. now rewrite Hx, IH.
Qed.

Lemma columnsWithIssues_elem_of profile col :
  col ∈ columnsWithIssues (Some profile)
  <-> col ∈ columns profile /\ needsCleaning col = true.
Proof. apply filter_elem_of. Qed.

End CardFacts.

(** X16. No card is left waiting once the fetch is done.  Take a profile in
    which every [mixed] column has a positive count of non-numeric values.
    When the fetch for its file ends in [done], the active file is rendered
    without error: as the note that no issue was found when no column needs
    cleaning, and otherwise as one card per column that needs cleaning, in
    column order, each of them with the options made of the suggestions
    fetched for the column, none of them with the spinner. *)
Theorem renderActiveFileContent_after_fetch
    (generateCleaningSuggestions : ColumnIssue -> Thrown + list CleaningSuggestion)
    (fileName : string) (profiles : gmap string FullProfileResult)
    (profile : FullProfileResult) (st : CleaningState) (selectedActions : Selections) :
  let st' := fetchSuggestionsForFile generateCleaningSuggestions fileName profiles st in
  let results :=
    resolvedResults generateCleaningSuggestions (issuesToFetch fileName profile) in
  let shown := columnsWithIssues (Some profile) in
  fileName <> "" ->
  fetchStarted (cs_loadingStates st !! fileName) = false ->
  profiles !! fileName = Some profile ->
  MixedCounted profile ->
  cs_loadingStates st' !! fileName = Some LoadDone ->
  renderActiveFileContent (Some fileName) st' profiles selectedActions
  = Some (match shown with
          | [] => ViewNoIssues
          | _ :: _ =>
              ViewCards
                (map (fun column =>
                        (column,
                         CardOptions
                           (renderSuggestionOptions fileName (name column)
                              (suggestionsFor (name column) results) selectedActions)))
                   shown)
          end).
Proof.
  intros st' results shown Hname Hg Hp Hmixed Hdone.
  pose proof (fetchSuggestionsForFile_cases generateCleaningSuggestions
                fileName profiles st Hg) as Hc.
  cbv zeta in Hc. fold st' in Hc. rewrite Hp in Hc. fold results in Hc.
  destruct (fetchFails generateCleaningSuggestions (issuesToFetch fileName profile)).
  { rewrite Hc in Hdone. simpl in Hdone. rewrite lookup_insert_eq in Hdone. discriminate. }
  destruct Hc as (fs & Hst & Hfs).
  unfold renderActiveFileContent.
  destruct fileName as [|ch fileName']; [congruence|].
  set (fileName := String ch fileName') in *.
  rewrite Hst. simpl cs_loadingStates. simpl cs_suggestions.
  rewrite !lookup_insert_eq, Hp. fold shown.
  rewrite (bool_decide_eq_false_2 (Some LoadDone = Some LoadLoading)) by discriminate.
  rewrite (bool_decide_eq_false_2 (Some LoadDone = Some LoadError)) by discriminate.
  destruct shown as [|column0 shown0] eqn:Es; [reflexivity|].
  simpl length. simpl Nat.eqb. cbv iota. rewrite <- Es.
  erewrite mapM_all_Some; [reflexivity|].
  apply Forall_forall. intros column Hcol.
  unfold shown in Hcol. apply columnsWithIssues_elem_of in Hcol as [Hin Hneeds].
  assert (Hm : dataType column = DT_mixed -> positiveCount (nonNumericCount column) = true).
  { unfold MixedCounted in Hmixed. rewrite Forall_forall in Hmixed. now apply Hmixed. }
  destruct (needsCleaning_issue fileName (rowCount profile) column Hneeds Hm)
    as (issue & Hissue).
  assert (Hnamed : namedIn (name column) results = true).
  { rewrite <- (columnIssues_columnName _ _ _ _ Hissue).
    apply namedIn_resolvedResults, issuesToFetch_elem_of. eauto. }
  unfold cardBody. rewrite Hfs, Hnamed. reflexivity.
Qed.

Lemma renderActiveFileContent_after_fetch_witness :
  let st' := fetchSuggestionsForFile answerAll "sales.csv" sampleProfiles noCleaningState in
  is_Some (renderActiveFileContent (Some "sales.csv") st' sampleProfiles []).
Proof.
  intros st'. unfold st'.
  rewrite (renderActiveFileContent_after_fetch answerAll "sales.csv" sampleProfiles
             (twoColumns 100 10 20) noCleaningState []).
  - eexists. reflexivity.
  - discriminate.
  - reflexivity.
  - reflexivity.
  - unfold MixedCounted. simpl. repeat constructor; discriminate.
  - vm_compute. reflexivity.
Defined.

(** X17. A column named like a property that every object inherits (such as
    [constructor] or [toString]) breaks the fetch of its file: when such a
    column has missing values, the fetch ends in [error] and stores no
    suggestion, even though every request is answered. *)
Theorem fetchSuggestionsForFile_inherited_name
    (generateCleaningSuggestions : ColumnIssue -> Thrown + list CleaningSuggestion)
    (fileName : string) (profiles : gmap string FullProfileResult)
    (profile : FullProfileResult) (col : ColumnProfile) (st : CleaningState) :
  let st' := fetchSuggestionsForFile generateCleaningSuggestions fileName profiles st in
  fetchStarted (cs_loadingStates st !! fileName) = false ->
  profiles !! fileName = Some profile ->
  col ∈ columns profile ->
  (0 < missingValues col)%Z ->
  name col ∈ objectPrototypeNames ->
  cs_loadingStates st' !! fileName = Some LoadError
  /\ cs_suggestions st' = cs_suggestions st.
Proof.
  intros st' Hg Hp Hcol Hmissing Hname.
  pose proof (fetchSuggestionsForFile_cases generateCleaningSuggestions
                fileName profiles st Hg) as Hc.
  cbv zeta in Hc. fold st' in Hc. rewrite Hp in Hc.
  assert (Hfails : fetchFails generateCleaningSuggestions (issuesToFetch fileName profile)
                   = true).
  { unfold fetchFails. apply orb_true_iff. right. apply existsb_elem_of.
    exists (missingIssue fileName (rowCount profile) col). split.
    - apply issuesToFetch_elem_of. exists col. split; [exact Hcol|].
      unfold columnIssues. apply Z.ltb_lt in Hmissing. rewrite Hmissing. left.
    - simpl. now apply isInherited_true. }
  rewrite Hfails in Hc. rewrite Hc. simpl. rewrite lookup_insert_eq. auto.
Qed.

Lemma fetchSuggestionsForFile_inherited_name_witness :
  let st' := fetchSuggestionsForFile answerAll "sales.csv" inheritedNameProfiles
               noCleaningState in
  cs_loadingStates st' !! "sales.csv" = Some LoadError
  /\ cs_suggestions st' = cs_suggestions noCleaningState.
Proof.
  refine (fetchSuggestionsForFile_inherited_name answerAll "sales.csv"
            inheritedNameProfiles _ (plainColumn "constructor" 3) noCleaningState
            eq_refl eq_refl _ _ _).
  - simpl. left.
  - simpl. lia.
  - simpl. unfold objectPrototypeNames. left.
Defined.

(** X18. The columns shown on the cleaning page and the columns with an
    issue: a column for which the detector reports an issue is always shown;
    and in a profile whose [mixed] columns have a positive count of
    non-numeric values, the columns shown are exactly the columns for which
    an issue is reported. *)
Theorem columnsWithIssues_detected (fileName : string) (profile : FullProfileResult) :
  let reported := fun col => columnIssues fileName (rowCount profile) col <> [] in
  (forall col, col ∈ columns profile -> reported col ->
               col ∈ columnsWithIssues (Some profile))
  /\ (MixedCounted profile ->
      forall col, col ∈ columnsWithIssues (Some profile)
                  <-> col ∈ columns profile /\ reported col).
Proof.
  intros reported.
  assert (Hshown : forall col, reported col -> needsCleaning col = true).
  { intros col Hr. unfold reported, columnIssues in Hr. unfold needsCleaning.
    destruct (0 <? missingValues col)%Z; [reflexivity|]. simpl in *.
    destruct (bool_decide (dataType col = DT_mixed)); [reflexivity|].
    simpl in Hr. congruence. }
  split.
  - intros col Hin Hr. apply columnsWithIssues_elem_of. auto.
  - intros Hmixed col. rewrite columnsWithIssues_elem_of. split.
    + intros [Hin Hn]. split; [exact Hin|].
      unfold MixedCounted in Hmixed. rewrite Forall_forall in Hmixed.
      destruct (needsCleaning_issue fileName (rowCount profile) col Hn (Hmixed col Hin))
        as (issue & Hissue).
      unfold reported. intros E. rewrite E in Hissue. inversion Hissue.
    + intros [Hin Hr]. auto.
Qed.

(** ** What the apply step keeps *)

Section KeepFacts.

Lemma ColumnKept_refl c : ColumnKept c c.
Proof. unfold ColumnKept. repeat split; auto. lia. Qed.

Lemma ColumnKept_trans c1 c2 c3 : ColumnKept c1 c2 -> ColumnKept c2 c3 -> ColumnKept c1 c3.
Proof.
  unfold ColumnKept. intros (Hn1 & Hu1 & Ht1 & Hm1) (Hn2 & Hu2 & Ht2 & Hm2).
  split; [congruence|]. split; [lia|]. split.
  - destruct Ht2 as [E|[E|E]]; rewrite E; auto.
  - intros Hm Hmixed. apply Hm2; [|exact Hmixed]. intros Hmixed2. now apply Hm1.
Qed.

Lemma applySuggestion_kept sug col m : ColumnKept col (applySuggestion sug col m).1.
Proof.
  unfold applySuggestion.
  destruct (action sug); simpl; try apply ColumnKept_refl;
    try (unfold ColumnKept; simpl; repeat split; auto; lia).
  destruct (requestedTargetType sug) as [t|]; simpl; [|apply ColumnKept_refl].
  unfold changeType. simpl.
  destruct (bool_decide (t = TT_number) && truthyCount (nonNumericCount col));
    unfold ColumnKept; simpl;
    (split; [reflexivity|]; split; [lia|]; split;
     [destruct t; auto | destruct t; discriminate]).
Qed.

Lemma Forall2_kept_refl cols : Forall2 ColumnKept cols cols.
Proof. apply Forall_Forall2_diag, Forall_forall. intros c _. apply ColumnKept_refl. Qed.

Lemma Forall2_kept_trans l1 l2 l3 :
  Forall2 ColumnKept l1 l2 -> Forall2 ColumnKept l2 l3 -> Forall2 ColumnKept l1 l3.
Proof.
  intros H12. revert l3. induction H12 as [|c1 c2 l1 l2 Hc _ IH]; intros l3 H23.
  - inversion H23. constructor.
  - inversion H23 as [|? c3 ? l3' Hc' H23']; subst.
    constructor; [eapply ColumnKept_trans; eauto | now apply IH].
Qed.

Lemma applyAction_kept st a : Forall2 ColumnKept st.1 (applyAction st a).1.
Proof.
  unfold applyAction.
  destruct (list_find _ st.1) as [[i col]|] eqn:Ef; [|apply Forall2_kept_refl].
  apply list_find_Some in Ef as (Hi & _ & _).
  pose proof (applySuggestion_kept (suggestion a) col st.2) as Hk.
  destruct (applySuggestion (suggestion a) col st.2) as [col' m']. simpl in *.
  rewrite <- (list_insert_id st.1 i col Hi) at 1.
  apply Forall2_insert; [apply Forall2_kept_refl | exact Hk].
Qed.

Lemma foldl_applyAction_kept actions :
  forall st, Forall2 ColumnKept st.1 (foldl applyAction st actions).1.
Proof.
  induction actions as [|a actions IH]; intros st; [apply Forall2_kept_refl|].
  simpl. eapply Forall2_kept_trans; [apply applyAction_kept | apply IH].
Qed.

Lemma adjustColumn_kept actions R rc c c' :
  adjustColumn actions R rc c = Some c' -> ColumnKept c c'.
Proof.
  intros Ha. apply adjustColumn_fields in Ha as (Hn & Ht & Hu & Hnn & _).
  unfold ColumnKept. rewrite Hn, Ht, Hu, Hnn. repeat split; auto. lia.
Qed.

(** One file: what an iteration of the file loop keeps. *)
Lemma applyToFile_kept fileProfile actions fileProfile' :
  applyToFile fileProfile actions = Some fileProfile' ->
  columnCount fileProfile' = columnCount fileProfile
  /\ aiInsights fileProfile' = aiInsights fileProfile
  /\ Forall2 ColumnKept (columns fileProfile) (columns fileProfile')
  /\ ((0 <= rowCount fileProfile)%Z ->
      (0 <= rowCount fileProfile' <= rowCount fileProfile)%Z).
Proof.
  unfold applyToFile.
  pose proof (foldl_applyAction_kept actions (columns fileProfile, 0%Z)) as Hk.
  destruct (foldl applyAction (columns fileProfile, 0%Z) actions) as [cols m].
  simpl in Hk.
  destruct (0 <? m)%Z eqn:Em.
  - destruct (mapM _ cols) as [cols'|] eqn:Ec; simpl; [|discriminate].
    intros [= <-]. simpl. repeat split; auto.
    + eapply Forall2_kept_trans; [exact Hk|].
      apply mapM_Some in Ec. eapply Forall2_impl; [exact Ec|].
      intros c c'. apply adjustColumn_kept.
    + destruct (_ <? 0)%Z eqn:E0; [lia|]. apply Z.ltb_ge in E0. lia.
    + apply Z.ltb_lt in Em. destruct (_ <? 0)%Z eqn:E0; [lia|]. lia.
  - intros [= <-]. simpl. repeat split; auto; lia.
Qed.

Lemma Forall2_kept_names cols cols' :
  Forall2 ColumnKept cols cols' -> map name cols' = map name cols.
Proof.
  induction 1 as [|c c' cols cols' (Hn & _) _ IH]; [reflexivity|].
  simpl. now rewrite Hn, IH.
Qed.

(** Every file of the result comes from the file of the same name. *)
Lemma handleApplyChanges_result profiles (sel : Selections) res :
  handleApplyChanges profiles sel = Some res ->
  forall f,
    match profiles !! f with
    | Some p => exists p', res !! f = Some p'
                           /\ applyToFile p (actionsOf f (selectionValues sel)) = Some p'
    | None => res !! f = None
    end.
Proof.
  intros Hres f. pose proof (handleApplyChanges_files profiles sel) as Hf.
  cbv zeta in Hf. rewrite Hres in Hf. specialize (Hf f).
  destruct (profiles !! f) as [p|] eqn:Ep; simpl in Hf; [|exact Hf].
  destruct (handleApplyChanges_Some profiles sel res Hres f p Ep) as (p' & Ha & Hr).
  eauto.
Qed.

End KeepFacts.

(** X19. The apply step keeps the shape of the profiles: the result has the
    same files, and in every file the same column count, the same insights
    and the same columns by name and order.  The unique values of a column
    never decrease, the type of a column is kept or becomes [string] or
    [number], and a row count that is not negative does not grow and stays
    not negative. *)
Theorem handleApplyChanges_keeps (profiles : gmap string FullProfileResult)
    (selectedActions : Selections) (res : gmap string FullProfileResult) :
  handleApplyChanges profiles selectedActions = Some res ->
  dom res = dom profiles
  /\ forall f p p',
       profiles !! f = Some p -> res !! f = Some p' ->
       columnCount p' = columnCount p
       /\ aiInsights p' = aiInsights p
       /\ map name (columns p') = map name (columns p)
       /\ Forall2 (fun c c' =>
                     (uniqueValues c <= uniqueValues c')%Z
                     /\ (dataType c' = dataType c \/ dataType c' = DT_string
                         \/ dataType c' = DT_number))
            (columns p) (columns p')
       /\ ((0 <= rowCount p)%Z -> (0 <= rowCount p' <= rowCount p)%Z).
Proof.
  intros Hres. pose proof (handleApplyChanges_result profiles selectedActions res Hres) as Hr.
  split.
  - apply set_eq. intros f. rewrite !elem_of_dom. specialize (Hr f).
    destruct (profiles !! f) as [p|].
    + destruct Hr as (p' & -> & _). split; eauto.
    + rewrite Hr. reflexivity.
  - intros f p p' Hp Hp'. specialize (Hr f). rewrite Hp in Hr.
    destruct Hr as (p'' & E & Ha). rewrite Hp' in E. injection E as <-.
    apply applyToFile_kept in Ha as (Hc & Hi & Hk & Hrows).
    split; [exact Hc|]. split; [exact Hi|].
    split; [now apply Forall2_kept_names|]. split; [|exact Hrows].
    eapply Forall2_impl; [exact Hk|]. intros c c' (_ & Hu & Ht & _). auto.
Qed.

Lemma handleApplyChanges_keeps_witness :
  dom ({[ "sales.csv" := twoColumns 90 0 18 ]} : gmap string FullProfileResult)
  = dom sampleProfiles.
Proof.
  refine (proj1 (handleApplyChanges_keeps sampleProfiles
                   (handleActionSelect "sales.csv" "A" dropRows [])
                   {[ "sales.csv" := twoColumns 90 0 18 ]} _)).
  vm_compute. reflexivity.
Defined.

(** X20. A column of type [mixed] always comes with a positive count of
    non-numeric values: the profiler produces only such profiles, and the
    apply step turns such profiles into such profiles. *)
Theorem mixed_columns_counted :
  (forall header rows insights,
      MixedCounted (withInsights (basicProfile header rows) insights))
  /\ (forall profiles selectedActions res,
        handleApplyChanges profiles selectedActions = Some res ->
        (forall f p, profiles !! f = Some p -> MixedCounted p) ->
        forall f p', res !! f = Some p' -> MixedCounted p').
Proof.
  split.
  - intros header rows insights. unfold MixedCounted. simpl.
    apply Forall_lookup. intros i col Hcol.
    apply basicProfile_column in Hcol as (colName & _ & ->).
    rewrite profileColumn_dataType, profileColumn_nonNumericCount.
    intros Hm. rewrite Hm. simpl. apply Z.ltb_lt.
    revert Hm. unfold inferType.
    set (present := nonNullValues (columnValues rows i)).
    destruct (0 <? length present)%nat; [|discriminate].
    destruct (0 <? length (List.filter isNumericValue present))%nat; simpl;
      destruct (0 <? length (List.filter (fun val => negb (isNumericValue val))
                               present))%nat eqn:Et;
      simpl; try discriminate.
    intros _. apply Nat.ltb_lt in Et. lia.
  - intros profiles selectedActions res Hres Hall f p' Hp'.
    pose proof (handleApplyChanges_result profiles selectedActions res Hres f) as Hr.
    destruct (profiles !! f) as [p|] eqn:Ep; [|congruence].
    destruct Hr as (p'' & E & Ha). rewrite Hp' in E. injection E as <-.
    apply applyToFile_kept in Ha as (_ & _ & Hk & _).
    specialize (Hall f p Ep). unfold MixedCounted in *.
    apply Forall_lookup. intros i c' Hc'.
    destruct (Forall2_lookup_r _ _ _ _ _ Hk Hc') as (c & Hc & (_ & _ & _ & Hm)).
    apply Hm. now apply (Forall_lookup_1 _ _ _ _ Hall Hc).
Qed.

(** ** Suggestions without effect, and the order of the selections *)

Section OrderFacts.

Lemma applyAction_no_effect st a :
  hasNoEffect (suggestion a) = true -> applyAction st a = st.
Proof.
  unfold hasNoEffect, applyAction, applySuggestion. intros Hn.
  destruct (list_find _ st.1) as [[i col]|] eqn:Ef; [|reflexivity].
  apply list_find_Some in Ef as (Hi & _ & _).
  destruct st as [cols m]. simpl in *.
  destruct (action (suggestion a)); try discriminate.
  - apply bool_decide_eq_true in Hn. rewrite Hn. now rewrite list_insert_id.
  - now rewrite list_insert_id.
Qed.

Lemma applyToFile_no_effect fileProfile actions :
  Forall (fun a => hasNoEffect (suggestion a) = true) actions ->
  applyToFile fileProfile actions = Some fileProfile.
Proof.
  intros Hall. unfold applyToFile.
  assert (E : foldl applyAction (columns fileProfile, 0%Z) actions
              = (columns fileProfile, 0%Z)).
  { generalize (columns fileProfile, 0%Z). induction Hall as [|a actions Ha _ IH];
      intros st; [reflexivity|].
    simpl. now rewrite applyAction_no_effect, IH. }
  rewrite E. simpl. now destruct fileProfile.
Qed.

Lemma Forall_actionsOf (P : AppliedAction -> Prop) f actions :
  Forall P actions -> Forall P (actionsOf f actions).
Proof.
  intros Hall. apply Forall_forall. intros a Ha.
  apply filter_elem_of in Ha as [Ha _]. rewrite Forall_forall in Hall. auto.
Qed.

(** With pairwise distinct columns, the action found for a column does not
    depend on the order of the actions. *)
Lemma find_column_Permutation (l l' : list AppliedAction) n :
  List.NoDup (map column l) -> Permutation l l' ->
  List.find (fun a => bool_decide (column a = n)) l
  = List.find (fun a => bool_decide (column a = n)) l'.
Proof.
  intros Hnd Hperm.
  assert (Hnd' : List.NoDup (map column l')).
  { eapply Permutation_NoDup; [|exact Hnd]. now apply Permutation_map. }
  destruct (List.find (fun a => bool_decide (column a = n)) l) as [a|] eqn:E.
  - apply find_some in E as [Hin Hc]. apply bool_decide_eq_true in Hc. subst n.
    symmetry. apply find_NoDup; [exact Hnd'|].
    eapply Permutation_in; eauto.
  - destruct (List.find (fun a => bool_decide (column a = n)) l') as [a|] eqn:E';
      [|reflexivity].
    apply find_some in E' as [Hin Hc].
    assert (Hin' : In a l) by (eapply Permutation_in; [symmetry; exact Hperm | exact Hin]).
    rewrite (find_none _ _ E a Hin') in Hc. discriminate.
Qed.

Lemma afterActions_Permutation l l' cols :
  List.NoDup (map column l) -> Permutation l l' ->
  afterActions l cols = afterActions l' cols.
Proof.
  intros Hnd Hperm. unfold afterActions. apply imap_ext. intros i c _.
  unfold stagedFor. destruct (firstIndex (name c) cols) as [j|]; [|reflexivity].
  destruct (bool_decide (j = i)); [|reflexivity].
  now rewrite (find_column_Permutation l l' (name c) Hnd Hperm).
Qed.

Lemma foldl_max_Permutation (l l' : list Z) m :
  Permutation l l' -> foldl Z.max m l = foldl Z.max m l'.
Proof.
  intros Hperm.
  destruct (foldl_max_spec l m) as (H1 & H2 & H3).
  destruct (foldl_max_spec l' m) as (H1' & H2' & H3').
  cbv zeta in *.
  assert (Hle : (foldl Z.max m l <= foldl Z.max m l')%Z).
  { destruct H3 as [->|Hin]; [exact H1'|]. apply H2'.
    eapply Permutation_in; eauto. }
  assert (Hge : (foldl Z.max m l' <= foldl Z.max m l)%Z).
  { destruct H3' as [->|Hin]; [exact H1|]. apply H2.
    eapply Permutation_in; [symmetry; exact Hperm | exact Hin]. }
  lia.
Qed.

Lemma maxRowsRemoved_Permutation l l' cols :
  Permutation l l' -> maxRowsRemoved l cols = maxRowsRemoved l' cols.
Proof.
  intros Hperm. unfold maxRowsRemoved, removalCandidates.
  apply foldl_max_Permutation. now rewrite Hperm.
Qed.

Lemma removalSelected_Permutation l l' c :
  Permutation l l' -> removalSelected l c = removalSelected l' c.
Proof.
  intros Hperm. unfold removalSelected.
  apply eq_true_iff_eq. rewrite !existsb_exists.
  split; intros (a & Hin & Ha); exists a; (split; [|exact Ha]);
    [eapply Permutation_in; eauto
    | eapply Permutation_in; [symmetry; exact Hperm | exact Hin]].
Qed.

Lemma applyToFile_Permutation fileProfile l l' :
  List.NoDup (map column l) -> Permutation l l' ->
  applyToFile fileProfile l = applyToFile fileProfile l'.
Proof.
  intros Hnd Hperm.
  assert (Hnd' : List.NoDup (map column l')).
  { eapply Permutation_NoDup; [|exact Hnd]. now apply Permutation_map. }
  rewrite (applyToFile_unfold fileProfile l Hnd), (applyToFile_unfold fileProfile l' Hnd').
  cbv zeta.
  rewrite <- (afterActions_Permutation l l' _ Hnd Hperm).
  rewrite <- (maxRowsRemoved_Permutation l l' _ Hperm).
  destruct (0 <? _)%Z; [|reflexivity].
  erewrite mapM_ext_in; [reflexivity|].
  intros c _. unfold adjustColumn.
  now rewrite (removalSelected_Permutation l l' c Hperm).
Qed.

Lemma actionsOf_Permutation f l l' :
  Permutation l l' -> Permutation (actionsOf f l) (actionsOf f l').
Proof.
  unfold actionsOf. induction 1 as [|x l l' _ IH|x y l|l1 l2 l3 _ IH1 _ IH2]; simpl.
  - constructor.
  - destruct (bool_decide _); [now constructor | exact IH].
  - destruct (bool_decide (file y = f)), (bool_decide (file x = f));
      try reflexivity. apply perm_swap.
  - etransitivity; eauto.
Qed.

End OrderFacts.

(** X21. Selections whose suggestion the simulation has no case for (the
    action [TRIM_WHITESPACE], or [CHANGE_TYPE] without a target type) change
    nothing: applying them gives the profiles back. *)
Theorem handleApplyChanges_no_effect (profiles : gmap string FullProfileResult)
    (selectedActions : Selections) :
  Forall (fun kv => hasNoEffect (suggestion kv.2) = true) selectedActions ->
  handleApplyChanges profiles selectedActions = Some profiles.
Proof.
  intros Hall.
  assert (Hvals : Forall (fun a => hasNoEffect (suggestion a) = true)
                    (selectionValues selectedActions)).
  { unfold selectionValues. now apply Forall_map. }
  pose proof (handleApplyChanges_files profiles selectedActions) as Hf. cbv zeta in Hf.
  destruct (handleApplyChanges profiles selectedActions) as [res|].
  - f_equal. apply map_eq. intros f. rewrite Hf.
    destruct (profiles !! f) as [p|]; simpl; [|reflexivity].
    apply applyToFile_no_effect, Forall_actionsOf, Hvals.
  - destruct Hf as (f & fp & _ & Hnone).
    rewrite applyToFile_no_effect in Hnone; [discriminate|].
    apply Forall_actionsOf, Hvals.
Qed.

Lemma handleApplyChanges_no_effect_witness :
  handleApplyChanges sampleProfiles
    [("sales.csv-A",
      {| file := "sales.csv"; column := "A";
         suggestion := {| action := TRIM_WHITESPACE; description := "Trim";
                          parameters := None |} |})]
  = Some sampleProfiles.
Proof.
  apply handleApplyChanges_no_effect. repeat constructor.
Defined.

(** X22. The result of the apply step does not depend on the order in which
    the selections were staged: the selections of a reachable state, taken
    in any other order, give the same profiles. *)
Theorem handleApplyChanges_order (profiles : gmap string FullProfileResult)
    (selectedActions selectedActions' : Selections) :
  ReachableSelections selectedActions ->
  Permutation selectedActions selectedActions' ->
  handleApplyChanges profiles selectedActions'
  = handleApplyChanges profiles selectedActions.
Proof.
  intros Hreach Hperm. apply handleApplyChanges_ext. intros f fp _.
  symmetry. apply applyToFile_Permutation.
  - now apply reachable_columns_NoDup.
  - apply actionsOf_Permutation. unfold selectionValues. now apply Permutation_map.
Qed.

Lemma handleApplyChanges_order_witness :
  let first := handleActionSelect "sales.csv" "A" dropRows [] in
  let both := handleActionSelect "sales.csv" "B" fillMode first in
  handleApplyChanges sampleProfiles (rev both) = handleApplyChanges sampleProfiles both.
Proof.
  intros first both.
  apply (handleApplyChanges_order sampleProfiles both (rev both)).
  - apply ReachSelect, ReachSelect, ReachEmpty.
  - apply Permutation_rev.
Defined.

(** ** The columns an action does not reach *)

Section ReachFacts.

Lemma applyAction_unreached cols0 st a i :
  map name st.1 = map name cols0 ->
  firstIndex (column a) cols0 <> Some i ->
  (applyAction st a).1 !! i = st.1 !! i.
Proof.
  intros Hnames Hne. unfold applyAction.
  destruct (list_find _ st.1) as [[j col]|] eqn:Ef; [|reflexivity].
  assert (Hj : firstIndex (column a) st.1 = Some j).
  { unfold firstIndex, firstNamed. now rewrite Ef. }
  rewrite (firstIndex_names _ cols0 st.1 Hnames) in Hj.
  destruct (applySuggestion (suggestion a) col st.2) as [col' m']. simpl.
  apply list_lookup_insert_ne. congruence.
Qed.

Lemma foldl_applyAction_unreached cols0 actions i :
  forall st,
    map name st.1 = map name cols0 ->
    Forall (fun a => firstIndex (column a) cols0 <> Some i) actions ->
    (foldl applyAction st actions).1 !! i = st.1 !! i.
Proof.
  induction actions as [|a actions IH]; intros st Hnames Hall; [reflexivity|].
  inversion Hall as [|? ? Ha Hrest]; subst. simpl.
  rewrite IH; [now apply (applyAction_unreached cols0) | | exact Hrest].
  now rewrite applyAction_names.
Qed.

Lemma applyToFile_unreached fileProfile actions fileProfile' i c :
  applyToFile fileProfile actions = Some fileProfile' ->
  columns fileProfile !! i = Some c ->
  Forall (fun a => firstIndex (column a) (columns fileProfile) <> Some i) actions ->
  exists c', columns fileProfile' !! i = Some c'
             /\ name c' = name c /\ dataType c' = dataType c
             /\ uniqueValues c' = uniqueValues c
             /\ nonNumericCount c' = nonNumericCount c.
Proof.
  unfold applyToFile. intros Ha Hc Hall.
  pose proof (foldl_applyAction_unreached (columns fileProfile) actions i
                (columns fileProfile, 0%Z) eq_refl Hall) as Hi.
  destruct (foldl applyAction (columns fileProfile, 0%Z) actions) as [cols m].
  simpl in Hi. rewrite Hc in Hi.
  destruct (0 <? m)%Z.
  - destruct (mapM _ cols) as [cols'|] eqn:Ec; simpl in Ha; [|discriminate].
    injection Ha as <-. simpl.
    destruct (mapM_lookup_l _ _ _ _ _ Ec Hi) as (c' & Hc' & Hadj).
    exists c'. split; [exact Hc'|].
    apply adjustColumn_fields in Hadj. tauto.
  - injection Ha as <-. simpl. exists c. auto.
Qed.

End ReachFacts.

(** X23. An action reaches the first column that has the name it carries,
    and no other: the type, the unique values and the count of non-numeric
    values of a column are those of before the apply step unless a selection of
    the file names the column and the column is the first of its name.  In
    particular, of two columns with the same name only the first one is ever
    changed in these. *)
Theorem handleApplyChanges_unreached (profiles : gmap string FullProfileResult)
    (selectedActions : Selections) (res : gmap string FullProfileResult)
    (f : string) (p p' : FullProfileResult) (i : nat) (c : ColumnProfile) :
  handleApplyChanges profiles selectedActions = Some res ->
  profiles !! f = Some p -> res !! f = Some p' ->
  columns p !! i = Some c ->
  Forall (fun a => firstIndex (column a) (columns p) <> Some i)
    (actionsOf f (selectionValues selectedActions)) ->
  exists c', columns p' !! i = Some c'
             /\ name c' = name c /\ dataType c' = dataType c
             /\ uniqueValues c' = uniqueValues c
             /\ nonNumericCount c' = nonNumericCount c.
Proof.
  intros Hres Hp Hp' Hc Hall.
  pose proof (handleApplyChanges_result profiles selectedActions res Hres f) as Hr.
  rewrite Hp in Hr. destruct Hr as (p'' & E & Ha). rewrite Hp' in E. injection E as <-.
  eapply applyToFile_unreached; eauto.
Qed.

Lemma handleApplyChanges_unreached_witness :
  exists c', columns (sameNameColumns 6 0) !! 1%nat = Some c'
             /\ name c' = "A" /\ dataType c' = DT_string
             /\ uniqueValues c' = 5%Z
             /\ nonNumericCount c' = None.
Proof.
  refine (handleApplyChanges_unreached
            {[ "sales.csv" := sameNameColumns 5 3 ]}
            (handleActionSelect "sales.csv" "A" fillMode [])
            {[ "sales.csv" := sameNameColumns 6 0 ]}
            "sales.csv" (sameNameColumns 5 3) (sameNameColumns 6 0) 1
            (plainColumn "A" 4) _ _ _ _ _).
  - vm_compute. reflexivity.
  - reflexivity.
  - reflexivity.
  - reflexivity.
  - vm_compute. repeat constructor. discriminate.
Defined.

(** ** The column an action reaches *)

Section ReachedFacts.

(** The column reached by an action, after the apply step on its file. *)
Lemma applyToFile_reached fileProfile actions fileProfile' a i c :
  List.NoDup (map column actions) ->
  applyToFile fileProfile actions = Some fileProfile' ->
  In a actions ->
  firstNamed (column a) (columns fileProfile) = Some (i, c) ->
  exists c',
    columns fileProfile' !! i = Some c'
    /\ (c' = columnEffect (suggestion a) c
        \/ adjustColumn actions (maxRowsRemoved actions (columns fileProfile))
             (rowCount fileProfile) (columnEffect (suggestion a) c) = Some c').
Proof.
  intros Hnd Happ Hin Hf.
  destruct (applyToFile_columns _ _ _ Hnd Happ) as (_ & _ & _ & Hcols).
  specialize (Hcols i). rewrite (afterActions_reached _ _ _ _ _ Hnd Hin Hf) in Hcols.
  destruct Hcols as (c' & Hc' & Hadj). exists c'. split; [exact Hc'|].
  destruct (0 <? _)%Z; auto.
Qed.

Lemma removalSelected_reached actions a c1 :
  In a actions -> isRemoveRows a = true -> name c1 = column a ->
  removalSelected actions c1 = true.
Proof.
  intros Hin Hr Hn. unfold removalSelected. apply existsb_exists.
  exists a. split; [exact Hin|]. rewrite Hr, andb_true_r.
  now apply bool_decide_eq_true_2.
Qed.

(** No share of no missing value: the estimate for a column without missing
    values leaves it without missing values. *)
Lemma subtractFloored_zero R rc v :
  subtractFloored 0 (estimatedRemovals 0 R rc) = Some v -> v = 0%Z.
Proof.
  unfold estimatedRemovals. rewrite toDouble_zero.
  generalize (SFdiv prec emax (toDouble R) (toDouble rc)). intros q.
  destruct q as [s|s| |s m e]; simpl; try discriminate; now intros [= <-].
Qed.

Lemma adjustColumn_zero actions R rc c1 c' :
  missingValues c1 = 0%Z -> adjustColumn actions R rc c1 = Some c' ->
  missingValues c' = 0%Z.
Proof.
  intros Hz. unfold adjustColumn. rewrite Hz.
  destruct (negb (removalSelected actions c1)); [|now intros [= <-]].
  destruct (subtractFloored 0 (estimatedRemovals 0 R rc)) as [v|] eqn:Ev; simpl;
    [|discriminate].
  intros [= <-]. simpl. now apply subtractFloored_zero in Ev.
Qed.

Lemma firstNamed_same_names n cols cols' i c' :
  map name cols' = map name cols ->
  firstNamed n cols' = Some (i, c') ->
  exists c, firstNamed n cols = Some (i, c).
Proof.
  intros Hnames Hf.
  assert (Hi : firstIndex n cols' = Some i) by (unfold firstIndex; now rewrite Hf).
  rewrite (firstIndex_names n cols cols' Hnames) in Hi.
  unfold firstIndex in Hi. destruct (firstNamed n cols) as [[j c]|]; [|discriminate].
  simpl in Hi. injection Hi as ->. eauto.
Qed.

(** After the rows are removed, the columns named by the removals have no
    missing value. *)
Lemma applyToFile_removed fileProfile actions fileProfile' a i c' :
  List.NoDup (map column actions) ->
  applyToFile fileProfile actions = Some fileProfile' ->
  In a actions -> isRemoveRows a = true ->
  firstNamed (column a) (columns fileProfile') = Some (i, c') ->
  missingValues c' = 0%Z.
Proof.
  intros Hnd Happ Hin Hr Hf'.
  assert (Hnames : map name (columns fileProfile') = map name (columns fileProfile)).
  { apply applyToFile_kept in Happ as (_ & _ & Hk & _). now apply Forall2_kept_names. }
  destruct (firstNamed_same_names _ _ _ _ _ Hnames Hf') as (c & Hf).
  destruct (applyToFile_reached _ _ _ _ _ _ Hnd Happ Hin Hf) as (c'' & Hc'' & Hcase).
  apply firstNamed_lookup in Hf' as [Hc' _]. rewrite Hc' in Hc''. injection Hc'' as <-.
  assert (Hz : missingValues (columnEffect (suggestion a) c) = 0%Z).
  { unfold columnEffect, applySuggestion. unfold isRemoveRows in Hr.
    apply bool_decide_eq_true in Hr. now rewrite Hr. }
  destruct Hcase as [->|Hadj]; [exact Hz|].
  eapply adjustColumn_zero; eauto.
Qed.

Lemma set_missingValues_same c : set_missingValues (missingValues c) c = c.
Proof. now destruct c. Qed.

(** Removing the rows once more changes nothing. *)
Lemma applyToFile_removal_again fileProfile actions fileProfile' :
  List.NoDup (map column actions) ->
  Forall (fun a => isRemoveRows a = true) actions ->
  applyToFile fileProfile actions = Some fileProfile' ->
  applyToFile fileProfile' actions = Some fileProfile'.
Proof.
  intros Hnd Hall Happ. rewrite Forall_forall in Hall.
  rewrite (applyToFile_unfold fileProfile' actions Hnd). cbv zeta.
  assert (HR : maxRowsRemoved actions (columns fileProfile') = 0%Z).
  { destruct (maxRowsRemoved_spec actions (columns fileProfile')) as (_ & _ & [E|E]);
      [exact E|].
    destruct E as (a & i & c' & Hin & Hr & Hf & Hm).
    rewrite <- Hm. eapply applyToFile_removed; eauto. }
  rewrite HR. simpl.
  assert (Hcols : afterActions actions (columns fileProfile') = columns fileProfile').
  { apply list_eq. intros i. unfold afterActions. rewrite list_lookup_imap.
    destruct (columns fileProfile' !! i) as [c'|] eqn:Hc'; simpl; [|reflexivity].
    f_equal. unfold stagedFor.
    destruct (firstIndex (name c') (columns fileProfile')) as [j|] eqn:Ej; [|reflexivity].
    case_bool_decide as Hji; [|reflexivity]. subst j.
    destruct (List.find _ actions) as [a|] eqn:Ea; [|reflexivity].
    apply find_some in Ea as [Hin Hcol]. apply bool_decide_eq_true in Hcol.
    assert (Hr : isRemoveRows a = true) by (apply Hall; now apply list_elem_of_In).
    assert (Hf : firstNamed (column a) (columns fileProfile') = Some (i, c')).
    { rewrite Hcol. unfold firstIndex in Ej.
      destruct (firstNamed (name c') (columns fileProfile')) as [[j c'']|] eqn:Ef;
        [|discriminate].
      simpl in Ej. injection Ej as ->.
      apply firstNamed_lookup in Ef as Hl. destruct Hl as [Hl _].
      rewrite Hc' in Hl. now injection Hl as ->. }
    pose proof (applyToFile_removed _ _ _ _ _ _ Hnd Happ Hin Hr Hf) as Hz.
    unfold columnEffect, applySuggestion. unfold isRemoveRows in Hr.
    apply bool_decide_eq_true in Hr. rewrite Hr. simpl.
    rewrite <- Hz. apply set_missingValues_same. }
  rewrite Hcols. now destruct fileProfile'.
Qed.

End ReachedFacts.

(** X24. Removing rows is idempotent.  When the staged selections all remove
    rows, applying them to the profiles they produced gives these profiles
    again: the rows are not removed a second time, and no count changes. *)
Theorem handleApplyChanges_removal_again (profiles : gmap string FullProfileResult)
    (selectedActions : Selections) (res : gmap string FullProfileResult) :
  ReachableSelections selectedActions ->
  Forall (fun kv => isRemoveRows kv.2 = true) selectedActions ->
  handleApplyChanges profiles selectedActions = Some res ->
  handleApplyChanges res selectedActions = Some res.
Proof.
  intros Hreach Hall Hres.
  assert (Hvals : forall f, Forall (fun a => isRemoveRows a = true)
                              (actionsOf f (selectionValues selectedActions))).
  { intros f. apply Forall_actionsOf. unfold selectionValues. now apply Forall_map. }
  assert (Hagain : forall f p', res !! f = Some p' ->
            applyToFile p' (actionsOf f (selectionValues selectedActions)) = Some p').
  { intros f p' Hp'.
    pose proof (handleApplyChanges_result profiles selectedActions res Hres f) as Hr.
    destruct (profiles !! f) as [p|]; [|congruence].
    destruct Hr as (p'' & E & Ha). rewrite Hp' in E. injection E as <-.
    eapply applyToFile_removal_again; eauto.
    now apply reachable_columns_NoDup. }
  pose proof (handleApplyChanges_files res selectedActions) as Hf. cbv zeta in Hf.
  destruct (handleApplyChanges res selectedActions) as [res2|].
  - f_equal. apply map_eq. intros f. rewrite Hf.
    destruct (res !! f) as [p'|] eqn:Hp'; simpl; [|reflexivity]. now apply Hagain.
  - destruct Hf as (f & fp & Hfp & Hnone). rewrite (Hagain f fp Hfp) in Hnone. discriminate.
Qed.

Lemma handleApplyChanges_removal_again_witness :
  handleApplyChanges {[ "sales.csv" := twoColumns 90 0 18 ]}
    (handleActionSelect "sales.csv" "A" dropRows [])
  = Some {[ "sales.csv" := twoColumns 90 0 18 ]}.
Proof.
  apply (handleApplyChanges_removal_again sampleProfiles).
  - apply ReachSelect, ReachEmpty.
  - repeat constructor.
  - vm_compute. reflexivity.
Defined.

(** X25. An applied suggestion clears the issue it answers.  After the apply
    step, the column reached by a selection that removes rows or fills the
    missing values has no missing value, so that the detector reports no
    issue of missing values for it; and the column reached by a change of
    type with a target type is not [mixed], so that the detector reports no
    issue of mixed type for it. *)
Theorem applied_suggestion_clears_issue (profiles : gmap string FullProfileResult)
    (selectedActions : Selections) (res : gmap string FullProfileResult)
    (f : string) (p p' : FullProfileResult) (a : AppliedAction) (i : nat)
    (c : ColumnProfile) :
  ReachableSelections selectedActions ->
  handleApplyChanges profiles selectedActions = Some res ->
  profiles !! f = Some p -> res !! f = Some p' ->
  In a (actionsOf f (selectionValues selectedActions)) ->
  firstNamed (column a) (columns p) = Some (i, c) ->
  exists c',
    columns p' !! i = Some c'
    /\ let issues := columnIssues f (rowCount p') c' in
       match action (suggestion a) with
       | REMOVE_ROWS | FILL_MEAN | FILL_MEDIAN | FILL_MODE | FILL_CUSTOM =>
           missingValues c' = 0%Z
           /\ Forall (fun issue => issueType issue <> missing_values) issues
       | CHANGE_TYPE =>
           requestedTargetType (suggestion a) <> None ->
           dataType c' <> DT_mixed
           /\ Forall (fun issue => issueType issue <> mixed_type) issues
       | TRIM_WHITESPACE => True
       end.
Proof.
  intros Hreach Hres Hp Hp' Hin Hf.
  pose proof (handleApplyChanges_result profiles selectedActions res Hres f) as Hr.
  rewrite Hp in Hr. destruct Hr as (p'' & E & Happ). rewrite Hp' in E. injection E as <-.
  set (actions := actionsOf f (selectionValues selectedActions)) in *.
  assert (Hnd : List.NoDup (map column actions)) by now apply reachable_columns_NoDup.
  destruct (applyToFile_reached _ _ _ _ _ _ Hnd Happ Hin Hf) as (c' & Hc' & Hcase).
  exists c'. split; [exact Hc'|]. cbv zeta.
  assert (Hmissing : missingValues (columnEffect (suggestion a) c) = 0%Z ->
                     missingValues c' = 0%Z
                     /\ Forall (fun issue => issueType issue <> missing_values)
                          (columnIssues f (rowCount p') c')).
  { intros Hz.
    assert (Hz' : missingValues c' = 0%Z).
    { destruct Hcase as [->|Hadj]; [exact Hz | eapply adjustColumn_zero; eauto]. }
    split; [exact Hz'|]. unfold columnIssues. rewrite Hz'. simpl.
    destruct (_ && _); repeat constructor. discriminate. }
  assert (Htype : dataType c' = dataType (columnEffect (suggestion a) c)).
  { destruct Hcase as [->|Hadj]; [reflexivity|].
    apply adjustColumn_fields in Hadj. tauto. }
  unfold columnEffect, applySuggestion in Hmissing, Htype.
  destruct (action (suggestion a)); try (apply Hmissing; reflexivity); [|exact I].
  intros Ht. destruct (requestedTargetType (suggestion a)) as [t|]; [|congruence].
  simpl in Htype.
  assert (Hnm : dataType c' <> DT_mixed).
  { rewrite Htype. unfold changeType. simpl.
    destruct (_ && _); simpl; destruct t; discriminate. }
  split; [exact Hnm|]. unfold columnIssues.
  rewrite (bool_decide_eq_false_2 _ Hnm). simpl. rewrite app_nil_r.
  destruct (0 <? missingValues c')%Z; repeat constructor. discriminate.
Qed.

Lemma applied_suggestion_clears_issue_witness :
  exists c',
    columns (twoColumns 90 0 18) !! 0%nat = Some c'
    /\ missingValues c' = 0%Z
    /\ Forall (fun issue => issueType issue <> missing_values)
         (columnIssues "sales.csv" 90 c').
Proof.
  refine (applied_suggestion_clears_issue sampleProfiles
            (handleActionSelect "sales.csv" "A" dropRows [])
            {[ "sales.csv" := twoColumns 90 0 18 ]}
            "sales.csv" (twoColumns 100 10 20) (twoColumns 90 0 18)
            dropRowsOnA 0 (plainColumn "A" 10) _ _ _ _ _ _).
  - apply ReachSelect, ReachEmpty.
  - vm_compute. reflexivity.
  - reflexivity.
  - reflexivity.
  - left. reflexivity.
  - reflexivity.
Defined.

(** ** The upload queue and the relationships *)

Section QueueFacts.

Lemma filterWithIndex_from {A} (index : nat) (l : list A) : forall n,
  filterWithIndex (fun _ i => negb (n + i =? index)%nat) l
  = if (n <=? index)%nat then take (index - n) l ++ drop (S (index - n)) l else l.
Proof.
  induction l as [|x l IH]; intros n.
  - destruct (n <=? index)%nat; [|reflexivity].
    now rewrite take_nil, drop_nil.
  - rewrite filterWithIndex_cons.
    rewrite (filterWithIndex_ext _ (fun _ i => negb (S n + i =? index)%nat))
      by (intros i y _; now rewrite Nat.add_succ_r).
    rewrite IH, Nat.add_0_r.
    destruct (Nat.eqb_spec n index) as [->|Hne].
    + rewrite Nat.leb_refl, Nat.sub_diag.
      destruct (Nat.leb_spec (S index) index) as [Hle|_]; [lia|]. reflexivity.
    + destruct (Nat.leb_spec n index) as [Hle|Hgt].
      * destruct (Nat.leb_spec (S n) index) as [_|Hgt]; [|lia].
        replace (index - n)%nat with (S (index - S n)) by lia.
        reflexivity.
      * destruct (Nat.leb_spec (S n) index) as [Hle|_]; [lia|]. reflexivity.
Qed.

Lemma filterWithIndex_remove {A} (index : nat) (l : list A) :
  filterWithIndex (fun _ i => negb (i =? index)%nat) l
  = take index l ++ drop (S index) l.
Proof.
  pose proof (filterWithIndex_from index l 0) as E. simpl in E.
  rewrite Nat.sub_0_r in E. exact E.
Qed.

End QueueFacts.

(** X26. Removing a file from the upload queue, or a relationship from the
    list, removes the entry at the given index and nothing else: the entries
    before it and the entries after it stay, in their order.  An index past
    the end removes nothing. *)
Theorem removeFile_at_index {A} (index : nat) (files : list A) :
  removeFile index files = take index files ++ drop (S index) files
  /\ handleRemoveRelationship index files = take index files ++ drop (S index) files
  /\ (forall j, removeFile index files !! j
                = if (j <? index)%nat then files !! j else files !! S j)
  /\ length (removeFile index files)
     = (if (index <? length files)%nat then length files - 1 else length files)%nat.
Proof.
  unfold removeFile, handleRemoveRelationship. rewrite filterWithIndex_remove.
  split; [reflexivity|]. split; [reflexivity|]. split.
  - intros j. destruct (j <? index)%nat eqn:Ej.
    + apply Nat.ltb_lt in Ej.
      destruct (decide (j < length files)%nat) as [Hlt|Hge].
      * rewrite lookup_app_l by (rewrite length_take; lia). now apply lookup_take_lt.
      * rewrite (lookup_ge_None_2 files j) by lia.
        apply lookup_ge_None_2. rewrite length_app, length_take, length_drop. lia.
    + apply Nat.ltb_ge in Ej.
      destruct (decide (index < length files)%nat) as [Hlt|Hge].
      * rewrite lookup_app_r by (rewrite length_take; lia).
        rewrite length_take, lookup_drop. f_equal. lia.
      * rewrite (lookup_ge_None_2 files (S j)) by lia.
        apply lookup_ge_None_2. rewrite length_app, length_take, length_drop. lia.
  - rewrite length_app, length_take, length_drop.
    destruct (index <? length files)%nat eqn:Ei;
      [apply Nat.ltb_lt in Ei | apply Nat.ltb_ge in Ei]; lia.
Qed.

Section RelationshipFacts.

Lemma existsb_eq_elem_of (r : Relationship) l :
  existsb (fun r' => bool_decide (r' = r)) l = true <-> r ∈ l.
Proof.
  rewrite existsb_elem_of. split.
  - intros (r' & Hin & E). apply bool_decide_eq_true in E. now subst.
  - intros Hin. exists r. split; [exact Hin|]. now apply bool_decide_eq_true.
Qed.

Lemma NoDup_remove_at {A} (index : nat) (l : list A) :
  NoDup l -> NoDup (take index l ++ drop (S index) l).
Proof.
  intros Hnd. eapply sublist_NoDup; [exact Hnd|].
  rewrite <- (take_drop index l) at 3.
  apply sublist_app; [reflexivity|].
  replace (S index) with (index + 1)%nat by lia.
  rewrite <- drop_drop. apply sublist_drop.
Qed.

Lemma modelingStep_NoDup st step :
  NoDup (ms_relationships st) -> NoDup (ms_relationships (modelingStep st step)).
Proof.
  intros Hnd. destruct step as [index|index]; simpl.
  - unfold handleAcceptSuggestion.
    destruct (ms_suggestions st !! index) as [suggestion|]; [|exact Hnd]. simpl.
    destruct (existsb _ (ms_relationships st)) eqn:Ex; [exact Hnd|].
    apply NoDup_app. split; [exact Hnd|]. split; [|apply NoDup_singleton].
    intros r Hr Hr'. apply list_elem_of_singleton in Hr'. subst r.
    apply existsb_eq_elem_of in Hr. congruence.
  - unfold handleRemoveRelationship. rewrite filterWithIndex_remove.
    now apply NoDup_remove_at.
Qed.

End RelationshipFacts.

(** X27. The list of relationships never holds the same relationship twice.
    Starting from a list without repetition (the empty list at the start),
    whatever suggestions are accepted and whatever relationships are removed,
    in any order, the list has no repetition.  Accepting the suggestion at an
    index puts its relationship in the list, and takes this suggestion, and
    no other, off the suggestions. *)
Theorem relationships_never_repeat (st : ModelingState) (steps : list ModelingStep) :
  NoDup (ms_relationships st) ->
  NoDup (ms_relationships (foldl modelingStep st steps))
  /\ forall index suggestion,
       ms_suggestions st !! index = Some suggestion ->
       let st' := handleAcceptSuggestion index st in
       {| fromTable := sug_fromTable suggestion; fromColumn := sug_fromColumn suggestion;
          toTable := sug_toTable suggestion; toColumn := sug_toColumn suggestion;
          rel_type := sug_type suggestion |} ∈ ms_relationships st'
       /\ ms_suggestions st'
          = take index (ms_suggestions st) ++ drop (S index) (ms_suggestions st)
       /\ NoDup (ms_relationships st').
Proof.
  intros Hnd. split.
  - revert st Hnd. induction steps as [|step steps IH]; intros st Hnd; [exact Hnd|].
    simpl. apply IH. now apply modelingStep_NoDup.
  - intros index suggestion Hs st'.
    split; [|split].
    + subst st'. unfold handleAcceptSuggestion. rewrite Hs. simpl.
      destruct (existsb _ (ms_relationships st)) eqn:Ex.
      * now apply existsb_eq_elem_of.
      * apply elem_of_app. right. now apply list_elem_of_singleton.
    + subst st'. unfold handleAcceptSuggestion. rewrite Hs. simpl.
      apply filterWithIndex_remove.
    + exact (modelingStep_NoDup st (AcceptSuggestion index) Hnd).
Qed.

Lemma relationships_never_repeat_witness :
  let sug := {| sug_fromTable := "orders.csv"; sug_fromColumn := "customer_id";
                sug_toTable := "customers.csv"; sug_toColumn := "id";
                sug_type := ManyToOne; confidence := High; reason := "key" |} in
  let st := {| ms_relationships := []; ms_suggestions := [sug; sug] |} in
  NoDup (ms_relationships
           (foldl modelingStep st [AcceptSuggestion 0; AcceptSuggestion 0])).
Proof.
  intros sug st.
  exact (proj1 (relationships_never_repeat st [AcceptSuggestion 0; AcceptSuggestion 0]
                  (NoDup_nil_2))).
Defined.
